(** * A read-only NFS client: ONC RPC framing and the NFS-open driver

    Shallow embedding of [src/net/oncrpc/nfs_open.c] (the state-machine
    driver, followed in the same file by the ONC RPC session layer) and of
    the callback-chain driver kept beside it.

    - machine integers are [Z] with the wrap-around written out;
    - an [io_buffer] is the list of bytes between its [data] and [tail]
      pointers;
    - intrusive lists ([list_add], [list_for_each_entry_safe]) are lists,
      head first;
    - calls that leave the translated files (the transport, the downstream
      sink, the portmap/mount/nfs call helpers) are events of a trace, their
      return codes being supplied by an environment, as is, in the
      callback-chain driver, what a helper leaves in the session whose
      address it is handed. *)

From Stdlib Require Import ZArith List Bool Lia Permutation.
From Equations Require Import Equations.
Import ListNotations.
Local Open Scope Z_scope.

(* ------------------------------------------------------------------ *)
(** ** Machine integers and bytes *)

Definition byte := Z.

(** [uint32_t] and [uint64_t] arithmetic wraps. *)
Definition u32 (x : Z) : Z := x mod 2 ^ 32.
Definition u64 (x : Z) : Z := x mod 2 ^ 64.

(** The four bytes that storing [htonl ( v )] through a [uint32_t *] leaves
    in memory, lowest address first. *)
Definition htonl (v : Z) : list byte :=
  [ Z.land (Z.shiftr v 24) 255 ; Z.land (Z.shiftr v 16) 255 ;
    Z.land (Z.shiftr v 8) 255 ; Z.land v 255 ].

(** The [uint32_t] that [ntohl] reads back from four bytes. *)
Definition ntohl (b0 b1 b2 b3 : byte) : Z :=
  Z.lor (Z.shiftl b0 24) (Z.lor (Z.shiftl b1 16) (Z.lor (Z.shiftl b2 8) b3)).

(** [off_t] is a signed integer type, 64 bits wide on the build modelled;
    the type and the prototype [xfer_seek ( intf, off_t offset )] belong to
    headers outside the translated files.  A [uint64_t] passed for an
    [off_t] is converted: 2^63 and above arrive as negative numbers. *)
Definition off_t (x : Z) : Z := (x + 2 ^ 63) mod 2 ^ 64 - 2 ^ 63.

Arguments u32 : simpl never.
Arguments u64 : simpl never.
Arguments off_t : simpl never.
Arguments htonl : simpl never.
Arguments ntohl : simpl never.

(** Error numbers of [errno.h].  The header is not among the translated
    files and its numbering is the platform's own; the codes below stand
    for it, and the development uses only that they are positive and
    pairwise distinct. *)
Module Errno.
Definition EAGAIN     : Z := 11.
Definition ENOMEM     : Z := 12.
Definition EINVAL     : Z := 22.
Definition EPROTO     : Z := 71.
Definition ENOTSUP    : Z := 95.
Definition ECONNRESET : Z := 104.
Definition ENOBUFS    : Z := 105.
End Errno.
Import Errno.

(* ------------------------------------------------------------------ *)
(** ** I/O buffers and the XDR helpers *)

Definition io_buffer := list byte.

Definition iob_len (b : io_buffer) : Z := Z.of_nat (length b).

(** [iob_put ( b, n )] moves the tail by [n]; the bytes it exposes hold
    whatever [alloc_iob] left there until the caller stores to them, which
    every use below does before the buffer is read.  They are zero here. *)
Definition iob_put (b : io_buffer) (n : nat) : io_buffer := b ++ repeat 0 n.

(** [* ( char * ) iob_put ( io_buf, 1 ) = c] *)
Definition iob_put_char (b : io_buffer) (c : byte) : io_buffer := b ++ [c].

(** [* ( uint32_t * ) b->data = htonl ( v )]: overwrite the first word. *)
Definition iob_store_head (b : io_buffer) (v : Z) : io_buffer :=
  htonl v ++ skipn 4 b.

(** Computations that append to one buffer and return a value. *)
Definition IOB (A : Type) : Type := io_buffer -> A * io_buffer.

Definition iob_ret {A} (a : A) : IOB A := fun b => (a, b).

Definition iob_bind {A B} (m : IOB A) (k : A -> IOB B) : IOB B :=
  fun b => let '(a, b') := m b in k a b'.

Declare Scope iob_scope.
Delimit Scope iob_scope with iob.
Notation "x <- m ;; k" := (iob_bind m (fun x => k))
  (at level 61, m at next level, right associativity) : iob_scope.
Notation "m ;;; k" := (iob_bind m (fun _ => k))
  (at level 61, right associativity) : iob_scope.

(** Modelled from the spec: [oncrpc_iob_add_int] is an inline helper of
    [ipxe/oncrpc_iob.h], which is not among the translated files.  The spec
    has "u32 -- 4 bytes, big-endian"; the helper appends them and returns
    their number. *)
Definition oncrpc_iob_add_int (val : Z) : IOB Z :=
  fun b => (4, b ++ htonl (u32 val)).

(** Modelled from the spec: [oncrpc_iob_get_int], of the same header,
    extracts a big-endian u32 from the front of the buffer.  A buffer
    shorter than four bytes has no modelled outcome. *)
Definition oncrpc_iob_get_int (b : io_buffer) : option (Z * io_buffer) :=
  match b with
  | b0 :: b1 :: b2 :: b3 :: rest => Some (ntohl b0 b1 b2 b3, rest)
  | _ => None
  end.

(** A C string is the memory its pointer designates; it ends before the
    first NUL (or with the memory modelled). *)
Definition cstring := list byte.

Fixpoint strlen (s : cstring) : nat :=
  match s with
  | [] => 0%nat
  | c :: s' => if c =? 0 then 0%nat else S (strlen s')
  end.

(** The characters of a C string, terminator excluded. *)
Fixpoint chars (s : cstring) : list byte :=
  match s with
  | [] => []
  | c :: s' => if c =? 0 then [] else c :: chars s'
  end.

(** [for ( s = val; *s != '\0'; ++s ) * ( char * ) iob_put ( .. ) = *s;]
    returns [s - val] at loop exit. *)
Fixpoint add_string_copy (s : cstring) : IOB nat :=
  match s with
  | [] => iob_ret 0%nat
  | c :: s' =>
      if c =? 0 then iob_ret 0%nat
      else (fun b => let '(n, b') := add_string_copy s' (iob_put_char b c) in
                     (S n, b'))
  end.

(** [while ( ( s++ - val ) % 4 != 0 ) * ( char * ) iob_put ( .. ) = '\0';]
    with [i = s - val]; the post-increment also happens on the test that
    ends the loop.  Returns [s - val] at loop exit. *)
Equations add_string_pad (i : nat) (b : io_buffer) : nat * io_buffer
  by wf ((4 - i mod 4) mod 4)%nat lt :=
  add_string_pad i b with Nat.eq_dec (i mod 4)%nat 0%nat := {
    | left _ => (S i, b) ;
    | right _ => add_string_pad (S i) (iob_put_char b 0) }.
Next Obligation.
  match goal with H : _ <> 0%nat |- _ =>
    change ((i mod 4)%nat <> 0%nat) in H; rename H into Hne end.
  change (((4 - S i mod 4) mod 4 < (4 - i mod 4) mod 4)%nat).
  pose proof (Nat.mod_upper_bound i 4 ltac:(lia)) as Hi.
  assert (H1 : (S i mod 4 = (i mod 4 + 1) mod 4)%nat).
  { replace (S i) with (i + 1)%nat by lia.
    rewrite Nat.Div0.add_mod_idemp_l. reflexivity. }
  rewrite H1.
  destruct (i mod 4)%nat as [|[|[|[|k]]]]; try lia; cbn; lia.
Qed.

(** [oncrpc_iob_add_string] *)
Definition oncrpc_iob_add_string (val : cstring) : IOB Z :=
  fun io_buf =>
    let '(_, io_buf) := oncrpc_iob_add_int (Z.of_nat (strlen val)) io_buf in
    let '(i, io_buf) := add_string_copy val io_buf in
    let '(i, io_buf) := add_string_pad i io_buf in
    (Z.of_nat i - 1 + 4, io_buf).

(** [for ( i = 0; i < size; ++i ) oncrpc_iob_add_int ( io_buf, array[i] );] *)
Fixpoint add_intarray_loop (n : nat) (i : nat) (array : list Z) : IOB unit :=
  match n with
  | O => iob_ret tt
  | S n' =>
      (oncrpc_iob_add_int (nth i array 0) ;;;
       add_intarray_loop n' (S i) array)%iob
  end.

(** [oncrpc_iob_add_intarray] *)
Definition oncrpc_iob_add_intarray (size : nat) (array : list Z) : IOB Z :=
  (oncrpc_iob_add_int (Z.of_nat size) ;;;
   add_intarray_loop size 0%nat array ;;;
   iob_ret ((Z.of_nat size + 1) * 4))%iob.

(* ------------------------------------------------------------------ *)
(** ** Credentials *)

(** Modelled from the spec: the flavor ids and the RPC version are
    constants of [ipxe/oncrpc.h], not among the translated files; the spec
    takes the wire values of RFC 1057 (AUTH_NONE, AUTH_SYS, "RPC version=2"). *)
Definition ONCRPC_AUTH_NONE : Z := 0.
Definition ONCRPC_AUTH_SYS  : Z := 1.
Definition ONCRPC_VERS      : Z := 2.

(** [struct oncrpc_cred] is the head of the [struct oncrpc_cred_sys] that
    [oncrpc_iob_add_cred] reaches through its [( void * ) cred] cast; the
    fields after [cred_length] are read for AUTH_SYS only.  [cred_flavor]
    and [cred_length] are the C fields [flavor] and [length]. *)
Record oncrpc_cred := {
  cred_flavor : Z ;
  cred_length : Z ;
  stamp       : Z ;
  hostname    : cstring ;
  uid         : Z ;
  gid         : Z ;
  aux_gid_len : nat ;
  aux_gid     : list Z
}.

(** [struct oncrpc_cred oncrpc_auth_none] *)
Definition oncrpc_auth_none : oncrpc_cred :=
  {| cred_flavor := ONCRPC_AUTH_NONE ; cred_length := 0 ;
     stamp := 0 ; hostname := [] ; uid := 0 ; gid := 0 ;
     aux_gid_len := 0 ; aux_gid := [] |}.

(** [oncrpc_iob_add_cred]; [None] is the NULL credential. *)
Definition oncrpc_iob_add_cred (cred : option oncrpc_cred) : IOB Z :=
  match cred with
  | None => iob_ret 0
  | Some cred =>
      (s1 <- oncrpc_iob_add_int (cred_flavor cred) ;;
       s2 <- oncrpc_iob_add_int (cred_length cred) ;;
       let s := 0 + s1 + s2 in
       if cred_flavor cred =? ONCRPC_AUTH_NONE then iob_ret s
       else if cred_flavor cred =? ONCRPC_AUTH_SYS then
         s3 <- oncrpc_iob_add_int (stamp cred) ;;
         s4 <- oncrpc_iob_add_string (hostname cred) ;;
         s5 <- oncrpc_iob_add_int (uid cred) ;;
         s6 <- oncrpc_iob_add_int (gid cred) ;;
         s7 <- oncrpc_iob_add_intarray (aux_gid_len cred) (aux_gid cred) ;;
         iob_ret (s + s3 + s4 + s5 + s6 + s7)
       else iob_ret s)%iob
  end.

(* ------------------------------------------------------------------ *)
(** ** The transport behind a session's interface *)

(** What the session sees of its transport: whether the window is open,
    the status each coming [xfer_deliver_iob] will return (0 once the script
    is exhausted), and the buffers offered so far with the status given to
    each, oldest first. *)
Record transport := {
  window  : bool ;
  script  : list Z ;
  offered : list (io_buffer * Z)
}.

Definition xfer_window (t : transport) : bool := window t.

Definition xfer_deliver_iob (t : transport) (iobuf : io_buffer)
  : Z * transport :=
  let rc := hd 0 (script t) in
  (rc, {| window := window t ; script := tl (script t) ;
          offered := offered t ++ [(iobuf, rc)] |}).

(** The frames the transport accepted, in the order it accepted them. *)
Definition transmitted (t : transport) : list io_buffer :=
  map fst (filter (fun o => snd o =? 0) (offered t)).

(* ------------------------------------------------------------------ *)
(** ** ONC RPC sessions *)

Definition ONCRPC_CALL  : Z := 0.
Definition ONCRPC_REPLY : Z := 1.

(** [SET_LAST_FRAME ( x )] is [x |= 1 << 31] on a [uint32_t]. *)
Definition SET_LAST_FRAME (x : Z) : Z := u32 (Z.lor x (Z.shiftl 1 31)).

(** [GET_FRAME_SIZE ( x )] is [x & ~( 1 << 31 )]. *)
Definition GET_FRAME_SIZE (x : Z) : Z := Z.land x (Z.lnot (Z.shiftl 1 31)).

(** A callback is a function pointer, here the name of the function;
    [None] is NULL. *)
Definition oncrpc_callback_t := option nat.

(** [struct oncrpc_pending_reply]; [reply_rpc_id] is its [rpc_id]. *)
Record oncrpc_pending_reply := {
  callback      : oncrpc_callback_t ;
  reply_rpc_id  : Z
}.

(** [struct oncrpc_session]; its [intf] is the [transport] that the
    functions below take and return beside it. *)
Record oncrpc_session := {
  credential    : oncrpc_cred ;
  verifier      : oncrpc_cred ;
  prog_name     : Z ;
  prog_vers     : Z ;
  rpc_id        : Z ;
  pending_call  : list io_buffer ;
  pending_reply : list oncrpc_pending_reply
}.

(** [struct oncrpc_reply]; [reply_xid] and [reply_data] are its [rpc_id]
    and [data]. *)
Record oncrpc_reply := {
  reply_xid    : Z ;
  reply_state  : Z ;
  accept_state : Z ;
  reply_data   : io_buffer
}.

(** [list_add ( new, head )] links [new] right after the head. *)
Definition list_add {A} (new : A) (head : list A) : list A := new :: head.

(** Outcome of the three allocations of [oncrpc_call_iob]. *)
Record allocator := {
  alloc_iob_ok            : bool ;
  malloc_pending_reply_ok : bool ;
  malloc_pending_call_ok  : bool
}.

(** Lines 837-853 of [oncrpc_call_iob]: the call buffer, from the reserved
    record mark to the copied arguments.  The room [alloc_iob] was asked
    for is not modelled: the buffer holds what is put into it. *)
Definition call_frame (session : oncrpc_session) (proc_name : Z)
  (io_buf : io_buffer) : io_buffer :=
  let frame_size := 0 in
  let call_buf := iob_put [] 4 in
  let '(n, call_buf) := oncrpc_iob_add_int (rpc_id session) call_buf in
  let frame_size := u32 (frame_size + n) in
  let '(n, call_buf) := oncrpc_iob_add_int ONCRPC_CALL call_buf in
  let frame_size := u32 (frame_size + n) in
  let '(n, call_buf) := oncrpc_iob_add_int ONCRPC_VERS call_buf in
  let frame_size := u32 (frame_size + n) in
  let '(n, call_buf) := oncrpc_iob_add_int (prog_name session) call_buf in
  let frame_size := u32 (frame_size + n) in
  let '(n, call_buf) := oncrpc_iob_add_int (prog_vers session) call_buf in
  let frame_size := u32 (frame_size + n) in
  let '(n, call_buf) := oncrpc_iob_add_int proc_name call_buf in
  let frame_size := u32 (frame_size + n) in
  let '(n, call_buf) :=
    oncrpc_iob_add_cred (Some (credential session)) call_buf in
  let frame_size := u32 (frame_size + n) in
  let '(n, call_buf) :=
    oncrpc_iob_add_cred (Some (verifier session)) call_buf in
  let frame_size := u32 (frame_size + n) in
  let frame_size := u32 (frame_size + iob_len io_buf) in
  let frame_size := SET_LAST_FRAME frame_size in
  let call_buf := iob_store_head call_buf frame_size in
  call_buf ++ io_buf.

Definition set_rpc_id (s : oncrpc_session) (id : Z) : oncrpc_session :=
  {| credential := credential s ; verifier := verifier s ;
     prog_name := prog_name s ; prog_vers := prog_vers s ;
     rpc_id := id ;
     pending_call := pending_call s ; pending_reply := pending_reply s |}.

Definition set_credential (s : oncrpc_session) (c : oncrpc_cred)
  : oncrpc_session :=
  {| credential := c ; verifier := verifier s ;
     prog_name := prog_name s ; prog_vers := prog_vers s ;
     rpc_id := rpc_id s ;
     pending_call := pending_call s ; pending_reply := pending_reply s |}.

Definition set_pending_call (s : oncrpc_session) (l : list io_buffer)
  : oncrpc_session :=
  {| credential := credential s ; verifier := verifier s ;
     prog_name := prog_name s ; prog_vers := prog_vers s ;
     rpc_id := rpc_id s ;
     pending_call := l ; pending_reply := pending_reply s |}.

Definition set_pending_reply (s : oncrpc_session)
  (l : list oncrpc_pending_reply) : oncrpc_session :=
  {| credential := credential s ; verifier := verifier s ;
     prog_name := prog_name s ; prog_vers := prog_vers s ;
     rpc_id := rpc_id s ;
     pending_call := pending_call s ; pending_reply := l |}.

(** [oncrpc_call_iob]; [None] is the NULL session.  Returns the status, the
    session and the transport. *)
Definition oncrpc_call_iob (heap : allocator) (intf : transport)
  (session : option oncrpc_session) (proc_name : Z) (io_buf : io_buffer)
  (cb : oncrpc_callback_t) : Z * option oncrpc_session * transport :=
  match session with
  | None => (- EINVAL, None, intf)
  | Some session =>
      if negb (alloc_iob_ok heap) then (- ENOBUFS, Some session, intf)
      else if negb (malloc_pending_reply_ok heap)
      then (- ENOBUFS, Some session, intf)
      else
        let call_buf := call_frame session proc_name io_buf in
        (* session->rpc_id++ *)
        let session := set_rpc_id session (u32 (rpc_id session + 1)) in
        let register (rc : Z) (session : oncrpc_session) (intf : transport) :=
          let pending_reply' :=
            {| callback := cb ; reply_rpc_id := rpc_id session |} in
          (rc,
           Some (set_pending_reply session
                   (list_add pending_reply' (pending_reply session))),
           intf) in
        if negb (xfer_window intf) then
          if negb (malloc_pending_call_ok heap)
          then (- ENOBUFS, Some session, intf)
          else
            let session :=
              set_pending_call session
                (list_add call_buf (pending_call session)) in
            register 0 session intf
        else
          let '(rc, intf) := xfer_deliver_iob intf call_buf in
          if rc =? 0 (* if ( ! rc ) *)
          then (rc, Some session, intf)
          else register rc session intf
  end.

(** The [list_for_each_entry_safe] loop of [oncrpc_deliver]: every entry
    with the reply's id is unlinked, and the callback of the last such entry
    is the one kept. *)
Fixpoint deliver_scan (id : Z) (l : list oncrpc_pending_reply)
  (cb : oncrpc_callback_t)
  : oncrpc_callback_t * list oncrpc_pending_reply :=
  match l with
  | [] => (cb, [])
  | p :: l' =>
      if negb (id =? reply_rpc_id p)
      then let '(cb', rest) := deliver_scan id l' cb in (cb', p :: rest)
      else deliver_scan id l' (callback p)
  end.

(** How [oncrpc_deliver] ends: with a status of its own, or by calling the
    callback on the reply and returning what it returns. *)
Inductive deliver_outcome :=
| Return (rc : Z)
| Invoke (cb : nat) (reply : oncrpc_reply).

(** [oncrpc_deliver]; [None] when the buffer is too short for the five
    words read from it. *)
Definition oncrpc_deliver (session : oncrpc_session) (io_buf : io_buffer)
  : option (deliver_outcome * oncrpc_session) :=
  match oncrpc_iob_get_int io_buf with
  | None => None
  | Some (mark, io_buf) =>
  let fragment_size := GET_FRAME_SIZE mark in
  match oncrpc_iob_get_int io_buf with
  | None => None
  | Some (id, io_buf) =>
  match oncrpc_iob_get_int io_buf with
  | None => None
  | Some (direction, io_buf) =>
  if negb (direction =? ONCRPC_REPLY) then Some (Return (- ENOTSUP), session)
  else
  match oncrpc_iob_get_int io_buf with
  | None => None
  | Some (rstate, io_buf) =>
  match oncrpc_iob_get_int io_buf with
  | None => None
  | Some (astate, io_buf) =>
      let reply := {| reply_xid := id ; reply_state := rstate ;
                      accept_state := astate ; reply_data := io_buf |} in
      let '(cb, rest) := deliver_scan id (pending_reply session) None in
      let session := set_pending_reply session rest in
      match cb with
      | None => Some (Return 0, session)
      | Some f => Some (Invoke f reply, session)
      end
  end end end end end.

(** The loop of [oncrpc_window_changed]: each queued buffer is offered in
    list order; an accepted one is unlinked, a refused one is skipped
    ([continue]) and stays. *)
Fixpoint window_drain (intf : transport) (l : list io_buffer)
  : list io_buffer * transport :=
  match l with
  | [] => ([], intf)
  | p :: l' =>
      let '(rc, intf) := xfer_deliver_iob intf p in
      let '(rest, intf) := window_drain intf l' in
      if negb (rc =? 0) then (p :: rest, intf) else (rest, intf)
  end.

(** [oncrpc_window_changed] *)
Definition oncrpc_window_changed (session : oncrpc_session)
  (intf : transport) : oncrpc_session * transport :=
  if negb (xfer_window intf) then (session, intf)
  else
    let '(rest, intf) := window_drain intf (pending_call session) in
    (set_pending_call session rest, intf).

(** [oncrpc_close_session]: both lists are emptied; the status goes to
    [intf_shutdown]. *)
Definition oncrpc_close_session (session : option oncrpc_session) (rc : Z)
  : option (oncrpc_session * Z) :=
  match session with
  | None => None
  | Some session =>
      Some (set_pending_call (set_pending_reply session []) [], rc)
  end.

(* ------------------------------------------------------------------ *)
(** ** [libgen.h]: path splitting *)

(** [basename] and [dirname] belong to the C library the program is linked
    with ([#include <libgen.h>]), like [strlen] and [strdup], and are
    modelled as that library has them: both look for the last ['/'] with
    [strrchr]; [basename] returns the address after it (the path itself
    when there is none); [dirname] returns ["/"] when the last ['/'] is the
    first character, ["."] when there is none, and otherwise stores a NUL
    over that ['/'] and returns the path.  Both work in place on the one
    buffer they are given, which is why the request keeps that buffer and
    two pointers into it. *)

Definition SLASH : byte := 47.
Definition DOT   : byte := 46.

(** A [char *]: an offset into the one heap copy of the URI path that the
    request owns, or a string literal. *)
Inductive char_ptr :=
| InPath (off : nat)
| Literal (s : cstring).

Definition deref (path_buf : list byte) (p : char_ptr) : cstring :=
  match p with
  | InPath off => skipn off path_buf
  | Literal s => s
  end.

(** [strrchr ( s, c )] as an offset from [s], scanning from offset [i] with
    the last match so far in [found]. *)
Fixpoint strrchr_from (s : cstring) (c : byte) (i : nat) (found : option nat)
  : option nat :=
  match s with
  | [] => found
  | x :: s' =>
      if x =? 0 then (if c =? 0 then Some i else found)
      else strrchr_from s' c (S i) (if x =? c then Some i else found)
  end.

Definition strrchr (s : cstring) (c : byte) : option nat :=
  strrchr_from s c 0%nat None.

(** [strdup ( s )]: a fresh copy, terminator included. *)
Definition strdup (s : cstring) : list byte := chars s ++ [0].

(** [basename ( path )], for [path] at offset 0 of [buf]. *)
Definition basename (buf : list byte) : char_ptr :=
  match strrchr buf SLASH with
  | Some k => InPath (S k)
  | None => InPath 0
  end.

(** [dirname ( path )], for [path] at offset 0 of [buf]; returns the buffer
    as it leaves it and the pointer. *)
Definition dirname (buf : list byte) : list byte * char_ptr :=
  match strrchr buf SLASH with
  | Some O => (buf, Literal [SLASH; 0])
  | Some k => (firstn k buf ++ 0 :: skipn (S k) buf, InPath 0)
  | None => (buf, Literal [DOT; 0])
  end.

(* ------------------------------------------------------------------ *)
(** ** The NFS-open driver (state machine) *)

Definition NFS_RSIZE : Z := 1300.

(** [enum nfs_pm_state], [enum nfs_mount_state], [enum nfs_state]: C enums
    are integers, and the driver steps them with [++] and [--]. *)
Definition NFS_PORTMAP_NONE      : Z := 0.
Definition NFS_PORTMAP_MOUNTPORT : Z := 1.
Definition NFS_PORTMAP_NFSPORT   : Z := 2.
Definition MFS_PORTMAP_CLOSED    : Z := 3.

Definition NFS_MOUNT_NONE   : Z := 0.
Definition NFS_MOUNT_MNT    : Z := 1.
Definition NFS_MOUNT_UMNT   : Z := 2.
Definition NFS_MOUNT_CLOSED : Z := 3.

Definition NFS_NONE        : Z := 0.
Definition NFS_LOOKUP      : Z := 1.
Definition NFS_LOOKUP_SENT : Z := 2.
Definition NFS_READ        : Z := 3.
Definition NFS_READ_SENT   : Z := 4.
Definition NFS_CLOSED      : Z := 5.

(** Modelled from the spec: program numbers, versions, the TCP protocol
    number and the portmap port are constants of [ipxe/portmap.h],
    [ipxe/mount.h] and [ipxe/nfs.h], not among the translated files.  The
    spec has "MOUNT v3 (program 100005, version 3)", "NFS v3 (program
    100003, version 3)", "protocol (u32; TCP=6)" and "PORT defaults to 111
    (portmap)". *)
Definition ONCRPC_MOUNT      : Z := 100005.
Definition MOUNT_VERS        : Z := 3.
Definition ONCRPC_NFS        : Z := 100003.
Definition NFS_VERS          : Z := 3.
Definition PORTMAP_PROTO_TCP : Z := 6.
Definition PORTMAP_PORT      : Z := 111.

(** [struct nfs_fh] is opaque to the driver. *)
Definition nfs_fh := list byte.

(** [struct uri], as far as the driver reads it; [None] is a NULL
    member. *)
Record uri := {
  uri_path : option cstring ;
  uri_host : option cstring ;
  uri_port_field : option Z
}.

(** [uri_port ( uri, default_port )] *)
Definition uri_port (u : uri) (default_port : Z) : Z :=
  match uri_port_field u with Some p => p | None => default_port end.

(** The driver state.  The three [struct oncrpc_session] members are only
    handed, by address, to helpers outside the translated files and are
    left to the environment; [path_buf] is the heap copy of the URI path
    that [mountpoint] and [filename] point into. *)
Record nfs_request := {
  pm_state    : Z ;
  mount_state : Z ;
  nfs_state   : Z ;
  auth_sys    : oncrpc_cred ;
  path_buf    : list byte ;
  mountpoint  : char_ptr ;
  filename    : char_ptr ;
  current_fh  : nfs_fh ;
  file_offset : Z ;
  nfs_uri     : uri
}.

Inductive intf_id := xfer | pm_intf | mount_intf | nfs_intf.

(** Calls that leave the driver, in the order it makes them. *)
Inductive call :=
| intf_shutdown (intf : intf_id) (rc : Z)
| xfer_seek (intf : intf_id) (offset : Z) (* the [off_t] that arrives *)
| xfer_deliver_raw (intf : intf_id) (data : list byte) (len : Z)
| xfer_open_named_socket (intf : intf_id) (peer_port : Z) (host : cstring)
    (local_port : Z)
| intf_plug_plug (intf : intf_id)
| portmap_getport (intf : intf_id) (prog vers proto : Z)
| mount_mnt (intf : intf_id) (mountpoint : list byte)
| mount_umnt (intf : intf_id) (mountpoint : list byte)
| nfs_lookup (intf : intf_id) (fh : nfs_fh) (filename : list byte)
| nfs_read (intf : intf_id) (fh : nfs_fh) (offset count : Z).

(** The decoded replies, as far as the driver reads them; [mnt_fh] and
    [lookup_fh] are the [fh] members of their structs. *)
Record portmap_getport_reply := { port : Z }.
Record mount_mnt_reply := { mnt_fh : nfs_fh }.
Record nfs_lookup_reply := { lookup_fh : nfs_fh }.
Record nfs_read_reply := {
  filesize : Z ;
  count    : Z ;
  eof      : Z ;
  data_len : Z ;
  data     : list byte
}.

(** The three [struct oncrpc_session] members of a request. *)
Inductive session_id := pm_session | mount_session | nfs_session.

(** The reply decoders, defined outside the translated files.  The two
    that fill a local of the caller which is read afterwards whatever they
    did ([oncrpc_get_reply] returns nothing the driver looks at;
    [nfs_get_read_reply] may leave fields alone) receive the prior content
    of that local. *)
Record decoders := {
  oncrpc_get_reply :
    session_id -> oncrpc_reply -> io_buffer -> oncrpc_reply ;
  portmap_get_getport_reply : oncrpc_reply -> Z * portmap_getport_reply ;
  mount_get_mnt_reply : oncrpc_reply -> Z * mount_mnt_reply ;
  nfs_get_lookup_reply : oncrpc_reply -> Z * nfs_lookup_reply ;
  nfs_get_read_reply : nfs_read_reply -> oncrpc_reply -> Z * nfs_read_reply
}.

(** What the outside answers during one handler: the window of each
    interface, the status of each call (a handler makes each at most once),
    [rand ()], and the indeterminate content of the handler's locals. *)
Record env := {
  window_of            : intf_id -> bool ;
  rc_portmap_getport   : Z ;
  rc_mount_mnt         : Z ;
  rc_mount_umnt        : Z ;
  rc_nfs_lookup        : Z ;
  rc_nfs_read          : Z ;
  rc_open_named_socket : Z ;
  rc_xfer_deliver_raw  : Z ;
  rand                 : Z ;
  local_reply          : oncrpc_reply ;
  local_read_reply     : nfs_read_reply
}.

Definition set_pm_state (nfs : nfs_request) (v : Z) : nfs_request :=
  {| pm_state := v ; mount_state := mount_state nfs ;
     nfs_state := nfs_state nfs ; auth_sys := auth_sys nfs ;
     path_buf := path_buf nfs ; mountpoint := mountpoint nfs ;
     filename := filename nfs ; current_fh := current_fh nfs ;
     file_offset := file_offset nfs ; nfs_uri := nfs_uri nfs |}.

Definition set_mount_state (nfs : nfs_request) (v : Z) : nfs_request :=
  {| pm_state := pm_state nfs ; mount_state := v ;
     nfs_state := nfs_state nfs ; auth_sys := auth_sys nfs ;
     path_buf := path_buf nfs ; mountpoint := mountpoint nfs ;
     filename := filename nfs ; current_fh := current_fh nfs ;
     file_offset := file_offset nfs ; nfs_uri := nfs_uri nfs |}.

Definition set_nfs_state (nfs : nfs_request) (v : Z) : nfs_request :=
  {| pm_state := pm_state nfs ; mount_state := mount_state nfs ;
     nfs_state := v ; auth_sys := auth_sys nfs ;
     path_buf := path_buf nfs ; mountpoint := mountpoint nfs ;
     filename := filename nfs ; current_fh := current_fh nfs ;
     file_offset := file_offset nfs ; nfs_uri := nfs_uri nfs |}.

Definition set_current_fh (nfs : nfs_request) (fh : nfs_fh) : nfs_request :=
  {| pm_state := pm_state nfs ; mount_state := mount_state nfs ;
     nfs_state := nfs_state nfs ; auth_sys := auth_sys nfs ;
     path_buf := path_buf nfs ; mountpoint := mountpoint nfs ;
     filename := filename nfs ; current_fh := fh ;
     file_offset := file_offset nfs ; nfs_uri := nfs_uri nfs |}.

Definition set_file_offset (nfs : nfs_request) (v : Z) : nfs_request :=
  {| pm_state := pm_state nfs ; mount_state := mount_state nfs ;
     nfs_state := nfs_state nfs ; auth_sys := auth_sys nfs ;
     path_buf := path_buf nfs ; mountpoint := mountpoint nfs ;
     filename := filename nfs ; current_fh := current_fh nfs ;
     file_offset := v ; nfs_uri := nfs_uri nfs |}.

(** The C string a [char *] member designates. *)
Definition string_at (nfs : nfs_request) (p : char_ptr) : list byte :=
  chars (deref (path_buf nfs) p).

(** The status [nfs_done] settles on. *)
Definition nfs_done_status (nfs : nfs_request) (rc : Z) : Z :=
  if (rc =? 0) && negb (nfs_state nfs =? NFS_CLOSED)
  then - ECONNRESET else rc.

(** [nfs_done] *)
Definition nfs_done (nfs : nfs_request) (rc : Z) : list call :=
  let rc := nfs_done_status nfs rc in
  [ intf_shutdown xfer rc ; intf_shutdown pm_intf rc ;
    intf_shutdown mount_intf rc ; intf_shutdown nfs_intf rc ].

(** [nfs_connect]; [port] is a [uint16_t]; [None] is a NULL host name. *)
Definition nfs_connect (e : env) (intf : intf_id) (port : Z)
  (hostname : option cstring) : Z * list call :=
  let port := port mod 2 ^ 16 in
  match hostname with
  | None => (- EINVAL, [])
  | Some hostname =>
      if port =? 0 then (- EINVAL, [])
      else (rc_open_named_socket e,
            [ xfer_open_named_socket intf port hostname
                (1 + Z.rem (rand e) 1023) ])
  end.

(** [nfs_pm_step] *)
Definition nfs_pm_step (e : env) (nfs : nfs_request)
  : nfs_request * list call :=
  if negb (window_of e pm_intf) then (nfs, [])
  else if pm_state nfs =? NFS_PORTMAP_NONE then
    let out := [ portmap_getport pm_intf ONCRPC_MOUNT MOUNT_VERS
                   PORTMAP_PROTO_TCP ] in
    let rc := rc_portmap_getport e in
    if rc =? - EAGAIN then (nfs, out)
    else if negb (rc =? 0) then (nfs, out ++ nfs_done nfs rc)
    else (set_pm_state nfs (pm_state nfs + 1), out)
  else if pm_state nfs =? NFS_PORTMAP_NFSPORT then
    let out := [ portmap_getport pm_intf ONCRPC_NFS NFS_VERS
                   PORTMAP_PROTO_TCP ] in
    let rc := rc_portmap_getport e in
    if rc =? - EAGAIN then (nfs, out)
    else if negb (rc =? 0) then (nfs, out ++ nfs_done nfs rc)
    else (nfs, out)
  else (nfs, []).

(** [nfs_mount_step] *)
Definition nfs_mount_step (e : env) (nfs : nfs_request)
  : nfs_request * list call :=
  if negb (window_of e mount_intf) then (nfs, [])
  else if mount_state nfs =? NFS_MOUNT_NONE then
    let out := [ mount_mnt mount_intf (string_at nfs (mountpoint nfs)) ] in
    let rc := rc_mount_mnt e in
    if rc =? - EAGAIN then (nfs, out)
    else if negb (rc =? 0) then (nfs, out ++ nfs_done nfs rc)
    else (set_mount_state nfs (mount_state nfs + 1), out)
  else if mount_state nfs =? NFS_MOUNT_UMNT then
    let out := [ mount_umnt mount_intf (string_at nfs (mountpoint nfs)) ] in
    let rc := rc_mount_umnt e in
    if negb (rc =? 0) then (nfs, out ++ nfs_done nfs rc)
    else (nfs, out)
  else (nfs, []).

(** [nfs_step] *)
Definition nfs_step (e : env) (nfs : nfs_request)
  : nfs_request * list call :=
  if negb (window_of e nfs_intf) then (nfs, [])
  else if nfs_state nfs =? NFS_LOOKUP then
    let out := [ nfs_lookup nfs_intf (current_fh nfs)
                   (string_at nfs (filename nfs)) ] in
    let rc := rc_nfs_lookup e in
    if rc =? - EAGAIN then (nfs, out)
    else if negb (rc =? 0) then (nfs, out ++ nfs_done nfs rc)
    else (set_nfs_state nfs (nfs_state nfs + 1), out)
  else if nfs_state nfs =? NFS_READ then
    let out := [ nfs_read nfs_intf (current_fh nfs) (file_offset nfs)
                   NFS_RSIZE ] in
    let rc := rc_nfs_read e in
    if rc =? - EAGAIN then (nfs, out)
    else if negb (rc =? 0) then (nfs, out ++ nfs_done nfs rc)
    else (set_nfs_state nfs (nfs_state nfs + 1), out)
  else (nfs, []).

(** [nfs_pm_deliver]; like the two handlers after it, it always returns 0,
    which is left out. *)
Definition nfs_pm_deliver (X : decoders) (e : env) (nfs : nfs_request)
  (io_buf : io_buffer) : nfs_request * list call :=
  let reply := oncrpc_get_reply X pm_session (local_reply e) io_buf in
  if negb (accept_state reply =? 0) then (nfs, nfs_done nfs (- EPROTO))
  else if pm_state nfs =? NFS_PORTMAP_MOUNTPORT then
    let '(rc, getport_reply) := portmap_get_getport_reply X reply in
    if negb (rc =? 0) then (nfs, nfs_done nfs rc)
    else
      let '(rc, out1) :=
        nfs_connect e mount_intf (port getport_reply)
          (uri_host (nfs_uri nfs)) in
      if negb (rc =? 0) then (nfs, out1 ++ nfs_done nfs rc)
      else
        let nfs := set_pm_state nfs (pm_state nfs + 1) in
        let '(nfs, out2) := nfs_pm_step e nfs in
        (nfs, out1 ++ out2)
  else if pm_state nfs =? NFS_PORTMAP_NFSPORT then
    let '(rc, getport_reply) := portmap_get_getport_reply X reply in
    if negb (rc =? 0) then (nfs, nfs_done nfs rc)
    else
      let '(rc, out1) :=
        nfs_connect e nfs_intf (port getport_reply)
          (uri_host (nfs_uri nfs)) in
      if negb (rc =? 0) then (nfs, out1 ++ nfs_done nfs rc)
      else
        (set_pm_state nfs (pm_state nfs + 1),
         out1 ++ [ intf_shutdown pm_intf 0 ])
  else (nfs, nfs_done nfs (- EPROTO)).

(** [nfs_mount_deliver] *)
Definition nfs_mount_deliver (X : decoders) (e : env) (nfs : nfs_request)
  (io_buf : io_buffer) : nfs_request * list call :=
  let reply := oncrpc_get_reply X mount_session (local_reply e) io_buf in
  if negb (accept_state reply =? 0) then (nfs, nfs_done nfs (- EPROTO))
  else if mount_state nfs =? NFS_MOUNT_MNT then
    let '(rc, mnt_reply) := mount_get_mnt_reply X reply in
    if negb (rc =? 0) then (nfs, nfs_done nfs rc)
    else
      let nfs := set_current_fh nfs (mnt_fh mnt_reply) in
      let nfs := set_nfs_state nfs NFS_LOOKUP in
      nfs_step e nfs
  else if mount_state nfs =? NFS_MOUNT_UMNT then
    (nfs, nfs_done nfs 0)
  else (nfs, nfs_done nfs (- EPROTO)).

(** [nfs_deliver] *)
Definition nfs_deliver (X : decoders) (e : env) (nfs : nfs_request)
  (io_buf : io_buffer) : nfs_request * list call :=
  let reply := oncrpc_get_reply X nfs_session (local_reply e) io_buf in
  if negb (accept_state reply =? 0) then (nfs, nfs_done nfs (- EPROTO))
  else if nfs_state nfs =? NFS_LOOKUP_SENT then
    let '(rc, lookup_reply) := nfs_get_lookup_reply X reply in
    if negb (rc =? 0) then (nfs, nfs_done nfs rc)
    else
      let nfs := set_current_fh nfs (lookup_fh lookup_reply) in
      let nfs := set_nfs_state nfs (nfs_state nfs + 1) in
      nfs_step e nfs
  else if nfs_state nfs =? NFS_READ_SENT then
    let '(rc, read_reply) :=
      nfs_get_read_reply X (local_read_reply e) reply in
    if negb (rc =? 0) then (nfs, nfs_done nfs rc)
    else
      let out1 :=
        if file_offset nfs =? 0
        then [ xfer_seek xfer (off_t (filesize read_reply)) ;
               xfer_seek xfer 0 ]
        else [] in
      let nfs :=
        set_file_offset nfs (u64 (file_offset nfs + count read_reply)) in
      let out2 :=
        [ xfer_deliver_raw xfer (data read_reply) (data_len read_reply) ] in
      let rc := rc_xfer_deliver_raw e in
      if negb (rc =? 0) then (nfs, out1 ++ out2 ++ nfs_done nfs rc)
      else if eof read_reply =? 0 then
        let nfs := set_nfs_state nfs (nfs_state nfs - 1) in
        let '(nfs, out3) := nfs_step e nfs in
        (nfs, out1 ++ out2 ++ out3)
      else
        let nfs := set_nfs_state nfs (nfs_state nfs + 1) in
        let nfs := set_mount_state nfs (mount_state nfs + 1) in
        let '(nfs, out3) := nfs_mount_step e nfs in
        (nfs, out1 ++ out2 ++ intf_shutdown nfs_intf 0 :: out3)
  else (nfs, nfs_done nfs (- EPROTO)).

(** What reaches the driver through its four interfaces. *)
Inductive event :=
| window_changed (intf : intf_id)
| deliver (intf : intf_id) (io_buf : io_buffer)
| close (intf : intf_id) (rc : Z).

(** The operation tables [nfs_xfer_operations], [nfs_pm_operations],
    [nfs_mount_operations] and [nfs_operations]. *)
Definition nfs_handle (X : decoders) (e : env) (nfs : nfs_request)
  (ev : event) : nfs_request * list call :=
  match ev with
  | close _ rc => (nfs, nfs_done nfs rc)
  | deliver pm_intf io_buf => nfs_pm_deliver X e nfs io_buf
  | deliver mount_intf io_buf => nfs_mount_deliver X e nfs io_buf
  | deliver nfs_intf io_buf => nfs_deliver X e nfs io_buf
  | deliver xfer _ => (nfs, [])
  | window_changed pm_intf => nfs_pm_step e nfs
  | window_changed mount_intf => nfs_mount_step e nfs
  | window_changed nfs_intf => nfs_step e nfs
  | window_changed xfer => (nfs, [])
  end.

(** A run: events handled one after the other, each with the answers the
    outside gives during it; the calls made are accumulated. *)
Fixpoint nfs_run (X : decoders) (nfs : nfs_request)
  (evs : list (env * event)) : nfs_request * list call :=
  match evs with
  | [] => (nfs, [])
  | (e, ev) :: evs' =>
      let '(nfs, out) := nfs_handle X e nfs ev in
      let '(nfs, out') := nfs_run X nfs evs' in
      (nfs, out ++ out')
  end.

(** Modelled from the spec: [oncrpc_init_cred_sys] is defined outside the
    translated files.  The spec has "a single AUTH_SYS credential ... with
    uid=0, gid=0, no auxiliary gids, stamp=0, and a machine name", carrying
    "a computed body length". *)
Definition oncrpc_init_cred_sys (uid' gid' : Z) (hostname' : cstring)
  : oncrpc_cred :=
  let l := Z.of_nat (strlen hostname') in
  {| cred_flavor := ONCRPC_AUTH_SYS ;
     cred_length := 4 + (4 + l + (4 - l mod 4) mod 4) + 4 + 4 + 4 ;
     stamp := 0 ; hostname := hostname' ; uid := uid' ; gid := gid' ;
     aux_gid_len := 0 ; aux_gid := [] |}.

(** Outcome of the allocations of [nfs_open]. *)
Record open_allocator := {
  zalloc_ok          : bool ;
  strdup_hostname_ok : bool ;
  strdup_path_ok     : bool
}.

(** The bytes of ["iPXE"]. *)
Definition iPXE : cstring := [105; 80; 88; 69; 0].

(** [nfs_open]: the status, the request when one was created and kept, and
    the calls made.  [hostname_setting] is what
    [fetch_string_setting_copy] finds. *)
Definition nfs_open (heap : open_allocator) (e : env)
  (hostname_setting : option cstring) (u : uri)
  : Z * option nfs_request * list call :=
  match uri_path u, uri_host u with
  | Some path, Some host =>
      if negb (zalloc_ok heap) then (- ENOMEM, None, [])
      else
        let hostname' :=
          match hostname_setting with
          | Some h => Some h
          | None => if strdup_hostname_ok heap then Some (strdup iPXE)
                    else None
          end in
        match hostname' with
        | None => (- ENOMEM, None, [])
        | Some hostname' =>
            let cred := oncrpc_init_cred_sys 0 0 hostname' in
            if negb (strdup_path_ok heap) then (- ENOMEM, None, [])
            else
              let buf := strdup path in
              let filename' := basename buf in
              let '(buf, mountpoint') := dirname buf in
              let nfs :=
                {| pm_state := 0 ; mount_state := 0 ; nfs_state := 0 ;
                   auth_sys := cred ; path_buf := buf ;
                   mountpoint := mountpoint' ; filename := filename' ;
                   current_fh := [] ; file_offset := 0 ; nfs_uri := u |} in
              let '(rc, out) :=
                nfs_connect e pm_intf (uri_port u PORTMAP_PORT)
                  (uri_host u) in
              if negb (rc =? 0) then (rc, None, out)
              else (0, Some nfs, out ++ [ intf_plug_plug xfer ])
        end
  | _, _ => (- EINVAL, None, [])
  end.

(* ------------------------------------------------------------------ *)
(** ** The callback-chain driver *)

Module Chain.

(** The callbacks, as the function pointers handed to the call helpers. *)
Inductive cb_name :=
| CB_getport_mount | CB_getport_nfs | CB_mnt | CB_lookup | CB_read
| CB_umnt.

(** This driver spells the constant [PORTMAP_PROT_TCP]. *)
Definition PORTMAP_PROT_TCP : Z := PORTMAP_PROTO_TCP.

(** Calls that leave the driver.  [session_shutdown] is the
    [intf_shutdown] that ends [oncrpc_close_session]. *)
Inductive call :=
| session_shutdown (s : session_id) (rc : Z)
| intf_shutdown (rc : Z)
| xfer_seek (offset : Z)
| xfer_deliver_raw (data : list byte) (len : Z)
| intf_plug_plug
| portmap_init_session (port : Z) (host : cstring)
| mount_init_session (port : Z) (host : option cstring)
| nfs_init_session (port : Z) (host : option cstring)
| portmap_getport (prog vers proto : Z) (cb : cb_name)
| mount_mnt (mountpoint : list byte) (cb : cb_name)
| mount_umnt (mountpoint : list byte) (cb : cb_name)
| nfs_lookup (fh : nfs_fh) (filename : list byte) (cb : cb_name)
| nfs_read (fh : nfs_fh) (offset count : Z) (cb : cb_name).

Record nfs_request := {
  auth_sys    : oncrpc_cred ;
  session     : session_id -> oncrpc_session ;
  path_buf    : list byte ;
  mountpoint  : char_ptr ;
  filename    : char_ptr ;
  file_fh     : nfs_fh ;
  file_offset : Z ;
  nfs_uri     : uri
}.

(** The helpers, defined outside the translated files, that are handed
    the address of one of the request's sessions. *)
Inductive helper :=
| H_portmap_getport | H_mount_init_session | H_nfs_init_session
| H_mount_mnt | H_mount_umnt | H_nfs_lookup | H_nfs_read.

(** What the outside answers during one callback: the status of each
    call (a callback makes each at most once), what each helper leaves
    in the session it is handed ([leaves]: a helper that registers a
    callback links a pending reply there, as [oncrpc_call_iob] does, and
    an init helper stores what it will), and the indeterminate content of
    the callback's local [read_reply]. *)
Record env := {
  rc_portmap_getport    : Z ;
  rc_mount_init_session : Z ;
  rc_nfs_init_session   : Z ;
  rc_mount_mnt          : Z ;
  rc_mount_umnt         : Z ;
  rc_nfs_lookup         : Z ;
  rc_nfs_read           : Z ;
  rc_xfer_deliver_raw   : Z ;
  leaves                : helper -> oncrpc_session -> oncrpc_session ;
  local_read_reply      : nfs_read_reply
}.

Definition string_at (nfs : nfs_request) (p : char_ptr) : list byte :=
  chars (deref (path_buf nfs) p).

Definition set_sessions (nfs : nfs_request)
  (f : session_id -> oncrpc_session) : nfs_request :=
  {| auth_sys := auth_sys nfs ; session := f ;
     path_buf := path_buf nfs ; mountpoint := mountpoint nfs ;
     filename := filename nfs ; file_fh := file_fh nfs ;
     file_offset := file_offset nfs ; nfs_uri := nfs_uri nfs |}.

Definition set_file_fh (nfs : nfs_request) (fh : nfs_fh) : nfs_request :=
  {| auth_sys := auth_sys nfs ; session := session nfs ;
     path_buf := path_buf nfs ; mountpoint := mountpoint nfs ;
     filename := filename nfs ; file_fh := fh ;
     file_offset := file_offset nfs ; nfs_uri := nfs_uri nfs |}.

Definition set_file_offset (nfs : nfs_request) (v : Z) : nfs_request :=
  {| auth_sys := auth_sys nfs ; session := session nfs ;
     path_buf := path_buf nfs ; mountpoint := mountpoint nfs ;
     filename := filename nfs ; file_fh := file_fh nfs ;
     file_offset := v ; nfs_uri := nfs_uri nfs |}.

(** The request once helper [h] has returned from a call that handed it
    the address of session [i]. *)
Definition written (e : env) (h : helper) (i : session_id)
  (nfs : nfs_request) : nfs_request :=
  set_sessions nfs
    (fun j =>
       match i, j with
       | pm_session, pm_session
       | mount_session, mount_session
       | nfs_session, nfs_session => leaves e h (session nfs j)
       | _, _ => session nfs j
       end).

(** The session [oncrpc_close_session] leaves. *)
Definition closed (s : oncrpc_session) : oncrpc_session :=
  match oncrpc_close_session (Some s) 0 with
  | Some (s', _) => s'
  | None => s
  end.

(** [nfs_done] *)
Definition nfs_done (nfs : nfs_request) (rc : Z)
  : nfs_request * list call :=
  (set_sessions nfs (fun i => closed (session nfs i)),
   [ session_shutdown pm_session rc ; session_shutdown nfs_session rc ;
     session_shutdown mount_session rc ; intf_shutdown rc ]).

(** [umnt_cb] *)
Definition umnt_cb (nfs : nfs_request) (reply : oncrpc_reply)
  : Z * nfs_request * list call :=
  let '(nfs, out) := nfs_done nfs 0 in (0, nfs, out).

(** [read_cb] *)
Definition read_cb (X : decoders) (e : env) (nfs : nfs_request)
  (reply : oncrpc_reply) : Z * nfs_request * list call :=
  let err (rc : Z) (nfs : nfs_request) (out : list call) :=
    let '(nfs, out') := nfs_done nfs rc in (rc, nfs, out ++ out') in
  let '(rc, read_reply) :=
    nfs_get_read_reply X (local_read_reply e) reply in
  if negb (rc =? 0) then err rc nfs []
  else
    let out1 :=
      if file_offset nfs =? 0
      then [ xfer_seek (off_t (filesize read_reply)) ; xfer_seek 0 ]
      else [] in
    let nfs :=
      set_file_offset nfs (u64 (file_offset nfs + count read_reply)) in
    let out2 :=
      [ xfer_deliver_raw (data read_reply) (data_len read_reply) ] in
    let rc := rc_xfer_deliver_raw e in
    if negb (rc =? 0) then err rc nfs (out1 ++ out2)
    else if eof read_reply =? 0 then
      let out3 :=
        [ nfs_read (file_fh nfs) (file_offset nfs) NFS_RSIZE CB_read ] in
      let nfs := written e H_nfs_read nfs_session nfs in
      let rc := rc_nfs_read e in
      if negb (rc =? 0) then err rc nfs (out1 ++ out2 ++ out3)
      else (0, nfs, out1 ++ out2 ++ out3)
    else
      let out3 :=
        [ mount_umnt (string_at nfs (mountpoint nfs)) CB_umnt ] in
      let nfs := written e H_mount_umnt mount_session nfs in
      let rc := rc_mount_umnt e in
      if negb (rc =? 0) then err rc nfs (out1 ++ out2 ++ out3)
      else (0, nfs, out1 ++ out2 ++ out3).

(** [lookup_cb] *)
Definition lookup_cb (X : decoders) (e : env) (nfs : nfs_request)
  (reply : oncrpc_reply) : Z * nfs_request * list call :=
  let err (rc : Z) (nfs : nfs_request) (out : list call) :=
    let '(nfs, out') := nfs_done nfs rc in (rc, nfs, out ++ out') in
  let '(rc, lookup_reply) := nfs_get_lookup_reply X reply in
  if negb (rc =? 0) then err rc nfs []
  else
    let nfs := set_file_fh nfs (lookup_fh lookup_reply) in
    let out := [ nfs_read (lookup_fh lookup_reply) 0 NFS_RSIZE CB_read ] in
    let nfs := written e H_nfs_read nfs_session nfs in
    let rc := rc_nfs_read e in
    if negb (rc =? 0) then err rc nfs out
    else (0, nfs, out).

(** [mnt_cb] *)
Definition mnt_cb (X : decoders) (e : env) (nfs : nfs_request)
  (reply : oncrpc_reply) : Z * nfs_request * list call :=
  let err (rc : Z) (nfs : nfs_request) (out : list call) :=
    let '(nfs, out') := nfs_done nfs rc in (rc, nfs, out ++ out') in
  let '(rc, mnt_reply) := mount_get_mnt_reply X reply in
  if negb (rc =? 0) then err rc nfs []
  else
    let out := [ nfs_lookup (mnt_fh mnt_reply)
                   (string_at nfs (filename nfs)) CB_lookup ] in
    let nfs := written e H_nfs_lookup nfs_session nfs in
    let rc := rc_nfs_lookup e in
    if negb (rc =? 0) then err rc nfs out
    else (0, nfs, out).

(** [getport_mount_cb]; the status of [portmap_get_getport_reply] is not
    looked at. *)
Definition getport_mount_cb (X : decoders) (e : env) (nfs : nfs_request)
  (reply : oncrpc_reply) : Z * nfs_request * list call :=
  let err (rc : Z) (nfs : nfs_request) (out : list call) :=
    let '(nfs, out') := nfs_done nfs rc in (rc, nfs, out ++ out') in
  if negb (accept_state reply =? 0) then err (- ENOTSUP) nfs []
  else
    let getport_reply := snd (portmap_get_getport_reply X reply) in
    let out1 :=
      [ mount_init_session (port getport_reply)
          (uri_host (nfs_uri nfs)) ] in
    let nfs := written e H_mount_init_session mount_session nfs in
    let rc := rc_mount_init_session e in
    if negb (rc =? 0) then err rc nfs out1
    else
      let out2 :=
        [ portmap_getport ONCRPC_NFS NFS_VERS PORTMAP_PROT_TCP
            CB_getport_nfs ] in
      let nfs := written e H_portmap_getport pm_session nfs in
      let rc := rc_portmap_getport e in
      if negb (rc =? 0) then err rc nfs (out1 ++ out2)
      else
        let out3 :=
          [ mount_mnt (string_at nfs (mountpoint nfs)) CB_mnt ] in
        let nfs := written e H_mount_mnt mount_session nfs in
        let rc := rc_mount_mnt e in
        if negb (rc =? 0) then err rc nfs (out1 ++ out2 ++ out3)
        else (0, nfs, out1 ++ out2 ++ out3).

(** [getport_nfs_cb] *)
Definition getport_nfs_cb (X : decoders) (e : env) (nfs : nfs_request)
  (reply : oncrpc_reply) : Z * nfs_request * list call :=
  let err (rc : Z) (nfs : nfs_request) (out : list call) :=
    let '(nfs, out') := nfs_done nfs rc in (rc, nfs, out ++ out') in
  if negb (accept_state reply =? 0) then err (- ENOTSUP) nfs []
  else
    let getport_reply := snd (portmap_get_getport_reply X reply) in
    let out :=
      [ nfs_init_session (port getport_reply) (uri_host (nfs_uri nfs)) ] in
    let nfs := written e H_nfs_init_session nfs_session nfs in
    let rc := rc_nfs_init_session e in
    if negb (rc =? 0) then err rc nfs out
    else
      (0,
       set_sessions nfs
         (fun i =>
            match i with
            | nfs_session => set_credential (session nfs i) (auth_sys nfs)
            | _ => session nfs i
            end),
       out).

(** [nfs_open]; the sessions start as [sessions0]: the zeroed
    allocation, then whatever [portmap_init_session] and
    [portmap_getport], both handed the address of the portmap session,
    leave there.  The status of [portmap_getport] is not looked at. *)
Definition nfs_open (heap : open_allocator)
  (sessions0 : session_id -> oncrpc_session)
  (hostname_setting : option cstring) (u : uri)
  : Z * option nfs_request * list call :=
  match uri_path u, uri_host u with
  | Some path, Some host =>
      if negb (zalloc_ok heap) then (- ENOMEM, None, [])
      else
        let hostname' :=
          match hostname_setting with
          | Some h => Some h
          | None => if strdup_hostname_ok heap then Some (strdup iPXE)
                    else None
          end in
        match hostname' with
        | None => (- ENOMEM, None, [])
        | Some hostname' =>
            let cred := oncrpc_init_cred_sys 0 0 hostname' in
            if negb (strdup_path_ok heap) then (- ENOMEM, None, [])
            else
              let buf := strdup path in
              let out1 := [ portmap_init_session (uri_port u 0) host ] in
              let filename' := basename buf in
              let '(buf, mountpoint') := dirname buf in
              let nfs :=
                {| auth_sys := cred ; session := sessions0 ;
                   path_buf := buf ; mountpoint := mountpoint' ;
                   filename := filename' ; file_fh := [] ;
                   file_offset := 0 ; nfs_uri := u |} in
              (0, Some nfs,
               out1 ++ [ portmap_getport ONCRPC_MOUNT MOUNT_VERS
                           PORTMAP_PROT_TCP CB_getport_mount ;
                         intf_plug_plug ])
        end
  | _, _ => (- EINVAL, None, [])
  end.

End Chain.

(* ------------------------------------------------------------------ *)
(** ** The reply decoders, from the wire formats of the spec *)

Module SpecCodec.

(** Modelled from the spec: the error kinds MALFORMED, NOT_FOUND and
    REMOTE, which the spec names without numbering them; the driver only
    tests a decoder's status against zero. *)
Definition MALFORMED : Z := - EINVAL.
Definition NOT_FOUND : Z := - 2.
Definition REMOTE (status : Z) : Z := - EPROTO.

(** Modelled from the spec: "u32 -- 4 bytes, big-endian". *)
Definition get_int := oncrpc_iob_get_int.

(** Modelled from the spec: skipping [n] bytes of a reply, "validat[ing]
    length prefixes against remaining buffer length". *)
Definition pull (n : nat) (b : io_buffer) : option io_buffer :=
  if (n <=? length b)%nat then Some (skipn n b) else None.

(** Modelled from the spec: a u64 is two big-endian words, the high one
    first. *)
Definition get_int64 (b : io_buffer) : option (Z * io_buffer) :=
  match get_int b with
  | None => None
  | Some (hi, b) =>
      match get_int b with
      | None => None
      | Some (lo, b) => Some (Z.lor (Z.shiftl hi 32) lo, b)
      end
  end.

(** Modelled from the spec: a variable-length opaque is "u32 length L,
    then L bytes, then (4 - L mod 4) mod 4 zero bytes"; decoding "fails
    with MALFORMED when a length would overrun". *)
Definition get_opaque (b : io_buffer) : option (list byte * io_buffer) :=
  match get_int b with
  | None => None
  | Some (l, b) =>
      let n := Z.to_nat l in
      let padded := Z.to_nat (l + (4 - l mod 4) mod 4) in
      if (n <=? length b)%nat then Some (firstn n b, skipn padded b)
      else None
  end.

(** Modelled from the spec: the reply header is "xid (u32), direction=1
    (u32), reply_state (u32), then for MSG_ACCEPTED (reply_state=0):
    verifier (flavor u32, length u32, body), accept_state (u32), then
    procedure-specific results", after the record mark. *)
Definition decode_reply (b : io_buffer) : option oncrpc_reply :=
  match get_int b with None => None | Some (mark, b) =>
  match get_int b with None => None | Some (xid, b) =>
  match get_int b with None => None | Some (direction, b) =>
  if negb (direction =? ONCRPC_REPLY) then None else
  match get_int b with None => None | Some (rstate, b) =>
  if negb (rstate =? 0) then None else
  match get_int b with None => None | Some (vflavor, b) =>
  match get_opaque b with None => None | Some (vbody, b) =>
  match get_int b with None => None | Some (astate, b) =>
    Some {| reply_xid := xid ; reply_state := rstate ;
            accept_state := astate ; reply_data := b |}
  end end end end end end end.

(** Modelled from the spec: [oncrpc_get_reply] decodes that header into
    the caller's [reply]; where the header does not decode, nothing is
    stored. *)
Definition oncrpc_get_reply (session : session_id)
  (local : oncrpc_reply) (b : io_buffer) : oncrpc_reply :=
  match decode_reply b with Some r => r | None => local end.

(** Modelled from the spec: "Reply: port (u32); port=0 means not
    registered and is reported as NOT_FOUND". *)
Definition portmap_get_getport_reply (reply : oncrpc_reply)
  : Z * portmap_getport_reply :=
  match get_int (reply_data reply) with
  | None => (MALFORMED, {| port := 0 |})
  | Some (p, _) =>
      if p =? 0 then (NOT_FOUND, {| port := 0 |}) else (0, {| port := p |})
  end.

(** Modelled from the spec: "Reply: status (u32; 0=OK). On OK:
    file_handle (variable opaque <= 64 bytes)". *)
Definition get_status_fh (reply : oncrpc_reply) : Z * nfs_fh :=
  match get_int (reply_data reply) with
  | None => (MALFORMED, [])
  | Some (status, b) =>
      if negb (status =? 0) then (REMOTE status, [])
      else
        match get_opaque b with
        | None => (MALFORMED, [])
        | Some (fh, _) =>
            if (length fh <=? 64)%nat then (0, fh) else (MALFORMED, [])
        end
  end.

(** Modelled from the spec: [mount_get_mnt_reply], the flavor list
    "ignore[d] beyond parsing". *)
Definition mount_get_mnt_reply (reply : oncrpc_reply)
  : Z * mount_mnt_reply :=
  let '(rc, fh) := get_status_fh reply in (rc, {| mnt_fh := fh |}).

(** Modelled from the spec: [nfs_get_lookup_reply], which "extracts
    only file_fh". *)
Definition nfs_get_lookup_reply (reply : oncrpc_reply)
  : Z * nfs_lookup_reply :=
  let '(rc, fh) := get_status_fh reply in (rc, {| lookup_fh := fh |}).

(** Modelled from the spec: "Reply: status (u32). On OK: optional post-op
    attributes (flag + body; extract size from attributes -- a u64 at a
    known offset within the attribute block -- when flag=1), count (u32),
    eof (u32), data (variable opaque)".  The attribute block is the
    84-byte fattr3 of RFC 1813, whose size field is at offset 20.  With
    flag=0 no size is extracted and [filesize] keeps what the caller's
    local held. *)
Definition nfs_get_read_reply (local : nfs_read_reply)
  (reply : oncrpc_reply) : Z * nfs_read_reply :=
  match get_int (reply_data reply) with
  | None => (MALFORMED, local)
  | Some (status, b) =>
  if negb (status =? 0) then (REMOTE status, local) else
  match get_int b with
  | None => (MALFORMED, local)
  | Some (flag, b) =>
  let attrs :=
    if flag =? 1 then
      match pull 20 b with
      | None => None
      | Some b =>
          match get_int64 b with
          | None => None
          | Some (size, b) =>
              match pull 56 b with
              | None => None
              | Some b => Some (size, b)
              end
          end
      end
    else Some (filesize local, b) in
  match attrs with
  | None => (MALFORMED, local)
  | Some (size, b) =>
  match get_int b with
  | None => (MALFORMED, local)
  | Some (count', b) =>
  match get_int b with
  | None => (MALFORMED, local)
  | Some (eof', b) =>
  match get_opaque b with
  | None => (MALFORMED, local)
  | Some (bytes, _) =>
      (0, {| filesize := size ; count := count' ; eof := eof' ;
             data_len := Z.of_nat (length bytes) ; data := bytes |})
  end end end end end end.

(** The five decoders together. *)
Definition spec_decoders : decoders :=
  Build_decoders oncrpc_get_reply portmap_get_getport_reply
    mount_get_mnt_reply nfs_get_lookup_reply nfs_get_read_reply.

End SpecCodec.

(* ------------------------------------------------------------------ *)
(** ** Wire layouts in the words of the spec *)

(** "(4 - L mod 4) mod 4 zero bytes" *)
Definition xdr_pad (L : Z) : Z := (4 - L mod 4) mod 4.

(** "string -- u32 length L, then L bytes, then (4 - L mod 4) mod 4 zero
    bytes" *)
Definition xdr_string (s : list byte) : list byte :=
  let L := Z.of_nat (length s) in
  htonl (u32 L) ++ s ++ repeat 0 (Z.to_nat (xdr_pad L)).

(** "array<u32> -- u32 count, then that many u32s" *)
Definition xdr_intarray (size : nat) (array : list Z) : list byte :=
  htonl (u32 (Z.of_nat size))
  ++ flat_map (fun i => htonl (u32 (nth i array 0))) (seq 0 size).

(** "credential (flavor u32, length u32, body)" *)
Definition xdr_cred (c : oncrpc_cred) : list byte :=
  htonl (u32 (cred_flavor c)) ++ htonl (u32 (cred_length c))
  ++ (if cred_flavor c =? ONCRPC_AUTH_NONE then []
      else if cred_flavor c =? ONCRPC_AUTH_SYS then
        htonl (u32 (stamp c)) ++ xdr_string (chars (hostname c))
        ++ htonl (u32 (uid c)) ++ htonl (u32 (gid c))
        ++ xdr_intarray (aux_gid_len c) (aux_gid c)
      else []).

(** "Call header layout (in order): xid, direction=0, RPC version=2,
    program, program version, procedure, credential, verifier, then
    procedure-specific arguments": the payload P of a call record. *)
Definition call_payload (session : oncrpc_session) (proc_name : Z)
  (args : io_buffer) : list byte :=
  htonl (u32 (rpc_id session)) ++ htonl (u32 ONCRPC_CALL)
  ++ htonl (u32 ONCRPC_VERS) ++ htonl (u32 (prog_name session))
  ++ htonl (u32 (prog_vers session)) ++ htonl (u32 proc_name)
  ++ xdr_cred (credential session) ++ xdr_cred (verifier session)
  ++ args.

(** [m] appends exactly [bytes] and returns their number. *)
Definition appends (m : IOB Z) (bytes : list byte) : Prop :=
  forall b, m b = (Z.of_nat (length bytes), b ++ bytes).

(** The status the transport gives each buffer of a queue offered in list
    order. *)
Fixpoint verdicts (l : list io_buffer) (script : list Z)
  : list (io_buffer * Z) :=
  match l with
  | [] => []
  | p :: l' => (p, hd 0 script) :: verdicts l' (tl script)
  end.

Definition accepted (o : io_buffer * Z) : bool := snd o =? 0.
Definition refused (o : io_buffer * Z) : bool := negb (snd o =? 0).

(** The xid a call frame carries: the word after the record mark. *)
Definition frame_xid (frame : io_buffer) : option Z :=
  match oncrpc_iob_get_int frame with
  | Some (_, rest) =>
      match oncrpc_iob_get_int rest with
      | Some (xid, _) => Some xid
      | None => None
      end
  | None => None
  end.

(** A reply record for [xid]: mark, xid, REPLY, reply_state 0,
    accept_state 0, then [body]. *)
Definition reply_record (xid : Z) (body : list byte) : io_buffer :=
  htonl (SET_LAST_FRAME (16 + iob_len body)) ++ htonl xid
  ++ htonl ONCRPC_REPLY ++ htonl 0 ++ htonl 0 ++ body.

(* ------------------------------------------------------------------ *)
(** ** Sample data *)

Module Sample.

(** A session of the NFS program whose next xid is 7. *)
Definition session7 : oncrpc_session :=
  {| credential := oncrpc_auth_none ; verifier := oncrpc_auth_none ;
     prog_name := ONCRPC_NFS ; prog_vers := NFS_VERS ; rpc_id := 7 ;
     pending_call := [] ; pending_reply := [] |}.

Definition heap_ok : allocator :=
  {| alloc_iob_ok := true ; malloc_pending_reply_ok := true ;
     malloc_pending_call_ok := true |}.

Definition window_closed : transport :=
  {| window := false ; script := [] ; offered := [] |}.

Definition window_open : transport :=
  {| window := true ; script := [] ; offered := [] |}.

(** Two callbacks. *)
Definition cb_A : nat := 1.
Definition cb_B : nat := 2.

(** Call A then call B on [session7] while the window is closed. *)
Definition after_A :=
  oncrpc_call_iob heap_ok window_closed (Some session7) 6 [0; 0; 0; 1]
    (Some cb_A).

Definition after_AB :=
  oncrpc_call_iob heap_ok (snd after_A) (snd (fst after_A)) 6
    [0; 0; 0; 2] (Some cb_B).

Definition frame_A : io_buffer := call_frame session7 6 [0; 0; 0; 1].
Definition frame_B : io_buffer :=
  call_frame (set_rpc_id session7 8) 6 [0; 0; 0; 2].

Definition session_AB : oncrpc_session :=
  match snd (fst after_AB) with Some s => s | None => session7 end.

(** The string ["hi"] followed by other memory. *)
Definition hi : cstring := [104; 105; 0; 33; 33].

End Sample.

(* ------------------------------------------------------------------ *)
(** ** Statements about the driver *)

(** [dir] and [file] are the two parts of the path [p]: [file] is what
    follows the last ['/'] and [dir] what precedes it, the ['/'] itself
    left out (["/"] when nothing precedes it); without any ['/'], [file] is
    the whole path and [dir] is ["."]. *)
Definition path_split (p dir file : list byte) : Prop :=
  (exists d, p = d ++ SLASH :: file /\ ~ In SLASH file
             /\ dir = match d with [] => [SLASH] | _ => d end)
  \/ (~ In SLASH p /\ file = p /\ dir = [DOT]).

(** The strings a call passes are [dir] (MNT, UMNT) and [file] (LOOKUP). *)
Definition names_ok (dir file : list byte) (c : call) : Prop :=
  match c with
  | mount_mnt _ m => m = dir
  | mount_umnt _ m => m = dir
  | nfs_lookup _ _ n => n = file
  | _ => True
  end.

Definition chain_names_ok (dir file : list byte) (c : Chain.call) : Prop :=
  match c with
  | Chain.mount_mnt m _ => m = dir
  | Chain.mount_umnt m _ => m = dir
  | Chain.nfs_lookup _ n _ => n = file
  | _ => True
  end.

(** The request's mount point and file name are [dir] and [file]. *)
Definition names_inv (dir file : list byte) (nfs : nfs_request) : Prop :=
  string_at nfs (mountpoint nfs) = dir
  /\ string_at nfs (filename nfs) = file.

Definition chain_names_inv (dir file : list byte) (nfs : Chain.nfs_request)
  : Prop :=
  Chain.string_at nfs (Chain.mountpoint nfs) = dir
  /\ Chain.string_at nfs (Chain.filename nfs) = file.

(** The event is a close of one of the interfaces with status [rc]. *)
Definition is_close (rc : Z) (ev : event) : Prop :=
  exists intf, ev = close intf rc.

(** The event is a delivery on the mount interface. *)
Definition is_mount_delivery (ev : event) : Prop :=
  exists io_buf, ev = deliver mount_intf io_buf.

(** The call is an UMNT. *)
Definition is_umnt (c : call) : bool :=
  match c with mount_umnt _ _ => true | _ => false end.

Module Scenario.

(** The URI [nfs://10.0.0.1/srv/export/hello.txt]. *)
Definition host : cstring := [49; 48; 46; 48; 46; 48; 46; 49; 0].

Definition path : cstring :=
  [47; 115; 114; 118; 47; 101; 120; 112; 111; 114; 116; 47;
   104; 101; 108; 108; 111; 46; 116; 120; 116; 0].

(** ["/srv/export"], ["/srv/export/"] and ["hello.txt"] *)
Definition srv_export : list byte :=
  [47; 115; 114; 118; 47; 101; 120; 112; 111; 114; 116].
Definition srv_export_slash : list byte := srv_export ++ [47].
Definition hello_txt : list byte :=
  [104; 101; 108; 108; 111; 46; 116; 120; 116].

Definition hello : list byte := [104; 101; 108; 108; 111].

Definition the_uri : uri :=
  {| uri_path := Some path ; uri_host := Some host ;
     uri_port_field := None |}.

Definition heap_ok : open_allocator :=
  {| zalloc_ok := true ; strdup_hostname_ok := true ;
     strdup_path_ok := true |}.

Definition junk_reply : oncrpc_reply :=
  {| reply_xid := 0 ; reply_state := 1 ; accept_state := 1 ;
     reply_data := [] |}.

(** What the local [read_reply] of the handler happens to hold. *)
Definition junk_read_reply : nfs_read_reply :=
  {| filesize := 57005 ; count := 0 ; eof := 0 ; data_len := 0 ;
     data := [] |}.

(** Every window open (or not, for the interfaces listed in [shut]),
    every call accepted. *)
Definition answers (open : intf_id -> bool) : env :=
  {| window_of := open ;
     rc_portmap_getport := 0 ; rc_mount_mnt := 0 ; rc_mount_umnt := 0 ;
     rc_nfs_lookup := 0 ; rc_nfs_read := 0 ; rc_open_named_socket := 0 ;
     rc_xfer_deliver_raw := 0 ; rand := 41 ;
     local_reply := junk_reply ; local_read_reply := junk_read_reply |}.

Definition all_open : env := answers (fun _ => true).

Definition nfs_not_connected : env :=
  answers (fun i => match i with nfs_intf => false | _ => true end).

Definition mount_blocked : env :=
  answers (fun i => match i with mount_intf => false | _ => true end).

(** An accepted reply record: mark, xid, REPLY, MSG_ACCEPTED, an empty
    AUTH_NONE verifier, SUCCESS, then the results. *)
Definition accepted_reply (xid : Z) (results : list byte) : io_buffer :=
  htonl (SET_LAST_FRAME (24 + iob_len results)) ++ htonl xid
  ++ htonl ONCRPC_REPLY ++ htonl 0 ++ htonl 0 ++ htonl 0 ++ htonl 0
  ++ results.

Definition fh (b : byte) : list byte := repeat b 32.

Definition getport_reply (p : Z) : io_buffer := accepted_reply 1 (htonl p).

(** MNT: status 0, the root handle, one flavor. *)
Definition mnt_reply : io_buffer :=
  accepted_reply 2 (htonl 0 ++ xdr_string (fh 1) ++ htonl 1 ++ htonl 1).

(** LOOKUP: status 0, the file handle, no attributes. *)
Definition lookup_reply : io_buffer :=
  accepted_reply 3 (htonl 0 ++ xdr_string (fh 2) ++ htonl 0 ++ htonl 0).

(** The 84 bytes of a fattr3 whose size is [size]. *)
Definition fattr3 (size : Z) : list byte :=
  repeat 0 20 ++ htonl 0 ++ htonl size ++ repeat 0 56.

(** READ: status 0, attributes with size 5, count 5, eof, ["hello"]. *)
Definition read_reply_eof : io_buffer :=
  accepted_reply 4
    (htonl 0 ++ htonl 1 ++ fattr3 5 ++ htonl 5 ++ htonl 1
     ++ xdr_string hello).

(** The same reply without post-op attributes. *)
Definition read_reply_eof_no_attrs : io_buffer :=
  accepted_reply 4
    (htonl 0 ++ htonl 0 ++ htonl 5 ++ htonl 1 ++ xdr_string hello).

(** READ: status 0, attributes with size 5, count 0, not eof, no data. *)
Definition read_reply_empty : io_buffer :=
  accepted_reply 4
    (htonl 0 ++ htonl 1 ++ fattr3 5 ++ htonl 0 ++ htonl 0
     ++ xdr_string []).

Definition umnt_reply : io_buffer := accepted_reply 5 [].

Definition opened :=
  nfs_open heap_ok all_open None the_uri.

Definition nfs0 : nfs_request :=
  match snd (fst opened) with
  | Some nfs => nfs
  | None =>
      {| pm_state := 0 ; mount_state := 0 ; nfs_state := 0 ;
         auth_sys := oncrpc_auth_none ; path_buf := [] ;
         mountpoint := InPath 0 ; filename := InPath 0 ;
         current_fh := [] ; file_offset := 0 ; nfs_uri := the_uri |}
  end.

(** The fetch up to the READ call. *)
Definition until_read : list (env * event) :=
  [ (all_open, window_changed pm_intf) ;
    (all_open, deliver pm_intf (getport_reply 635)) ;
    (all_open, window_changed mount_intf) ;
    (nfs_not_connected, deliver mount_intf mnt_reply) ;
    (all_open, deliver pm_intf (getport_reply 2049)) ;
    (all_open, window_changed nfs_intf) ;
    (all_open, deliver nfs_intf lookup_reply) ].

(** The happy path of the tiny file. *)
Definition happy_path : list (env * event) :=
  until_read
  ++ [ (all_open, deliver nfs_intf read_reply_eof) ;
       (all_open, deliver mount_intf umnt_reply) ].

(** The mount window is closed when the last READ reply arrives, and the
    server then closes the mount connection in order. *)
Definition closed_before_umnt : list (env * event) :=
  until_read
  ++ [ (mount_blocked, deliver nfs_intf read_reply_eof) ;
       (all_open, close mount_intf 0) ].

(** The last READ reply arrives, UMNT goes out, and the server closes
    the mount connection in order before replying to it. *)
Definition closed_before_umnt_reply : list (env * event) :=
  until_read
  ++ [ (all_open, deliver nfs_intf read_reply_eof) ;
       (all_open, close mount_intf 0) ].

(** The request once the READ call is out. *)
Definition reading : nfs_request :=
  fst (nfs_run SpecCodec.spec_decoders nfs0 until_read).

(** The callback-chain request in the same position.  The helpers that
    take a callback leave the session as [oncrpc_call_iob] does when it
    queues a call: the xid counter advanced, a pending reply linked. *)
Definition registering (h : Chain.helper) (s : oncrpc_session)
  : oncrpc_session :=
  match h with
  | Chain.H_mount_init_session | Chain.H_nfs_init_session => s
  | _ =>
      set_pending_reply (set_rpc_id s (u32 (rpc_id s + 1)))
        (list_add {| callback := Some 0%nat ;
                     reply_rpc_id := u32 (rpc_id s + 1) |}
           (pending_reply s))
  end.

Definition chain_env : Chain.env :=
  {| Chain.rc_portmap_getport := 0 ; Chain.rc_mount_init_session := 0 ;
     Chain.rc_nfs_init_session := 0 ; Chain.rc_mount_mnt := 0 ;
     Chain.rc_mount_umnt := 0 ; Chain.rc_nfs_lookup := 0 ;
     Chain.rc_nfs_read := 0 ; Chain.rc_xfer_deliver_raw := 0 ;
     Chain.leaves := registering ;
     Chain.local_read_reply := junk_read_reply |}.

Definition chain_opened :=
  Chain.nfs_open heap_ok (fun _ => Sample.session7) None the_uri.

Definition chain_reading : Chain.nfs_request :=
  match snd (fst chain_opened) with
  | Some nfs => Chain.set_file_fh nfs (fh 2)
  | None =>
      {| Chain.auth_sys := oncrpc_auth_none ;
         Chain.session := fun _ => Sample.session7 ;
         Chain.path_buf := [] ; Chain.mountpoint := InPath 0 ;
         Chain.filename := InPath 0 ; Chain.file_fh := [] ;
         Chain.file_offset := 0 ; Chain.nfs_uri := the_uri |}
  end.

(** READ: status 0, attributes with size 3000, count 1300, not eof, and
    only two bytes of data (["hi"]): the count and the length of the data
    differ. *)
Definition read_reply_short : io_buffer :=
  accepted_reply 4
    (htonl 0 ++ htonl 1 ++ fattr3 3000 ++ htonl 1300 ++ htonl 0
     ++ xdr_string [104; 105]).

End Scenario.

(* ------------------------------------------------------------------ *)
(** ** Session set-up and credential headers *)

(** [oncrpc_init_session]; [None] is the NULL session.  The struct is
    written in place: both list heads are re-initialised, whatever was
    linked to them, and [rpc_id] is not assigned, so it keeps what the
    struct held.  [prog_name] and [prog_vers] are [uint32_t] values. *)
Definition oncrpc_init_session (session : option oncrpc_session)
  (credential' verifier' : oncrpc_cred) (prog_name' prog_vers' : Z)
  : option oncrpc_session :=
  match session with
  | None => None
  | Some session =>
      Some {| credential := credential' ; verifier := verifier' ;
              prog_name := prog_name' ; prog_vers := prog_vers' ;
              rpc_id := rpc_id session ;
              pending_call := [] ; pending_reply := [] |}
  end.

(** [oncrpc_iob_get_cred]: the flavor and the length are read into [cred],
    whose other members are left alone; the body stays in the buffer.
    [None] when the buffer is too short for the two words. *)
Definition oncrpc_iob_get_cred (io_buf : io_buffer) (cred : oncrpc_cred)
  : option (Z * oncrpc_cred * io_buffer) :=
  match oncrpc_iob_get_int io_buf with
  | None => None
  | Some (flavor, io_buf) =>
  match oncrpc_iob_get_int io_buf with
  | None => None
  | Some (len, io_buf) =>
      Some (2 * 4,
            {| cred_flavor := flavor ; cred_length := len ;
               stamp := stamp cred ; hostname := hostname cred ;
               uid := uid cred ; gid := gid cred ;
               aux_gid_len := aux_gid_len cred ; aux_gid := aux_gid cred |},
            io_buf)
  end end.

(* ------------------------------------------------------------------ *)
(** ** Statements about sessions and handlers *)

(** A record of direction REPLY as [oncrpc_deliver] reads it: the mark, the
    xid, the direction, and the two words it stores as [reply_state] and
    [accept_state], then [body].  This is the code's reading of a record,
    not the reply layout of the spec, where the fifth word is the flavor of
    the verifier ([accepted_record] below).  A word is written as the four
    bytes of its value modulo 2^32. *)
Definition reply_frame (mark xid word4 word5 : Z) (body : list byte)
  : io_buffer :=
  htonl (u32 mark) ++ htonl (u32 xid) ++ htonl (u32 ONCRPC_REPLY)
  ++ htonl (u32 word4) ++ htonl (u32 word5) ++ body.

(** The pending replies registered under [id]. *)
Definition keyed (id : Z) (p : oncrpc_pending_reply) : bool :=
  id =? reply_rpc_id p.

(** The session whose replies arrive on an interface of the driver. *)
Definition session_of (intf : intf_id) : option session_id :=
  match intf with
  | xfer => None
  | pm_intf => Some pm_session
  | mount_intf => Some mount_session
  | nfs_intf => Some nfs_session
  end.

(** The driver is in a state in which a reply on [intf] is awaited. *)
Definition awaits (nfs : nfs_request) (intf : intf_id) : bool :=
  match intf with
  | xfer => false
  | pm_intf =>
      (pm_state nfs =? NFS_PORTMAP_MOUNTPORT)
      || (pm_state nfs =? NFS_PORTMAP_NFSPORT)
  | mount_intf =>
      (mount_state nfs =? NFS_MOUNT_MNT) || (mount_state nfs =? NFS_MOUNT_UMNT)
  | nfs_intf =>
      (nfs_state nfs =? NFS_LOOKUP_SENT) || (nfs_state nfs =? NFS_READ_SENT)
  end.

(** The combinations of the three state members met during a fetch. *)
Definition state_ok (nfs : nfs_request) : bool :=
  (0 <=? pm_state nfs) && (pm_state nfs <=? MFS_PORTMAP_CLOSED)
  && (((nfs_state nfs =? NFS_NONE)
       && ((mount_state nfs =? NFS_MOUNT_NONE)
           || (mount_state nfs =? NFS_MOUNT_MNT)))
      || ((NFS_LOOKUP <=? nfs_state nfs) && (nfs_state nfs <=? NFS_READ_SENT)
          && (mount_state nfs =? NFS_MOUNT_MNT))
      || ((nfs_state nfs =? NFS_CLOSED)
          && (mount_state nfs =? NFS_MOUNT_UMNT))).

Definition is_shutdown (c : call) : bool :=
  match c with intf_shutdown _ _ => true | _ => false end.

Definition is_data (c : call) : bool :=
  match c with xfer_deliver_raw _ _ _ => true | _ => false end.



(** No call and no callback is pending on the session. *)
Definition idle (s : oncrpc_session) : Prop :=
  pending_call s = [] /\ pending_reply s = [].


(** The four interfaces of the driver, in the order [nfs_done] shuts them
    down. *)
Definition interfaces : list intf_id := [xfer; pm_intf; mount_intf; nfs_intf].

(** Every window open, every call helper answering [-EAGAIN]. *)
Definition busy : env :=
  {| window_of := fun _ => true ;
     rc_portmap_getport := - EAGAIN ; rc_mount_mnt := - EAGAIN ;
     rc_mount_umnt := - EAGAIN ; rc_nfs_lookup := - EAGAIN ;
     rc_nfs_read := - EAGAIN ; rc_open_named_socket := 0 ;
     rc_xfer_deliver_raw := 0 ; rand := 41 ;
     local_reply := Scenario.junk_reply ;
     local_read_reply := Scenario.junk_read_reply |}.

Definition is_read (c : call) : bool :=
  match c with nfs_read _ _ _ _ => true | _ => false end.

Definition is_lookup (c : call) : bool :=
  match c with nfs_lookup _ _ _ => true | _ => false end.

(** Window changes on the interfaces of the driver, each with the answers
    the outside gives during it, as events of a run. *)
Definition window_changes (ws : list (env * intf_id)) : list (env * event) :=
  map (fun w => (fst w, window_changed (snd w))) ws.

(** Modelled from the spec: the record of an accepted reply, "xid (u32),
    direction=1 (u32), reply_state (u32), then for MSG_ACCEPTED
    (reply_state=0): verifier (flavor u32, length u32, body), accept_state
    (u32), then procedure-specific results", after its record mark. *)
Definition accepted_record (mark xid verf_flavor : Z) (verf_body : list byte)
  (accept_stat : Z) (results : list byte) : io_buffer :=
  htonl (u32 mark) ++ htonl (u32 xid) ++ htonl (u32 ONCRPC_REPLY)
  ++ htonl (u32 0) ++ htonl (u32 verf_flavor)
  ++ htonl (u32 (Z.of_nat (length verf_body))) ++ verf_body
  ++ htonl (u32 accept_stat) ++ results.

(** The reply [oncrpc_deliver] hands to the callback registered under the
    xid of [record], on a session where only that callback is pending. *)
Definition handed_over (record : io_buffer) : option oncrpc_reply :=
  match frame_xid record with
  | None => None
  | Some xid =>
      match oncrpc_deliver
              (set_pending_reply Sample.session7
                 [ {| callback := Some 0%nat ; reply_rpc_id := xid |} ])
              record with
      | Some (Invoke _ reply, _) => Some reply
      | _ => None
      end
  end.


(* ------------------------------------------------------------------ *)
(** * Properties *)

(** ** XDR helpers *)

Section XdrFacts.

Lemma htonl_length (v : Z) : length (htonl v) = 4%nat.
Proof. reflexivity. Qed.

Lemma add_string_copy_chars (val : cstring) (b : io_buffer) :
  add_string_copy val b = (strlen val, b ++ chars val).
Proof.
  revert b; induction val as [|c val IH]; intros b; simpl.
  - unfold iob_ret. now rewrite app_nil_r.
  - destruct (c =? 0).
    + unfold iob_ret. now rewrite app_nil_r.
    + rewrite IH. unfold iob_put_char. now rewrite <- app_assoc.
Qed.

Lemma strlen_terminated (str rest : list byte) :
  Forall (fun c => c <> 0) str ->
  strlen (str ++ 0 :: rest) = length str /\ chars (str ++ 0 :: rest) = str.
Proof.
  induction 1 as [|c str Hc _ [IH1 IH2]]; simpl; [now split|].
  destruct (Z.eqb_spec c 0); [contradiction|].
  now rewrite IH1, IH2.
Qed.

Lemma strlen_chars (s : cstring) : length (chars s) = strlen s.
Proof.
  induction s as [|c s IH]; simpl; [reflexivity|].
  destruct (c =? 0); simpl; congruence.
Qed.

(** Bytes still to write to reach a four-byte boundary from offset [i]. *)
Lemma pad_step (i : nat) :
  (i mod 4 <> 0 ->
   (4 - i mod 4) mod 4 = S ((4 - S i mod 4) mod 4))%nat.
Proof.
  intros Hne.
  pose proof (Nat.mod_upper_bound i 4 ltac:(lia)) as Hi.
  assert (H1 : (S i mod 4 = (i mod 4 + 1) mod 4)%nat).
  { replace (S i) with (i + 1)%nat by lia.
    rewrite Nat.Div0.add_mod_idemp_l. reflexivity. }
  rewrite H1.
  destruct (i mod 4)%nat as [|[|[|[|k]]]]; try lia; reflexivity.
Qed.

Lemma add_string_pad_zeros (i : nat) (b : io_buffer) :
  add_string_pad i b
  = (S (i + (4 - i mod 4) mod 4)%nat,
     b ++ repeat 0 ((4 - i mod 4) mod 4)%nat).
Proof.
  funelim (add_string_pad i b).
  - match goal with E : (_ mod 4)%nat = 0%nat |- _ => rewrite E end.
    simpl. now rewrite Nat.add_0_r, app_nil_r.
  - match goal with
    | IH : add_string_pad (S _) _ = (_, _), Hne : _ <> 0%nat |- _ =>
        rewrite IH, (pad_step _ Hne)
    end. simpl.
    unfold iob_put_char. rewrite <- app_assoc. simpl.
    f_equal. lia.
Qed.

Lemma xdr_pad_nat (n : nat) :
  xdr_pad (Z.of_nat n) = Z.of_nat ((4 - n mod 4) mod 4).
Proof.
  unfold xdr_pad.
  pose proof (Nat.mod_upper_bound n 4 ltac:(lia)).
  rewrite Nat2Z.inj_mod, Nat2Z.inj_sub by lia.
  rewrite Nat2Z.inj_mod. reflexivity.
Qed.

Lemma add_string_appends (val : cstring) :
  appends (oncrpc_iob_add_string val) (xdr_string (chars val)).
Proof.
  intros b. unfold oncrpc_iob_add_string, oncrpc_iob_add_int, xdr_string.
  rewrite add_string_copy_chars, add_string_pad_zeros.
  rewrite strlen_chars, xdr_pad_nat, Nat2Z.id.
  rewrite !length_app, repeat_length, strlen_chars, htonl_length.
  rewrite <- !app_assoc. f_equal. lia.
Qed.

Lemma byte_of_word_bit (v k m : Z) :
  0 <= k ->
  Z.testbit (Z.land (Z.shiftr v k) 255) m
  = (0 <=? m) && (m <? 8) && Z.testbit v (m + k).
Proof.
  intros Hk. change 255 with (Z.ones 8).
  destruct (Z.leb_spec 0 m); simpl.
  - rewrite Z.land_spec, Z.shiftr_spec by lia.
    destruct (Z.ltb_spec m 8).
    + rewrite Z.ones_spec_low by lia. now rewrite andb_true_r.
    + rewrite Z.ones_spec_high by lia. now rewrite andb_false_r.
  - now rewrite Z.testbit_neg_r by lia.
Qed.

Lemma ntohl_htonl (v : Z) :
  0 <= v < 2 ^ 32 ->
  match htonl v with
  | [b0; b1; b2; b3] => ntohl b0 b1 b2 b3 = v
  | _ => False
  end.
Proof.
  intros Hv. unfold htonl, ntohl.
  apply Z.bits_inj'. intros n Hn.
  rewrite !Z.lor_spec, !Z.shiftl_spec by lia.
  rewrite <- (Z.shiftr_0_r v) at 4.
  rewrite !byte_of_word_bit by lia.
  replace (n - 24 + 24) with n by lia.
  replace (n - 16 + 16) with n by lia.
  replace (n - 8 + 8) with n by lia.
  rewrite Z.add_0_r.
  destruct (Z.testbit v n) eqn:Hbit.
  - assert (Hlt : n < 32).
    { destruct (Z.ltb_spec n 32) as [|Hge]; [assumption|].
      rewrite Z.bits_above_log2 in Hbit; [discriminate|lia|].
      destruct (Z.eq_dec v 0) as [->|Hnz]; [simpl; lia|].
      apply Z.lt_le_trans with 32; [|lia].
      apply Z.log2_lt_pow2; lia. }
    clear Hv Hbit. rewrite !andb_true_r. lia.
  - rewrite !andb_false_r. reflexivity.
Qed.

(** The bytes of [htonl ( v )] are bytes, the most significant first. *)
Lemma htonl_big_endian (v : Z) :
  0 <= v < 2 ^ 32 ->
  exists b0 b1 b2 b3,
    htonl v = [b0; b1; b2; b3]
    /\ (0 <= b0 < 256 /\ 0 <= b1 < 256 /\ 0 <= b2 < 256 /\ 0 <= b3 < 256)
    /\ b0 * 2 ^ 24 + b1 * 2 ^ 16 + b2 * 2 ^ 8 + b3 = v.
Proof.
  intros Hv. unfold htonl. do 4 eexists. split; [reflexivity|].
  change 255 with (Z.ones 8).
  rewrite !Z.land_ones, !Z.shiftr_div_pow2 by lia.
  change (2 ^ 8) with 256.
  assert (H16 : v / 2 ^ 16 = v / 256 / 256)
    by (rewrite Z.div_div by lia; reflexivity).
  assert (H24 : v / 2 ^ 24 = v / 256 / 256 / 256)
    by (rewrite !Z.div_div by lia; reflexivity).
  rewrite H16, H24.
  pose proof (Z.div_mod v 256 ltac:(lia)) as E0.
  pose proof (Z.div_mod (v / 256) 256 ltac:(lia)) as E1.
  pose proof (Z.div_mod (v / 256 / 256) 256 ltac:(lia)) as E2.
  pose proof (Z.div_mod (v / 256 / 256 / 256) 256 ltac:(lia)) as E3.
  pose proof (Z.mod_pos_bound v 256 ltac:(lia)) as B0.
  pose proof (Z.mod_pos_bound (v / 256) 256 ltac:(lia)) as B1.
  pose proof (Z.mod_pos_bound (v / 256 / 256) 256 ltac:(lia)) as B2.
  pose proof (Z.mod_pos_bound (v / 256 / 256 / 256) 256 ltac:(lia)) as B3.
  assert (Q3 : 0 <= v / 256 / 256 / 256 < 256).
  { rewrite !Z.div_div by lia. split.
    - apply Z.div_pos; lia.
    - apply Z.div_lt_upper_bound; lia. }
  rewrite (Z.mod_small (v / 256 / 256 / 256) 256) in * by exact Q3.
  change (2 ^ 24) with 16777216. change (2 ^ 16) with 65536.
  repeat split; lia.
Qed.

End XdrFacts.

(** C8.  For a NUL-terminated string of [L] characters,
    [oncrpc_iob_add_string] appends the length as four bytes, the [L]
    characters and zero bytes up to a four-byte boundary, that is
    [4 + L + ((4 - L mod 4) mod 4)] bytes in all, and returns that count.
    The four length bytes are bytes (each between 0 and 255) and spell [L]
    modulo 2^32 in big-endian order, so they are [00 00 00 L] for a string
    shorter than 256, and read back as [L] whenever [L] fits 32 bits. *)
Theorem oncrpc_iob_add_string_layout :
  forall (str rest : list byte) (io_buf : io_buffer),
    Forall (fun c => c <> 0) str ->
    let L := Z.of_nat (length str) in
    let n := 4 + L + (4 - L mod 4) mod 4 in
    exists b0 b1 b2 b3,
      oncrpc_iob_add_string (str ++ 0 :: rest) io_buf
      = (n, io_buf ++ [b0; b1; b2; b3] ++ str
                   ++ repeat 0 (Z.to_nat ((4 - L mod 4) mod 4)))
      /\ (0 <= b0 < 256 /\ 0 <= b1 < 256 /\ 0 <= b2 < 256 /\ 0 <= b3 < 256)
      /\ b0 * 2 ^ 24 + b1 * 2 ^ 16 + b2 * 2 ^ 8 + b3 = L mod 2 ^ 32
      /\ (L < 2 ^ 32 -> ntohl b0 b1 b2 b3 = L)
      /\ iob_len (snd (oncrpc_iob_add_string (str ++ 0 :: rest) io_buf))
         = iob_len io_buf + n.
Proof.
  intros str rest io_buf Hstr L n.
  destruct (strlen_terminated str rest Hstr) as [_ Hchars].
  pose proof (add_string_appends (str ++ 0 :: rest) io_buf) as Happ.
  rewrite Hchars in Happ. unfold xdr_string in Happ. fold L in Happ.
  assert (Hpad : 0 <= (4 - L mod 4) mod 4 < 4)
    by (apply Z.mod_pos_bound; lia).
  assert (Hlen : Z.of_nat (length (htonl (u32 L) ++ str
                     ++ repeat 0 (Z.to_nat (xdr_pad L)))) = n).
  { rewrite !length_app, repeat_length, htonl_length.
    unfold xdr_pad. subst n L. lia. }
  rewrite Hlen in Happ.
  assert (Hu : 0 <= u32 L < 2 ^ 32)
    by (unfold u32; apply Z.mod_pos_bound; lia).
  destruct (htonl_big_endian (u32 L) Hu)
    as (b0 & b1 & b2 & b3 & Hb & Hrange & Hsum).
  exists b0, b1, b2, b3.
  split; [|split; [|split; [|split]]].
  - rewrite Happ, Hb. reflexivity.
  - exact Hrange.
  - exact Hsum.
  - intros HL.
    assert (HuL : u32 L = L)
      by (unfold u32; apply Z.mod_small; subst L; lia).
    pose proof (ntohl_htonl (u32 L) Hu) as Hn. rewrite Hb in Hn.
    rewrite Hn. exact HuL.
  - rewrite Happ. cbn [snd]. unfold iob_len.
    rewrite length_app, Nat2Z.inj_add, Hlen. reflexivity.
Qed.

(** C8, at the string ["hi"]: eight bytes, [00 00 00 02 'h' 'i' 00 00]. *)
Lemma oncrpc_iob_add_string_layout_hi :
  Forall (fun c => c <> 0) [104; 105]
  /\ oncrpc_iob_add_string Sample.hi []
     = (8, [0; 0; 0; 2; 104; 105; 0; 0]).
Proof.
  assert (Hstr : Forall (fun c : Z => c <> 0) [104; 105])
    by (repeat constructor; lia).
  split; [exact Hstr|].
  destruct (oncrpc_iob_add_string_layout [104; 105] [33; 33] [] Hstr)
    as (b0 & b1 & b2 & b3 & Heq & (H0 & H1 & H2 & H3) & Hsum & _).
  change (Z.of_nat (length [104; 105]) mod 2 ^ 32) with 2 in Hsum.
  assert (Hb : b0 = 0 /\ b1 = 0 /\ b2 = 0 /\ b3 = 2) by lia.
  destruct Hb as (-> & -> & -> & ->). exact Heq.
Defined.

(** ** Call frames *)

Section FrameFacts.

Lemma add_int_appends (v : Z) :
  appends (oncrpc_iob_add_int v) (htonl (u32 v)).
Proof. intros b. reflexivity. Qed.

Lemma add_intarray_loop_appends (array : list Z) (n i : nat)
  (b : io_buffer) :
  add_intarray_loop n i array b
  = (tt, b ++ flat_map (fun i => htonl (u32 (nth i array 0))) (seq i n)).
Proof.
  revert i b; induction n as [|n IH]; intros i b;
    cbn [add_intarray_loop seq flat_map].
  - unfold iob_ret. now rewrite app_nil_r.
  - unfold iob_bind, oncrpc_iob_add_int. rewrite IH.
    now rewrite <- app_assoc.
Qed.

Lemma flat_map_words_length (f : nat -> Z) (l : list nat) :
  length (flat_map (fun i => htonl (f i)) l) = (4 * length l)%nat.
Proof.
  induction l as [|x l IH]; [reflexivity|].
  cbn [flat_map length]. rewrite length_app, IH, htonl_length. lia.
Qed.

Lemma add_intarray_appends (size : nat) (array : list Z) :
  appends (oncrpc_iob_add_intarray size array) (xdr_intarray size array).
Proof.
  intros b. unfold oncrpc_iob_add_intarray, iob_bind, oncrpc_iob_add_int.
  rewrite add_intarray_loop_appends. unfold iob_ret, xdr_intarray.
  rewrite length_app, htonl_length.
  rewrite (flat_map_words_length (fun i => u32 (nth i array 0))).
  rewrite length_seq, <- app_assoc. f_equal. lia.
Qed.

Lemma add_cred_appends (c : oncrpc_cred) :
  appends (oncrpc_iob_add_cred (Some c)) (xdr_cred c).
Proof.
  intros b. unfold oncrpc_iob_add_cred, xdr_cred, iob_bind.
  rewrite !add_int_appends.
  destruct (cred_flavor c =? ONCRPC_AUTH_NONE).
  - unfold iob_ret. rewrite app_nil_r, !length_app, !htonl_length.
    rewrite <- app_assoc. reflexivity.
  - destruct (cred_flavor c =? ONCRPC_AUTH_SYS).
    + rewrite add_int_appends, add_string_appends, !add_int_appends,
        add_intarray_appends.
      unfold iob_ret. rewrite !length_app, !htonl_length.
      rewrite <- !app_assoc. f_equal. lia.
    + unfold iob_ret. rewrite app_nil_r, !length_app, !htonl_length.
      rewrite <- app_assoc. reflexivity.
Qed.

Lemma u32_add_l (a b : Z) : u32 (u32 a + b) = u32 (a + b).
Proof. unfold u32. now rewrite Z.add_mod_idemp_l by lia. Qed.

(** The frame is the record mark computed from the accumulated sizes,
    then the payload. *)
Lemma call_frame_payload (session : oncrpc_session) (proc_name : Z)
  (io_buf : io_buffer) :
  call_frame session proc_name io_buf
  = htonl (SET_LAST_FRAME
             (u32 (iob_len (call_payload session proc_name io_buf))))
    ++ call_payload session proc_name io_buf.
Proof.
  unfold call_frame, call_payload.
  rewrite !add_int_appends, !add_cred_appends.
  unfold iob_store_head, iob_put.
  cbn [repeat app skipn]. rewrite <- !app_assoc.
  match goal with
  | |- htonl ?a ++ ?r = htonl ?b ++ ?r => replace a with b; [reflexivity|]
  end.
  apply (f_equal SET_LAST_FRAME). unfold iob_len.
  repeat (rewrite <- ?Z.add_assoc; rewrite u32_add_l).
  apply (f_equal u32). rewrite !length_app, !htonl_length. lia.
Qed.

Lemma set_last_frame_small (n : Z) :
  0 <= n <= 2 ^ 31 - 1 ->
  SET_LAST_FRAME (u32 n) = Z.lor 0x80000000 n.
Proof.
  intros Hn. unfold SET_LAST_FRAME.
  assert (Hu : u32 n = n) by (unfold u32; apply Z.mod_small; lia).
  rewrite Hu. change (Z.shiftl 1 31) with (2 ^ 31).
  change 0x80000000 with (2 ^ 31).
  assert (Hland : Z.land n (2 ^ 31) = 0).
  { apply Z.bits_inj'. intros k Hk.
    rewrite Z.land_spec, Z.bits_0, Z.pow2_bits_eqb by lia.
    destruct (Z.eqb_spec 31 k) as [<-|]; [|now rewrite andb_false_r].
    rewrite andb_true_r.
    destruct (Z.eq_dec n 0) as [->|Hnz]; [apply Z.bits_0|].
    apply Z.bits_above_log2; [lia|]. apply Z.log2_lt_pow2; lia. }
  pose proof (Z.add_lor_land n (2 ^ 31)) as Hadd.
  rewrite Hland in Hadd.
  rewrite (Z.lor_comm (2 ^ 31) n).
  unfold u32. apply Z.mod_small. lia.
Qed.

End FrameFacts.

(** C4.  The record [oncrpc_call_iob] builds for a payload [P] (call
    header, credential, verifier, arguments) of at most [2^31 - 1] bytes is
    the big-endian word [0x80000000 | len(P)] followed by [P]; it is what
    is offered to the transport when the window is open, and what is
    queued for it when the window is closed. *)
Theorem call_record_marking :
  forall (heap : allocator) (intf : transport) (session : oncrpc_session)
         (proc_name : Z) (io_buf : io_buffer) (cb : oncrpc_callback_t),
    alloc_iob_ok heap = true ->
    malloc_pending_reply_ok heap = true ->
    malloc_pending_call_ok heap = true ->
    let P := call_payload session proc_name io_buf in
    iob_len P <= 2 ^ 31 - 1 ->
    let record := htonl (Z.lor 0x80000000 (iob_len P)) ++ P in
    call_frame session proc_name io_buf = record
    /\ (xfer_window intf = true ->
        exists rc session',
          oncrpc_call_iob heap intf (Some session) proc_name io_buf cb
          = (rc, session',
             {| window := window intf ; script := tl (script intf) ;
                offered := offered intf ++ [(record, rc)] |}))
    /\ (xfer_window intf = false ->
        exists session',
          oncrpc_call_iob heap intf (Some session) proc_name io_buf cb
          = (0, Some session', intf)
          /\ pending_call session' = record :: pending_call session).
Proof.
  intros heap intf session proc_name io_buf cb Hb Hr Hc P HP record.
  assert (Hframe : call_frame session proc_name io_buf = record).
  { rewrite call_frame_payload. fold P. subst record.
    rewrite set_last_frame_small; [reflexivity|].
    unfold iob_len in *. lia. }
  split; [exact Hframe|split]; intros Hw.
  - unfold oncrpc_call_iob. rewrite Hb, Hr, Hw. cbn [negb].
    rewrite Hframe. unfold xfer_deliver_iob.
    destruct (hd 0 (script intf) =? 0) eqn:E; eauto.
  - unfold oncrpc_call_iob. rewrite Hb, Hr, Hc, Hw. cbn [negb].
    rewrite Hframe. eexists. split; [reflexivity|]. reflexivity.
Qed.

(** C4, at call A of the samples: a 44-byte payload under the mark
    [80 00 00 2c]. *)
Lemma call_record_marking_sample :
  call_frame Sample.session7 6 [0; 0; 0; 1]
  = htonl (Z.lor 0x80000000 44)
    ++ call_payload Sample.session7 6 [0; 0; 0; 1]
  /\ hd [] (map fst (offered (snd
        (oncrpc_call_iob Sample.heap_ok Sample.window_open
           (Some Sample.session7) 6 [0; 0; 0; 1] (Some Sample.cb_A)))))
     = [128; 0; 0; 44] ++ call_payload Sample.session7 6 [0; 0; 0; 1].
Proof.
  pose proof (call_record_marking Sample.heap_ok Sample.window_open
                Sample.session7 6 [0; 0; 0; 1] (Some Sample.cb_A)
                eq_refl eq_refl eq_refl) as H.
  cbv zeta in H.
  specialize (H ltac:(vm_compute; discriminate)).
  destruct H as [Hframe [Hopen _]].
  split.
  - exact Hframe.
  - destruct (Hopen eq_refl) as [rc [s' Heq]]. rewrite Heq. reflexivity.
Defined.

(** ** The pending-call queue *)

Section QueueFacts.

Lemma window_drain_verdicts (l : list io_buffer) (intf : transport) :
  window_drain intf l
  = (map fst (filter refused (verdicts l (script intf))),
     {| window := window intf ;
        script := skipn (length l) (script intf) ;
        offered := offered intf ++ verdicts l (script intf) |}).
Proof.
  revert intf; induction l as [|p l IH]; intros intf.
  - simpl. rewrite app_nil_r. now destruct intf.
  - cbn [window_drain]. unfold xfer_deliver_iob. rewrite IH.
    cbn [window script offered verdicts filter length].
    change (refused (p, hd 0 (script intf)))
      with (negb (hd 0 (script intf) =? 0)).
    rewrite <- app_assoc. cbn [app].
    replace (skipn (length l) (tl (script intf)))
      with (skipn (S (length l)) (script intf))
      by (destruct (script intf); [now rewrite !skipn_nil|reflexivity]).
    destruct (hd 0 (script intf) =? 0); reflexivity.
Qed.

Lemma verdicts_buffers (l : list io_buffer) (script : list Z) :
  map fst (verdicts l script) = l.
Proof.
  revert script; induction l as [|p l IH]; intros script; simpl;
    [reflexivity|now rewrite IH].
Qed.

Lemma filter_accepted_app (a b : list (io_buffer * Z)) :
  map fst (filter (fun o => snd o =? 0) (a ++ b))
  = map fst (filter (fun o => snd o =? 0) a)
    ++ map fst (filter accepted b).
Proof. now rewrite filter_app, map_app. Qed.

End QueueFacts.

(** C3, as the code has it.  With the window open,
    [oncrpc_window_changed] offers every queued call once, in list order
    from the head, where [oncrpc_call_iob] links each call it queues; the
    calls the transport accepts are transmitted and unlinked, the calls it
    refuses stay queued in their order, and a refusal does not end the
    pass. *)
Theorem window_changed_offers_whole_queue :
  forall (session : oncrpc_session) (intf : transport),
    xfer_window intf = true ->
    let v := verdicts (pending_call session) (script intf) in
    map fst v = pending_call session
    /\ oncrpc_window_changed session intf
       = (set_pending_call session (map fst (filter refused v)),
          {| window := true ;
             script := skipn (length (pending_call session)) (script intf) ;
             offered := offered intf ++ v |})
    /\ transmitted (snd (oncrpc_window_changed session intf))
       = transmitted intf ++ map fst (filter accepted v)
    /\ forall heap closed_intf proc_name io_buf cb rc session' intf',
         xfer_window closed_intf = false ->
         oncrpc_call_iob heap closed_intf (Some session) proc_name io_buf cb
         = (rc, Some session', intf') ->
         rc = 0 ->
         pending_call session'
         = call_frame session proc_name io_buf :: pending_call session.
Proof.
  intros session intf Hw v.
  split; [apply verdicts_buffers|].
  assert (Heq : oncrpc_window_changed session intf
       = (set_pending_call session (map fst (filter refused v)),
          {| window := true ;
             script := skipn (length (pending_call session)) (script intf) ;
             offered := offered intf ++ v |})).
  { unfold oncrpc_window_changed. rewrite Hw. cbn [negb].
    rewrite window_drain_verdicts. unfold xfer_window in Hw.
    rewrite Hw. reflexivity. }
  split; [exact Heq|split].
  - rewrite Heq. cbn [snd]. unfold transmitted. cbn [offered].
    apply filter_accepted_app.
  - intros heap closed_intf proc_name io_buf cb rc session' intf' Hcl Hcall
      Hrc.
    unfold oncrpc_call_iob in Hcall. rewrite Hcl in Hcall.
    cbn [negb] in Hcall.
    destruct (alloc_iob_ok heap); cbn [negb] in Hcall;
      [|inversion Hcall; subst; discriminate].
    destruct (malloc_pending_reply_ok heap); cbn [negb] in Hcall;
      [|inversion Hcall; subst; discriminate].
    destruct (malloc_pending_call_ok heap); cbn [negb] in Hcall;
      [|inversion Hcall; subst; discriminate].
    inversion Hcall; subst. reflexivity.
Qed.

(** C3, at the samples: calls A then B queued, then the window opens on
    a transport that refuses the first buffer offered. *)
Lemma window_changed_offers_whole_queue_sample :
  xfer_window
    {| window := true ; script := [- EAGAIN; 0] ; offered := [] |} = true
  /\ transmitted (snd (oncrpc_window_changed Sample.session_AB
        {| window := true ; script := [- EAGAIN; 0] ; offered := [] |}))
     = [Sample.frame_A].
Proof.
  split; [reflexivity|].
  pose proof (window_changed_offers_whole_queue Sample.session_AB
                {| window := true ; script := [- EAGAIN; 0] ;
                   offered := [] |} eq_refl) as H.
  cbv zeta in H. destruct H as [_ [_ [Ht _]]].
  rewrite Ht. reflexivity.
Defined.

(** C3 as stated fails: calls A (xid 7) then B (xid 8) were queued in that
    order, yet an accepting transport is given B's frame first; and when
    the transport refuses the first frame offered, the pass still goes on
    to transmit the other one. *)
Lemma window_changed_not_fifo :
  frame_xid Sample.frame_A = Some 7
  /\ frame_xid Sample.frame_B = Some 8
  /\ pending_call Sample.session_AB = [Sample.frame_B; Sample.frame_A]
  /\ transmitted (snd (oncrpc_window_changed Sample.session_AB
                         Sample.window_open))
     = [Sample.frame_B; Sample.frame_A]
  /\ transmitted (snd (oncrpc_window_changed Sample.session_AB
                         Sample.window_open))
     <> [Sample.frame_A; Sample.frame_B]
  /\ offered (snd (oncrpc_window_changed Sample.session_AB
        {| window := true ; script := [- EAGAIN; 0] ; offered := [] |}))
     = [(Sample.frame_B, - EAGAIN); (Sample.frame_A, 0)].
Proof.
  repeat split; try reflexivity.
  vm_compute. discriminate.
Qed.

(** ** Correlation of replies *)

(** C1, evaluated.  Calls A and B carry xids 7 and 8 but are registered
    under 8 and 9: the reply to B (xid 8) invokes A's callback, the reply
    to A (xid 7) matches nothing and is dropped, and B's callback stays
    registered, never invoked. *)
Lemma correlation_off_by_one :
  fst (fst Sample.after_A) = 0 /\ fst (fst Sample.after_AB) = 0
  /\ frame_xid Sample.frame_A = Some 7
  /\ frame_xid Sample.frame_B = Some 8
  /\ pending_call Sample.session_AB = [Sample.frame_B; Sample.frame_A]
  /\ pending_reply Sample.session_AB
     = [ {| callback := Some Sample.cb_B ; reply_rpc_id := 9 |} ;
         {| callback := Some Sample.cb_A ; reply_rpc_id := 8 |} ]
  /\ exists s1,
       oncrpc_deliver Sample.session_AB (reply_record 8 [])
       = Some (Invoke Sample.cb_A
                 {| reply_xid := 8 ; reply_state := 0 ; accept_state := 0 ;
                    reply_data := [] |}, s1)
       /\ oncrpc_deliver s1 (reply_record 7 []) = Some (Return 0, s1)
       /\ pending_reply s1
          = [ {| callback := Some Sample.cb_B ; reply_rpc_id := 9 |} ].
Proof.
  repeat split; try reflexivity.
  eexists. repeat split; reflexivity.
Qed.

(** C2, evaluated.  A call that the open transport accepts returns 0 and
    leaves no pending-reply entry at all; a call queued behind a closed
    window returns 0 with one entry, keyed by 8 while its frame carries
    xid 7. *)
Lemma accepted_call_not_registered :
  (exists s intf,
     oncrpc_call_iob Sample.heap_ok Sample.window_open
       (Some Sample.session7) 6 [0; 0; 0; 1] (Some Sample.cb_A)
     = (0, Some s, intf)
     /\ transmitted intf = [Sample.frame_A]
     /\ frame_xid Sample.frame_A = Some 7
     /\ pending_reply s = [])
  /\ (exists s intf,
        Sample.after_A = (0, Some s, intf)
        /\ pending_call s = [Sample.frame_A]
        /\ pending_reply s
           = [ {| callback := Some Sample.cb_A ; reply_rpc_id := 8 |} ]).
Proof.
  split; do 2 eexists; repeat split; reflexivity.
Qed.

(** ** The two defects of [oncrpc_call_iob], for every session *)

Section CallFacts.

Lemma get_int_htonl (v : Z) (rest : io_buffer) :
0 <= v < 2 ^ 32 ->
oncrpc_iob_get_int (htonl v ++ rest) = Some (v, rest).
Proof.
intros Hv. pose proof (ntohl_htonl v Hv) as H.
unfold htonl in *. cbn [app oncrpc_iob_get_int]. now rewrite H.
Qed.

Lemma u32_range (x : Z) : 0 <= u32 x < 2 ^ 32.
Proof. unfold u32. apply Z.mod_pos_bound. lia. Qed.

(** The xid in a call frame is the session's [rpc_id] before the call. *)
Lemma call_frame_xid (session : oncrpc_session) (proc_name : Z)
(io_buf : io_buffer) :
frame_xid (call_frame session proc_name io_buf)
= Some (u32 (rpc_id session)).
Proof.
rewrite call_frame_payload. unfold frame_xid, call_payload.
unfold htonl at 1. cbn [app oncrpc_iob_get_int].
now rewrite get_int_htonl by apply u32_range.
Qed.

(** Queued behind a closed window, a call is registered under the id that
  follows the one in its frame. *)
Lemma queued_call_key (heap : allocator) (intf : transport)
(session : oncrpc_session) (proc_name : Z) (io_buf : io_buffer)
(cb : oncrpc_callback_t) :
alloc_iob_ok heap = true ->
malloc_pending_reply_ok heap = true ->
malloc_pending_call_ok heap = true ->
xfer_window intf = false ->
exists session',
  oncrpc_call_iob heap intf (Some session) proc_name io_buf cb
  = (0, Some session', intf)
  /\ pending_reply session'
     = {| callback := cb ; reply_rpc_id := u32 (rpc_id session + 1) |}
       :: pending_reply session
  /\ frame_xid (call_frame session proc_name io_buf)
     = Some (u32 (rpc_id session)).
Proof.
intros Hb Hr Hc Hw. unfold oncrpc_call_iob.
rewrite Hb, Hr, Hc, Hw. cbn [negb].
eexists. split; [reflexivity|]. split; [reflexivity|].
apply call_frame_xid.
Qed.

(** Accepted at once by an open transport, a call is not registered. *)
Lemma accepted_call_key (heap : allocator) (intf : transport)
(session : oncrpc_session) (proc_name : Z) (io_buf : io_buffer)
(cb : oncrpc_callback_t) :
alloc_iob_ok heap = true ->
malloc_pending_reply_ok heap = true ->
xfer_window intf = true ->
hd 0 (script intf) = 0 ->
exists session' intf',
  oncrpc_call_iob heap intf (Some session) proc_name io_buf cb
  = (0, Some session', intf')
  /\ pending_reply session' = pending_reply session
  /\ transmitted intf'
     = transmitted intf ++ [call_frame session proc_name io_buf].
Proof.
intros Hb Hr Hw Hs. unfold oncrpc_call_iob, xfer_deliver_iob.
rewrite Hb, Hr, Hw, Hs. cbn [negb Z.eqb].
do 2 eexists. split; [reflexivity|]. split; [reflexivity|].
unfold transmitted. cbn [offered].
rewrite filter_app, map_app. reflexivity.
Qed.

End CallFacts.

(** ** Path splitting *)

Section PathFacts.

Lemma chars_nonzero (s : cstring) : Forall (fun c => c <> 0) (chars s).
Proof.
  induction s as [|c s IH]; simpl; [constructor|].
  destruct (Z.eqb_spec c 0); [constructor|].
  constructor; assumption.
Qed.

Lemma chars_terminated (str rest : list byte) :
  Forall (fun c => c <> 0) str -> chars (str ++ 0 :: rest) = str.
Proof. intros H. apply (strlen_terminated str rest H). Qed.

Lemma strrchr_from_absent (f rest : list byte) (i : nat)
  (found : option nat) :
  Forall (fun c => c <> 0) f -> ~ In SLASH f ->
  strrchr_from (f ++ 0 :: rest) SLASH i found = found.
Proof.
  intros Hz; revert i found.
  induction Hz as [|c f Hc _ IH]; intros i found Hs; simpl.
  - reflexivity.
  - destruct (Z.eqb_spec c 0); [contradiction|].
    destruct (Z.eqb_spec c SLASH) as [->|_].
    + exfalso. apply Hs. now left.
    + apply IH. intros Hin. apply Hs. now right.
Qed.

Lemma strrchr_from_last (d f rest : list byte) (i : nat)
  (found : option nat) :
  Forall (fun c => c <> 0) d -> Forall (fun c => c <> 0) f ->
  ~ In SLASH f ->
  strrchr_from (d ++ SLASH :: f ++ 0 :: rest) SLASH i found
  = Some (i + length d)%nat.
Proof.
  intros Hd Hf Hs; revert i found.
  induction Hd as [|c d Hc _ IH]; intros i found.
  - cbn [app strrchr_from]. change (SLASH =? 0) with false.
    change (SLASH =? SLASH) with true. cbn iota.
    rewrite strrchr_from_absent by assumption.
    simpl. f_equal. lia.
  - cbn [app strrchr_from].
    destruct (Z.eqb_spec c 0); [contradiction|].
    rewrite IH. simpl. f_equal. lia.
Qed.

Lemma Forall_app_nonzero (d f : list byte) :
  Forall (fun c => c <> 0) (d ++ SLASH :: f) ->
  Forall (fun c => c <> 0) d /\ Forall (fun c => c <> 0) f.
Proof.
  intros H. apply Forall_app in H as [Hd Hf].
  inversion Hf; subst. now split.
Qed.

Lemma skipn_past (d r : list byte) (x : byte) :
  skipn (S (length d)) (d ++ x :: r) = r.
Proof. induction d as [|c d IH]; [reflexivity|exact IH]. Qed.

Lemma firstn_upto (d r : list byte) : firstn (length d) (d ++ r) = d.
Proof.
  induction d as [|c d IH]; [reflexivity|].
  cbn [length app firstn]. now rewrite IH.
Qed.

(** What [basename] and [dirname] leave for a path with a ['/']. *)
Lemma split_with_slash (d f : list byte) :
  Forall (fun c => c <> 0) d -> Forall (fun c => c <> 0) f ->
  ~ In SLASH f ->
  let buf := (d ++ SLASH :: f) ++ [0] in
  chars (deref (fst (dirname buf)) (basename buf)) = f
  /\ chars (deref (fst (dirname buf)) (snd (dirname buf)))
     = match d with [] => [SLASH] | _ => d end.
Proof.
  intros Hd Hf Hs buf.
  assert (Hk : strrchr buf SLASH = Some (length d)).
  { unfold strrchr, buf. rewrite <- app_assoc. cbn [app].
    change [0] with (0 :: @nil byte).
    now rewrite strrchr_from_last. }
  unfold basename, dirname. rewrite Hk.
  assert (Hskip : skipn (S (length d)) buf = f ++ [0]).
  { unfold buf. rewrite <- app_assoc. cbn [app]. apply skipn_past. }
  destruct d as [|c d'].
  - cbn [length fst snd deref]. split.
    + change (skipn 1 buf) with (f ++ [0]).
      now apply chars_terminated.
    + reflexivity.
  - set (d := c :: d') in *.
    change (match length d with
            | O => (buf, Literal [SLASH; 0])
            | S _ => (firstn (length d) buf
                        ++ 0 :: skipn (S (length d)) buf, InPath 0)
            end)
      with (firstn (length d) buf ++ 0 :: skipn (S (length d)) buf,
            InPath 0).
    cbn [fst snd deref].
    assert (Hfirst : firstn (length d) buf = d).
    { unfold buf. rewrite <- app_assoc. apply firstn_upto. }
    rewrite Hfirst, Hskip. split.
    + rewrite skipn_past. now apply chars_terminated.
    + cbn [skipn]. now apply chars_terminated.
Qed.

(** What they leave for a path without one. *)
Lemma split_without_slash (p : list byte) :
  Forall (fun c => c <> 0) p -> ~ In SLASH p ->
  let buf := p ++ [0] in
  chars (deref (fst (dirname buf)) (basename buf)) = p
  /\ chars (deref (fst (dirname buf)) (snd (dirname buf))) = [DOT].
Proof.
  intros Hp Hs buf.
  assert (Hk : strrchr buf SLASH = None).
  { unfold strrchr, buf. now apply strrchr_from_absent. }
  unfold basename, dirname. rewrite Hk. cbn [fst snd deref skipn].
  split; [now apply chars_terminated|reflexivity].
Qed.

Lemma split_strdup (path : cstring) (dir file : list byte) :
  path_split (chars path) dir file ->
  let buf := strdup path in
  chars (deref (fst (dirname buf)) (basename buf)) = file
  /\ chars (deref (fst (dirname buf)) (snd (dirname buf))) = dir.
Proof.
  intros [[d [Hp [Hs Hdir]]]|[Hs [Hfile Hdir]]] buf; subst buf dir;
    unfold strdup; pose proof (chars_nonzero path) as Hnz.
  - rewrite Hp in *. apply Forall_app_nonzero in Hnz as [Hd Hf].
    now apply split_with_slash.
  - subst file. now apply split_without_slash.
Qed.

(** Every path splits. *)
Lemma path_split_total (p : list byte) :
  exists dir file, path_split p dir file.
Proof.
  induction p as [|c p [dir [file IH]]].
  - exists [DOT], []. right. repeat split. intros [].
  - destruct IH as [[d [Hp [Hs Hdir]]]|[Hs [Hfile Hdir]]].
    + exists (c :: d), file. left. exists (c :: d).
      rewrite Hp. repeat split; assumption.
    + destruct (Z.eq_dec c SLASH) as [->|Hc].
      * exists [SLASH], p. left. exists []. repeat split. assumption.
      * exists [DOT], (c :: p). right. repeat split.
        intros [Heq|Hin]; [now apply Hc|now apply Hs].
Qed.

End PathFacts.

(** ** The driver: completion status *)

Ltac break_goal :=
  match goal with
  | |- context [match ?x with _ => _ end] => destruct x eqn:?
  end.

Ltac break_in H :=
  match type of H with
  | context [match ?x with _ => _ end] => destruct x eqn:?
  end.

Section DoneFacts.

Lemma nfs_done_status_zero (nfs : nfs_request) (rc : Z) :
  nfs_done_status nfs rc = 0 -> rc = 0 /\ nfs_state nfs = NFS_CLOSED.
Proof.
  unfold nfs_done_status.
  destruct (Z.eqb_spec rc 0) as [->|Hrc];
    destruct (Z.eqb_spec (nfs_state nfs) NFS_CLOSED) as [Hs|Hs];
    cbn [andb negb]; intros H; try (split; [reflexivity|assumption]);
    try discriminate H; contradiction.
Qed.

Lemma nfs_done_status_nonzero (nfs : nfs_request) (rc : Z) :
  rc <> 0 -> nfs_done_status nfs rc = rc.
Proof.
  intros Hrc. unfold nfs_done_status.
  destruct (Z.eqb_spec rc 0); [contradiction|reflexivity].
Qed.

Lemma nfs_done_status_reset (nfs : nfs_request) :
  nfs_state nfs <> NFS_CLOSED -> nfs_done_status nfs 0 = - ECONNRESET.
Proof.
  intros Hs. unfold nfs_done_status.
  destruct (Z.eqb_spec (nfs_state nfs) NFS_CLOSED); [contradiction|].
  reflexivity.
Qed.

Lemma nfs_done_reports (nfs : nfs_request) (rc s : Z) :
  In (intf_shutdown xfer s) (nfs_done nfs rc) ->
  s = nfs_done_status nfs rc.
Proof.
  unfold nfs_done. cbn [In].
  intros [H|[H|[H|[H|[]]]]]; inversion H; reflexivity.
Qed.

Lemma nfs_done_quiet (nfs : nfs_request) (rc : Z) :
  rc <> 0 -> ~ In (intf_shutdown xfer 0) (nfs_done nfs rc).
Proof.
  intros Hrc Hin. apply nfs_done_reports in Hin.
  symmetry in Hin. apply nfs_done_status_zero in Hin as [H _].
  contradiction.
Qed.

Lemma eqb_false_neq (a b : Z) : (a =? b) = false -> a <> b.
Proof. apply Z.eqb_neq. Qed.

Lemma nfs_connect_quiet (e : env) (i : intf_id) (p : Z)
  (h : option cstring) (c : call) :
  In c (snd (nfs_connect e i p h)) ->
  exists port host local, c = xfer_open_named_socket i port host local.
Proof.
  unfold nfs_connect. destruct h; [|intros []].
  destruct (p mod 2 ^ 16 =? 0); [intros []|].
  cbn [snd In]. intros [<-|[]]. eauto.
Qed.

(** The three step functions never report success downstream. *)
Lemma nfs_pm_step_quiet (e : env) (nfs : nfs_request) :
  ~ In (intf_shutdown xfer 0) (snd (nfs_pm_step e nfs)).
Proof.
  unfold nfs_pm_step. repeat break_goal; cbn [snd]; intros Hin;
    repeat (apply in_app_or in Hin as [Hin|Hin]);
    try (cbn [In] in Hin; intuition discriminate);
    match goal with
    | H : negb (?rc =? 0) = true |- _ =>
        apply negb_true_iff, eqb_false_neq in H;
        exact (nfs_done_quiet _ _ H Hin)
    end.
Qed.

Lemma nfs_mount_step_quiet (e : env) (nfs : nfs_request) :
  ~ In (intf_shutdown xfer 0) (snd (nfs_mount_step e nfs)).
Proof.
  unfold nfs_mount_step. repeat break_goal; cbn [snd]; intros Hin;
    repeat (apply in_app_or in Hin as [Hin|Hin]);
    try (cbn [In] in Hin; intuition discriminate);
    match goal with
    | H : negb (?rc =? 0) = true |- _ =>
        apply negb_true_iff, eqb_false_neq in H;
        exact (nfs_done_quiet _ _ H Hin)
    end.
Qed.

Lemma nfs_step_quiet (e : env) (nfs : nfs_request) :
  ~ In (intf_shutdown xfer 0) (snd (nfs_step e nfs)).
Proof.
  unfold nfs_step. repeat break_goal; cbn [snd]; intros Hin;
    repeat (apply in_app_or in Hin as [Hin|Hin]);
    try (cbn [In] in Hin; intuition discriminate);
    match goal with
    | H : negb (?rc =? 0) = true |- _ =>
        apply negb_true_iff, eqb_false_neq in H;
        exact (nfs_done_quiet _ _ H Hin)
    end.
Qed.

End DoneFacts.

Ltac split_in Hin :=
  repeat match type of Hin with
  | In _ (_ ++ _) => apply in_app_or in Hin as [Hin|Hin]
  | In _ (_ :: _) => destruct Hin as [Hin|Hin]
  | In _ [] => destruct Hin
  end.

(** Closes a goal whose hypothesis [Hin] says that a success report is
    among calls that cannot contain one. *)
Ltac no_report Hin :=
  split_in Hin;
  first
    [ discriminate Hin
    | match goal with
      | Heq : nfs_step ?e ?n = (_, ?l) |- _ =>
          match type of Hin with In _ l =>
            exfalso; apply (nfs_step_quiet e n); rewrite Heq; exact Hin end
      | Heq : nfs_pm_step ?e ?n = (_, ?l) |- _ =>
          match type of Hin with In _ l =>
            exfalso; apply (nfs_pm_step_quiet e n); rewrite Heq; exact Hin
          end
      | Heq : nfs_mount_step ?e ?n = (_, ?l) |- _ =>
          match type of Hin with In _ l =>
            exfalso; apply (nfs_mount_step_quiet e n); rewrite Heq;
            exact Hin end
      | Heq : nfs_connect ?e ?i ?p ?h = (_, ?l) |- _ =>
          match type of Hin with In _ l =>
            exfalso;
            let H := fresh in
            pose proof (nfs_connect_quiet e i p h (intf_shutdown xfer 0))
              as H;
            rewrite Heq in H; destruct (H Hin) as [? [? [? ?]]];
            discriminate end
      | H : negb (?rc =? 0) = true |- _ =>
          match type of Hin with In _ (nfs_done _ rc) =>
            exfalso; apply negb_true_iff, eqb_false_neq in H;
            exact (nfs_done_quiet _ _ H Hin) end
      end
    | match type of Hin with In _ (nfs_done _ (- EPROTO)) =>
        exfalso; refine (nfs_done_quiet _ _ _ Hin); discriminate end
    | match type of Hin with In _ (snd (nfs_step ?e ?n)) =>
        exfalso; exact (nfs_step_quiet e n Hin) end ].

Section ReportFacts.

Variable X : decoders.
Variable e : env.

Lemma nfs_pm_deliver_quiet (nfs : nfs_request) (io_buf : io_buffer) :
  ~ In (intf_shutdown xfer 0) (snd (nfs_pm_deliver X e nfs io_buf)).
Proof.
  unfold nfs_pm_deliver. repeat break_goal; cbn [snd]; intros Hin;
    no_report Hin.
Qed.

Lemma nfs_deliver_quiet (nfs : nfs_request) (io_buf : io_buffer) :
  ~ In (intf_shutdown xfer 0) (snd (nfs_deliver X e nfs io_buf)).
Proof.
  unfold nfs_deliver. repeat break_goal; cbn [snd]; intros Hin;
    no_report Hin.
Qed.

Lemma nfs_mount_deliver_reports (nfs : nfs_request) (io_buf : io_buffer) :
  In (intf_shutdown xfer 0) (snd (nfs_mount_deliver X e nfs io_buf)) ->
  nfs_state nfs = NFS_CLOSED /\ mount_state nfs = NFS_MOUNT_UMNT.
Proof.
  unfold nfs_mount_deliver. repeat break_goal; cbn [snd]; intros Hin;
    try solve [no_report Hin].
  apply nfs_done_reports in Hin. symmetry in Hin.
  apply nfs_done_status_zero in Hin as [_ Hs].
  split; [exact Hs|]. now apply Z.eqb_eq.
Qed.

(** Success is reported downstream only from the closed NFS state, and
    only on a close with status 0 or on a delivery on the mount interface
    in the UMNT state. *)
Lemma handle_reports_zero (nfs : nfs_request) (ev : event) :
  In (intf_shutdown xfer 0) (snd (nfs_handle X e nfs ev)) ->
  nfs_state nfs = NFS_CLOSED
  /\ (is_close 0 ev
      \/ (is_mount_delivery ev /\ mount_state nfs = NFS_MOUNT_UMNT)).
Proof.
  destruct ev as [i|i io_buf|i rc]; cbn [nfs_handle].
  - destruct i; cbn [snd]; intros Hin.
    + destruct Hin.
    + now apply nfs_pm_step_quiet in Hin.
    + now apply nfs_mount_step_quiet in Hin.
    + now apply nfs_step_quiet in Hin.
  - destruct i; cbn [snd]; intros Hin.
    + destruct Hin.
    + now apply nfs_pm_deliver_quiet in Hin.
    + apply nfs_mount_deliver_reports in Hin as [Hs Hm].
      split; [exact Hs|]. right. split; [now exists io_buf|exact Hm].
    + now apply nfs_deliver_quiet in Hin.
  - cbn [snd]. intros Hin. apply nfs_done_reports in Hin.
    symmetry in Hin. apply nfs_done_status_zero in Hin as [-> Hs].
    split; [exact Hs|]. left. now exists i.
Qed.

End ReportFacts.

(** C7.  A close of the downstream data sink before the NFS state machine
    is closed never ends the fetch with success: the status becomes
    [-ECONNRESET] when the close carried 0 and stays the close's own
    (non-zero) status otherwise, and all four interfaces are shut down with
    it; whatever the event, success is reported downstream only once the
    NFS state is [NFS_CLOSED]. *)
Theorem close_before_eof_is_not_success :
  forall (X : decoders) (e : env) (nfs : nfs_request) (rc : Z),
    nfs_state nfs <> NFS_CLOSED ->
    let s := nfs_done_status nfs rc in
    s <> 0
    /\ (rc = 0 -> s = - ECONNRESET)
    /\ (rc <> 0 -> s = rc)
    /\ nfs_handle X e nfs (close xfer rc)
       = (nfs, [ intf_shutdown xfer s ; intf_shutdown pm_intf s ;
                 intf_shutdown mount_intf s ; intf_shutdown nfs_intf s ])
    /\ forall e' ev,
         ~ In (intf_shutdown xfer 0) (snd (nfs_handle X e' nfs ev)).
Proof.
  intros X e nfs rc Hs s. subst s.
  repeat split.
  - intros H0. apply nfs_done_status_zero in H0 as [_ H0]. contradiction.
  - intros ->. now apply nfs_done_status_reset.
  - apply nfs_done_status_nonzero.
  - intros e' ev Hin. apply handle_reports_zero in Hin as [Hc _].
    contradiction.
Qed.

(** C7 at the sample request, while its READ is outstanding. *)
Lemma close_before_eof_is_not_success_sample :
  nfs_state Scenario.reading <> NFS_CLOSED
  /\ nfs_handle SpecCodec.spec_decoders Scenario.all_open Scenario.reading
       (close xfer 0)
     = (Scenario.reading,
        [ intf_shutdown xfer (- ECONNRESET) ;
          intf_shutdown pm_intf (- ECONNRESET) ;
          intf_shutdown mount_intf (- ECONNRESET) ;
          intf_shutdown nfs_intf (- ECONNRESET) ]).
Proof.
  assert (Hs : nfs_state Scenario.reading <> NFS_CLOSED)
    by (vm_compute; discriminate).
  split; [exact Hs|].
  destruct (close_before_eof_is_not_success SpecCodec.spec_decoders
              Scenario.all_open Scenario.reading 0 Hs)
    as [_ [Hreset [_ [Hcalls _]]]].
  rewrite Hcalls, (Hreset eq_refl). reflexivity.
Defined.

(** C7 as stated fails for a close that carries an error: closed with
    [-ENOMEM] while its READ is outstanding, the request ends the fetch
    with [-ENOMEM] on all four interfaces, not with the reset error. *)
Lemma close_with_error_keeps_its_status :
  nfs_state Scenario.reading <> NFS_CLOSED
  /\ nfs_handle SpecCodec.spec_decoders Scenario.all_open Scenario.reading
       (close xfer (- ENOMEM))
     = (Scenario.reading,
        [ intf_shutdown xfer (- ENOMEM) ;
          intf_shutdown pm_intf (- ENOMEM) ;
          intf_shutdown mount_intf (- ENOMEM) ;
          intf_shutdown nfs_intf (- ENOMEM) ])
  /\ - ENOMEM <> - ECONNRESET.
Proof.
  split; [vm_compute; discriminate|].
  split; [reflexivity|vm_compute; discriminate].
Qed.

(** ** The driver: READ replies *)

Section ReadFacts.

Variable X : decoders.

(** What [nfs_deliver] does with a READ reply that decodes. *)
Lemma nfs_deliver_read (e : env) (nfs : nfs_request) (io_buf : io_buffer)
  (rr : nfs_read_reply) :
  nfs_state nfs = NFS_READ_SENT ->
  accept_state (oncrpc_get_reply X nfs_session (local_reply e) io_buf) = 0 ->
  nfs_get_read_reply X (local_read_reply e)
    (oncrpc_get_reply X nfs_session (local_reply e) io_buf) = (0, rr) ->
  let seeks :=
    if file_offset nfs =? 0
    then [ xfer_seek xfer (off_t (filesize rr)) ; xfer_seek xfer 0 ]
    else [] in
  let nfs1 := set_file_offset nfs (u64 (file_offset nfs + count rr)) in
  nfs_deliver X e nfs io_buf
  = if negb (rc_xfer_deliver_raw e =? 0)
    then (nfs1,
          seeks ++ [ xfer_deliver_raw xfer (data rr) (data_len rr) ]
          ++ nfs_done nfs1 (rc_xfer_deliver_raw e))
    else if eof rr =? 0
    then (fst (nfs_step e (set_nfs_state nfs1 NFS_READ)),
          seeks ++ [ xfer_deliver_raw xfer (data rr) (data_len rr) ]
          ++ snd (nfs_step e (set_nfs_state nfs1 NFS_READ)))
    else (fst (nfs_mount_step e
                 (set_mount_state (set_nfs_state nfs1 NFS_CLOSED)
                    (mount_state nfs + 1))),
          seeks ++ [ xfer_deliver_raw xfer (data rr) (data_len rr) ]
          ++ intf_shutdown nfs_intf 0
             :: snd (nfs_mount_step e
                       (set_mount_state (set_nfs_state nfs1 NFS_CLOSED)
                          (mount_state nfs + 1)))).
Proof.
  intros Hs Ha Hp seeks nfs1. unfold nfs_deliver.
  rewrite Ha, Hp, Hs. cbn [negb Z.eqb NFS_READ_SENT NFS_LOOKUP_SENT].
  change (4 =? 2) with false. change (4 =? 4) with true. cbn iota.
  fold seeks. fold nfs1.
  destruct (negb (rc_xfer_deliver_raw e =? 0)); [reflexivity|].
  destruct (eof rr =? 0).
  - cbn [nfs_state set_file_offset nfs1]. rewrite Hs.
    change (NFS_READ_SENT - 1) with NFS_READ.
    destruct (nfs_step e (set_nfs_state nfs1 NFS_READ)); reflexivity.
  - cbn [nfs_state mount_state set_nfs_state set_file_offset nfs1].
    rewrite Hs. change (NFS_READ_SENT + 1) with NFS_CLOSED.
    match goal with
    | |- context [nfs_mount_step e ?n] => destruct (nfs_mount_step e n)
    end. reflexivity.
Qed.

(** With [file_offset] at 0, the calls start with the two seeks. *)
Lemma nfs_deliver_first_read (e : env) (nfs : nfs_request)
  (io_buf : io_buffer) (rr : nfs_read_reply) :
  nfs_state nfs = NFS_READ_SENT ->
  file_offset nfs = 0 ->
  accept_state (oncrpc_get_reply X nfs_session (local_reply e) io_buf) = 0 ->
  nfs_get_read_reply X (local_read_reply e)
    (oncrpc_get_reply X nfs_session (local_reply e) io_buf) = (0, rr) ->
  exists rest,
    snd (nfs_deliver X e nfs io_buf)
    = xfer_seek xfer (off_t (filesize rr)) :: xfer_seek xfer 0
      :: xfer_deliver_raw xfer (data rr) (data_len rr) :: rest.
Proof.
  intros Hs Ho Ha Hp.
  pose proof (nfs_deliver_read e nfs io_buf rr Hs Ha Hp) as H.
  cbv zeta in H. rewrite Ho in H. rewrite H.
  change (0 =? 0) with true. cbn iota.
  destruct (negb (rc_xfer_deliver_raw e =? 0));
    [|destruct (eof rr =? 0)]; cbn [snd app]; eauto.
Qed.

(** The same for [read_cb]. *)
Lemma read_cb_read (e : Chain.env) (nfs : Chain.nfs_request)
  (reply : oncrpc_reply) (rr : nfs_read_reply) :
  nfs_get_read_reply X (Chain.local_read_reply e) reply = (0, rr) ->
  Chain.rc_xfer_deliver_raw e = 0 ->
  let seeks :=
    if Chain.file_offset nfs =? 0
    then [ Chain.xfer_seek (off_t (filesize rr)) ; Chain.xfer_seek 0 ]
    else [] in
  let nfs1 :=
    Chain.set_file_offset nfs (u64 (Chain.file_offset nfs + count rr)) in
  exists rest,
    snd (Chain.read_cb X e nfs reply)
    = seeks ++ Chain.xfer_deliver_raw (data rr) (data_len rr) :: rest
    /\ Chain.file_offset (snd (fst (Chain.read_cb X e nfs reply)))
       = u64 (Chain.file_offset nfs + count rr)
    /\ (eof rr = 0 -> Chain.rc_nfs_read e = 0 ->
        Chain.read_cb X e nfs reply
        = (0, Chain.written e Chain.H_nfs_read nfs_session nfs1,
           seeks ++ [ Chain.xfer_deliver_raw (data rr) (data_len rr) ;
                      Chain.nfs_read (Chain.file_fh nfs)
                        (u64 (Chain.file_offset nfs + count rr))
                        NFS_RSIZE Chain.CB_read ])).
Proof.
  intros Hp Hd seeks nfs1. unfold Chain.read_cb.
  rewrite Hp, Hd. cbn [negb Z.eqb]. fold seeks. fold nfs1.
  destruct (eof rr =? 0) eqn:He.
  - destruct (negb (Chain.rc_nfs_read e =? 0)) eqn:Hr.
    + unfold Chain.nfs_done. eexists. cbn [fst snd]. split; [|split].
      * rewrite <- !app_assoc. cbn [app]. reflexivity.
      * reflexivity.
      * intros _ H0. rewrite H0 in Hr. discriminate Hr.
    + eexists. cbn [fst snd]. split; [|split].
      * cbn [app]. reflexivity.
      * reflexivity.
      * intros _ _. reflexivity.
  - destruct (negb (Chain.rc_mount_umnt e =? 0)).
    + unfold Chain.nfs_done. eexists. cbn [fst snd]. split; [|split].
      * rewrite <- !app_assoc. cbn [app]. reflexivity.
      * reflexivity.
      * intros H0. rewrite H0 in He. discriminate He.
    + eexists. cbn [fst snd]. split; [|split].
      * cbn [app]. reflexivity.
      * reflexivity.
      * intros H0. rewrite H0 in He. discriminate He.
Qed.

(** A window change moves neither the file offset nor the current handle,
    and a READ it sends asks for that offset with that handle. *)
Lemma window_change_keeps_offset (e : env) (nfs : nfs_request)
  (i : intf_id) :
  file_offset (fst (nfs_handle X e nfs (window_changed i)))
  = file_offset nfs
  /\ current_fh (fst (nfs_handle X e nfs (window_changed i)))
     = current_fh nfs
  /\ forall c,
       In c (snd (nfs_handle X e nfs (window_changed i))) ->
       is_read c = true ->
       c = nfs_read nfs_intf (current_fh nfs) (file_offset nfs) NFS_RSIZE.
Proof.
  destruct i; cbn [nfs_handle];
    unfold nfs_pm_step, nfs_mount_step, nfs_step, nfs_done;
    repeat break_goal; cbn [fst snd];
    (split; [reflexivity|]); (split; [reflexivity|]);
    intros c Hin Hr; split_in Hin; subst c;
    try discriminate Hr; reflexivity.
Qed.

Lemma window_changes_keep_offset (ws : list (env * intf_id))
  (nfs : nfs_request) :
  file_offset (fst (nfs_run X nfs (window_changes ws))) = file_offset nfs
  /\ current_fh (fst (nfs_run X nfs (window_changes ws))) = current_fh nfs
  /\ forall c,
       In c (snd (nfs_run X nfs (window_changes ws))) ->
       is_read c = true ->
       c = nfs_read nfs_intf (current_fh nfs) (file_offset nfs) NFS_RSIZE.
Proof.
  revert nfs; induction ws as [|[e i] ws IH]; intros nfs.
  - cbn. split; [reflexivity|]. split; [reflexivity|]. intros c [].
  - cbn [window_changes map fst snd nfs_run].
    fold (window_changes ws).
    destruct (window_change_keeps_offset e nfs i) as (Ho & Hf & Hc).
    destruct (nfs_handle X e nfs (window_changed i)) as [nfs1 out1].
    cbn [fst snd] in Ho, Hf, Hc.
    destruct (IH nfs1) as (Ho' & Hf' & Hc').
    destruct (nfs_run X nfs1 (window_changes ws)) as [nfs2 out2].
    cbn [fst snd] in *.
    split; [congruence|]. split; [congruence|].
    intros c Hin Hr. apply in_app_or in Hin as [Hin|Hin].
    + now apply Hc.
    + rewrite <- Ho, <- Hf. now apply Hc'.
Qed.

End ReadFacts.

Lemma off_t_small (x : Z) : 0 <= x < 2 ^ 63 -> off_t x = x.
Proof.
  intros Hx. unfold off_t. rewrite Z.mod_small by lia. lia.
Qed.

(** A file size of 2^63 + 5 reaches the sink as a negative offset. *)
Example off_t_wraps :
  off_t 5 = 5 /\ off_t (2 ^ 63 + 5) = - 9223372036854775803.
Proof. split; reflexivity. Qed.

(** C5, as the code has it.  On a READ reply that decodes while
    [file_offset] is 0 (the first one of a fetch), the driver calls
    [xfer_seek] with the [filesize] of the decoded reply, which reaches the
    sink as an [off_t] (unchanged below 2^63), then [xfer_seek ( 0 )], then
    delivers the data; it does so for every decoder and every reply, there
    being no test of attribute presence.  Both drivers agree. *)
Theorem size_signal_on_first_read :
  forall (X : decoders) (e : env) (nfs : nfs_request) (io_buf : io_buffer)
         (rr : nfs_read_reply),
    nfs_state nfs = NFS_READ_SENT ->
    file_offset nfs = 0 ->
    accept_state (oncrpc_get_reply X nfs_session (local_reply e) io_buf) = 0 ->
    nfs_get_read_reply X (local_read_reply e)
      (oncrpc_get_reply X nfs_session (local_reply e) io_buf) = (0, rr) ->
    (exists rest,
       snd (nfs_deliver X e nfs io_buf)
       = xfer_seek xfer (off_t (filesize rr)) :: xfer_seek xfer 0
         :: xfer_deliver_raw xfer (data rr) (data_len rr) :: rest)
    /\ (0 <= filesize rr < 2 ^ 63 -> off_t (filesize rr) = filesize rr)
    /\ forall (ce : Chain.env) (cnfs : Chain.nfs_request)
              (reply : oncrpc_reply),
         Chain.file_offset cnfs = 0 ->
         nfs_get_read_reply X (Chain.local_read_reply ce) reply = (0, rr) ->
         Chain.rc_xfer_deliver_raw ce = 0 ->
         exists rest,
           snd (Chain.read_cb X ce cnfs reply)
           = Chain.xfer_seek (off_t (filesize rr)) :: Chain.xfer_seek 0
             :: Chain.xfer_deliver_raw (data rr) (data_len rr) :: rest.
Proof.
  intros X e nfs io_buf rr Hs Ho Ha Hp. split; [|split].
  - now apply nfs_deliver_first_read.
  - apply off_t_small.
  - intros ce cnfs reply Hco Hcp Hd.
    destruct (read_cb_read X ce cnfs reply rr Hcp Hd) as [rest [H _]].
    rewrite Hco in H. change (0 =? 0) with true in H. cbn iota in H.
    exists rest. exact H.
Qed.

(** C5 at the sample request, on the tiny file's READ reply. *)
Lemma size_signal_on_first_read_sample :
  exists rest,
    snd (nfs_deliver SpecCodec.spec_decoders Scenario.all_open
           Scenario.reading Scenario.read_reply_eof)
    = xfer_seek xfer 5 :: xfer_seek xfer 0
      :: xfer_deliver_raw xfer Scenario.hello 5 :: rest.
Proof.
  destruct (size_signal_on_first_read SpecCodec.spec_decoders
              Scenario.all_open Scenario.reading Scenario.read_reply_eof
              {| filesize := 5 ; count := 5 ; eof := 1 ; data_len := 5 ;
                 data := Scenario.hello |}
              ltac:(vm_compute; reflexivity) ltac:(vm_compute; reflexivity)
              ltac:(vm_compute; reflexivity) ltac:(vm_compute; reflexivity))
    as [H _].
  exact H.
Defined.

(** C5 as stated fails: the READ reply below carries no post-op attributes
    (its attributes flag, the second word of its results, is 0), yet the
    driver sends a size signal, with whatever the local [read_reply]
    held. *)
Lemma size_signal_without_attributes :
  SpecCodec.get_int
    (skipn 4
       (reply_data
          (SpecCodec.oncrpc_get_reply nfs_session
             (local_reply Scenario.all_open)
             Scenario.read_reply_eof_no_attrs)))
  = Some (0, htonl 5 ++ htonl 1 ++ xdr_string Scenario.hello)
  /\ snd (nfs_deliver SpecCodec.spec_decoders Scenario.all_open
            Scenario.reading Scenario.read_reply_eof_no_attrs)
     = [ xfer_seek xfer 57005 ; xfer_seek xfer 0 ;
         xfer_deliver_raw xfer Scenario.hello 5 ;
         intf_shutdown nfs_intf 0 ;
         mount_umnt mount_intf Scenario.srv_export ].
Proof.
  split; vm_compute; reflexivity.
Qed.

(** C10.  A READ reply with [count = 0] and [eof] clear leaves
    [file_offset] at 0, and the READ is issued again at offset 0: at once
    when the NFS window is open, and otherwise by [nfs_step] on the window
    change that finds it open.  Whatever window changes come in between,
    [file_offset] is still 0 when the next READ reply arrives, and the
    driver sends [xfer_seek ( filesize )] and [xfer_seek ( 0 )] a second
    time before delivering.  Both drivers agree. *)
Theorem size_signal_repeats_after_empty_read :
  forall (X : decoders) (e1 e2 : env) (ws : list (env * intf_id))
         (nfs : nfs_request) (buf1 buf2 : io_buffer)
         (rr1 rr2 : nfs_read_reply),
    nfs_state nfs = NFS_READ_SENT ->
    file_offset nfs = 0 ->
    accept_state (oncrpc_get_reply X nfs_session (local_reply e1) buf1) = 0 ->
    nfs_get_read_reply X (local_read_reply e1)
      (oncrpc_get_reply X nfs_session (local_reply e1) buf1) = (0, rr1) ->
    count rr1 = 0 -> eof rr1 = 0 ->
    rc_xfer_deliver_raw e1 = 0 ->
    let next := nfs_read nfs_intf (current_fh nfs) 0 NFS_RSIZE in
    let nfs1 := fst (nfs_deliver X e1 nfs buf1) in
    let nfs2 := fst (nfs_run X nfs1 (window_changes ws)) in
    ((* the empty reply *)
     file_offset nfs1 = 0
     /\ (exists rest,
           snd (nfs_deliver X e1 nfs buf1)
           = xfer_seek xfer (off_t (filesize rr1)) :: xfer_seek xfer 0
             :: xfer_deliver_raw xfer (data rr1) (data_len rr1) :: rest
           /\ forall c, In c rest -> is_read c = true -> c = next)
     /\ (window_of e1 nfs_intf = true -> rc_nfs_read e1 = 0 ->
         nfs_state nfs1 = NFS_READ_SENT
         /\ snd (nfs_deliver X e1 nfs buf1)
            = [ xfer_seek xfer (off_t (filesize rr1)) ; xfer_seek xfer 0 ;
                xfer_deliver_raw xfer (data rr1) (data_len rr1) ; next ])
     /\ (window_of e1 nfs_intf = false ->
         nfs_state nfs1 = NFS_READ
         /\ forall e',
              window_of e' nfs_intf = true -> rc_nfs_read e' = 0 ->
              nfs_handle X e' nfs1 (window_changed nfs_intf)
              = (set_nfs_state nfs1 NFS_READ_SENT, [next]))
     (* the window changes that follow *)
     /\ file_offset nfs2 = 0
     /\ (forall c,
           In c (snd (nfs_run X nfs1 (window_changes ws))) ->
           is_read c = true -> c = next)
     (* the next READ reply *)
     /\ (nfs_state nfs2 = NFS_READ_SENT ->
         accept_state (oncrpc_get_reply X nfs_session (local_reply e2) buf2)
         = 0 ->
         nfs_get_read_reply X (local_read_reply e2)
           (oncrpc_get_reply X nfs_session (local_reply e2) buf2)
         = (0, rr2) ->
         exists rest,
           snd (nfs_deliver X e2 nfs2 buf2)
           = xfer_seek xfer (off_t (filesize rr2)) :: xfer_seek xfer 0
             :: xfer_deliver_raw xfer (data rr2) (data_len rr2) :: rest)
     /\ (0 <= filesize rr2 < 2 ^ 63 -> off_t (filesize rr2) = filesize rr2))
    /\ forall (c1 c2 : Chain.env) (cnfs : Chain.nfs_request)
              (r1 r2 : oncrpc_reply),
         Chain.file_offset cnfs = 0 ->
         nfs_get_read_reply X (Chain.local_read_reply c1) r1 = (0, rr1) ->
         nfs_get_read_reply X (Chain.local_read_reply c2) r2 = (0, rr2) ->
         Chain.rc_xfer_deliver_raw c1 = 0 ->
         Chain.rc_xfer_deliver_raw c2 = 0 ->
         let cnfs1 := snd (fst (Chain.read_cb X c1 cnfs r1)) in
         Chain.file_offset cnfs1 = 0
         /\ (Chain.rc_nfs_read c1 = 0 ->
             snd (Chain.read_cb X c1 cnfs r1)
             = [ Chain.xfer_seek (off_t (filesize rr1)) ; Chain.xfer_seek 0 ;
                 Chain.xfer_deliver_raw (data rr1) (data_len rr1) ;
                 Chain.nfs_read (Chain.file_fh cnfs) 0 NFS_RSIZE
                   Chain.CB_read ])
         /\ exists rest,
              snd (Chain.read_cb X c2 cnfs1 r2)
              = Chain.xfer_seek (off_t (filesize rr2)) :: Chain.xfer_seek 0
                :: Chain.xfer_deliver_raw (data rr2) (data_len rr2) :: rest.
Proof.
  intros X e1 e2 ws nfs buf1 buf2 rr1 rr2 Hs Ho Ha1 Hp1 Hc1 He1 Hd1
    next nfs1 nfs2.
  assert (Hu : u64 (0 + 0) = 0) by reflexivity.
  split.
  - pose proof (nfs_deliver_read X e1 nfs buf1 rr1 Hs Ha1 Hp1) as H.
    cbv zeta in H. rewrite Ho, Hc1, He1, Hd1, Hu in H.
    change (0 =? 0) with true in H. cbn [negb] in H. cbn iota in H.
    set (n0 := set_nfs_state (set_file_offset nfs 0) NFS_READ) in H.
    destruct (window_change_keeps_offset X e1 n0 nfs_intf)
      as (Hko & _ & Hkc).
    cbn [nfs_handle] in Hko, Hkc.
    assert (Hn1 : nfs1 = fst (nfs_step e1 n0)) by (subst nfs1; now rewrite H).
    assert (Hoff1 : file_offset nfs1 = 0) by (rewrite Hn1; exact Hko).
    assert (Hfh1 : current_fh nfs1 = current_fh nfs).
    { rewrite Hn1.
      destruct (window_change_keeps_offset X e1 n0 nfs_intf) as (_ & Hf & _).
      exact Hf. }
    split; [exact Hoff1|]. split.
    { rewrite H. cbn [snd app]. eexists. split; [reflexivity|].
      intros c Hin Hr. exact (Hkc c Hin Hr). }
    split.
    { intros Hw Hr. rewrite Hn1, H. unfold nfs_step, n0.
      rewrite Hw, Hr.
      cbn [negb nfs_state set_nfs_state set_file_offset current_fh
           file_offset fst snd app].
      change (NFS_READ =? NFS_LOOKUP) with false.
      change (NFS_READ =? NFS_READ) with true.
      change (0 =? - EAGAIN) with false.
      change (0 =? 0) with true. cbn [negb]. cbn iota.
      cbn [fst snd nfs_state set_nfs_state]. now split. }
    split.
    { intros Hw.
      assert (Hst : nfs_step e1 n0 = (n0, []))
        by (unfold nfs_step; now rewrite Hw).
      assert (Hn0 : nfs1 = n0) by (rewrite Hn1, Hst; reflexivity).
      split; [rewrite Hn0; reflexivity|].
      intros e' Hw' Hr'. rewrite Hn0. cbn [nfs_handle].
      unfold nfs_step, n0. rewrite Hw', Hr'.
      cbn [negb nfs_state set_nfs_state set_file_offset current_fh
           file_offset].
      change (NFS_READ =? NFS_LOOKUP) with false.
      change (NFS_READ =? NFS_READ) with true.
      change (0 =? - EAGAIN) with false.
      change (0 =? 0) with true. cbn [negb]. cbn iota. reflexivity. }
    destruct (window_changes_keep_offset X ws nfs1) as (Ho2 & Hf2 & Hc2).
    split; [subst nfs2; rewrite Ho2; exact Hoff1|].
    split.
    { intros c Hin Hr. rewrite (Hc2 c Hin Hr), Hoff1, Hfh1. reflexivity. }
    split; [|apply off_t_small].
    intros Hs2 Ha2 Hp2.
    apply (nfs_deliver_first_read X e2 nfs2 buf2 rr2 Hs2); try assumption.
    subst nfs2. rewrite Ho2. exact Hoff1.
  - intros c1 c2 cnfs r1 r2 Hco Hp1' Hp2' Hcd1 Hcd2 cnfs1.
    destruct (read_cb_read X c1 cnfs r1 rr1 Hp1' Hcd1) as [_ [_ [Hoff H1]]].
    rewrite Hco, Hc1, Hu in Hoff.
    change (Chain.file_offset cnfs1 = 0) in Hoff.
    split; [exact Hoff|]. split.
    + intros Hcr1. specialize (H1 He1 Hcr1).
      rewrite Hco, Hc1, Hu in H1. change (0 =? 0) with true in H1.
      cbn iota in H1. cbn [app] in H1. rewrite H1. reflexivity.
    + destruct (read_cb_read X c2 cnfs1 r2 rr2 Hp2' Hcd2) as [rest [H2 _]].
      rewrite Hoff in H2. change (0 =? 0) with true in H2. cbn iota in H2.
      exists rest. exact H2.
Qed.

(** C10 at the sample request: an empty READ reply that finds the NFS
    window closed, the window change that sends READ again at offset 0,
    then the tiny file's last READ reply. *)
Lemma size_signal_repeats_after_empty_read_sample :
  snd (nfs_deliver SpecCodec.spec_decoders Scenario.nfs_not_connected
         Scenario.reading Scenario.read_reply_empty)
  = [ xfer_seek xfer 5 ; xfer_seek xfer 0 ; xfer_deliver_raw xfer [] 0 ]
  /\ snd (nfs_run SpecCodec.spec_decoders
            (fst (nfs_deliver SpecCodec.spec_decoders
                    Scenario.nfs_not_connected Scenario.reading
                    Scenario.read_reply_empty))
            (window_changes [(Scenario.all_open, nfs_intf)]))
     = [ nfs_read nfs_intf (Scenario.fh 2) 0 NFS_RSIZE ]
  /\ exists rest,
       snd (nfs_deliver SpecCodec.spec_decoders Scenario.all_open
              (fst (nfs_run SpecCodec.spec_decoders
                      (fst (nfs_deliver SpecCodec.spec_decoders
                              Scenario.nfs_not_connected Scenario.reading
                              Scenario.read_reply_empty))
                      (window_changes [(Scenario.all_open, nfs_intf)])))
              Scenario.read_reply_eof)
       = xfer_seek xfer 5 :: xfer_seek xfer 0
         :: xfer_deliver_raw xfer Scenario.hello 5 :: rest.
Proof.
  destruct (size_signal_repeats_after_empty_read SpecCodec.spec_decoders
              Scenario.nfs_not_connected Scenario.all_open
              [(Scenario.all_open, nfs_intf)] Scenario.reading
              Scenario.read_reply_empty Scenario.read_reply_eof
              {| filesize := 5 ; count := 0 ; eof := 0 ; data_len := 0 ;
                 data := [] |}
              {| filesize := 5 ; count := 5 ; eof := 1 ; data_len := 5 ;
                 data := Scenario.hello |}
              ltac:(vm_compute; reflexivity) ltac:(vm_compute; reflexivity)
              ltac:(vm_compute; reflexivity) ltac:(vm_compute; reflexivity)
              eq_refl eq_refl eq_refl)
    as [(_ & _ & _ & _ & _ & _ & H & _) _].
  split; [vm_compute; reflexivity|]. split; [vm_compute; reflexivity|].
  apply H; vm_compute; reflexivity.
Defined.

(** ** The driver: UMNT and completion *)

(** The tiny file of the spec, start to end: the calls of the fetch, with
    UMNT before the success report. *)
Example happy_path_calls :
  snd (nfs_run SpecCodec.spec_decoders Scenario.nfs0 Scenario.happy_path)
  = [ portmap_getport pm_intf ONCRPC_MOUNT MOUNT_VERS PORTMAP_PROTO_TCP ;
      xfer_open_named_socket mount_intf 635 Scenario.host 42 ;
      portmap_getport pm_intf ONCRPC_NFS NFS_VERS PORTMAP_PROTO_TCP ;
      mount_mnt mount_intf Scenario.srv_export ;
      xfer_open_named_socket nfs_intf 2049 Scenario.host 42 ;
      intf_shutdown pm_intf 0 ;
      nfs_lookup nfs_intf (Scenario.fh 1) Scenario.hello_txt ;
      nfs_read nfs_intf (Scenario.fh 2) 0 NFS_RSIZE ;
      xfer_seek xfer 5 ; xfer_seek xfer 0 ;
      xfer_deliver_raw xfer Scenario.hello 5 ;
      intf_shutdown nfs_intf 0 ;
      mount_umnt mount_intf Scenario.srv_export ;
      intf_shutdown xfer 0 ; intf_shutdown pm_intf 0 ;
      intf_shutdown mount_intf 0 ; intf_shutdown nfs_intf 0 ].
Proof. vm_compute. reflexivity. Qed.

(** C6, as the code has it.  A READ reply with [eof] set, decoded and
    delivered downstream, makes the driver shut down the NFS interface with
    status 0 and enter [NFS_CLOSED] and [NFS_MOUNT_UMNT]; UMNT is issued at
    once when the mount window is open and on the next window change
    otherwise; that handler never reports success.  A reply then delivered
    on the mount interface reports success downstream.  Success is
    reported only from [NFS_CLOSED]: on such a delivery, or on a close of
    one of the interfaces with status 0. *)
Theorem umnt_then_done :
  forall (X : decoders) (e : env) (nfs : nfs_request) (io_buf : io_buffer)
         (rr : nfs_read_reply),
    nfs_state nfs = NFS_READ_SENT ->
    mount_state nfs = NFS_MOUNT_MNT ->
    accept_state (oncrpc_get_reply X nfs_session (local_reply e) io_buf) = 0 ->
    nfs_get_read_reply X (local_read_reply e)
      (oncrpc_get_reply X nfs_session (local_reply e) io_buf) = (0, rr) ->
    eof rr <> 0 ->
    rc_xfer_deliver_raw e = 0 ->
    let nfs' := fst (nfs_deliver X e nfs io_buf) in
    let out := snd (nfs_deliver X e nfs io_buf) in
    let umnt := mount_umnt mount_intf (string_at nfs (mountpoint nfs)) in
    nfs_state nfs' = NFS_CLOSED
    /\ mount_state nfs' = NFS_MOUNT_UMNT
    /\ (exists pre post,
          out = pre ++ intf_shutdown nfs_intf 0 :: post
          /\ (window_of e mount_intf = true ->
              exists post', post = umnt :: post')
          /\ (window_of e mount_intf = false -> post = []))
    /\ ~ In (intf_shutdown xfer 0) out
    /\ (forall e', window_of e' mount_intf = true ->
          exists post,
            snd (nfs_handle X e' nfs' (window_changed mount_intf))
            = umnt :: post)
    /\ (forall e' reply_buf,
          accept_state
            (oncrpc_get_reply X mount_session (local_reply e') reply_buf)
          = 0 ->
          snd (nfs_handle X e' nfs' (deliver mount_intf reply_buf))
          = [ intf_shutdown xfer 0 ; intf_shutdown pm_intf 0 ;
              intf_shutdown mount_intf 0 ; intf_shutdown nfs_intf 0 ])
    /\ (forall e' n ev,
          In (intf_shutdown xfer 0) (snd (nfs_handle X e' n ev)) ->
          nfs_state n = NFS_CLOSED
          /\ (is_close 0 ev
              \/ (is_mount_delivery ev /\ mount_state n = NFS_MOUNT_UMNT))).
Proof.
  intros X e nfs io_buf rr Hs Hm Ha Hp Heof Hd nfs' out umnt.
  pose proof (nfs_deliver_read X e nfs io_buf rr Hs Ha Hp) as H.
  cbv zeta in H. rewrite Hd in H.
  apply Z.eqb_neq in Heof. rewrite Heof, Hm in H.
  change (negb (0 =? 0)) with false in H. cbn iota in H.
  change (NFS_MOUNT_MNT + 1) with NFS_MOUNT_UMNT in H.
  set (seeks := if file_offset nfs =? 0
                then [xfer_seek xfer (off_t (filesize rr)); xfer_seek xfer 0]
                else []) in *.
  set (closed := set_mount_state
                   (set_nfs_state
                      (set_file_offset nfs (u64 (file_offset nfs + count rr)))
                      NFS_CLOSED) NFS_MOUNT_UMNT) in *.
  assert (Hstep : forall e', 
             nfs_mount_step e' closed
             = if negb (window_of e' mount_intf) then (closed, [])
               else (closed,
                     if negb (rc_mount_umnt e' =? 0)
                     then [umnt] ++ nfs_done closed (rc_mount_umnt e')
                     else [umnt])).
  { intros e'. unfold nfs_mount_step.
    destruct (negb (window_of e' mount_intf)); [reflexivity|].
    cbn [mount_state closed set_mount_state].
    change (NFS_MOUNT_UMNT =? NFS_MOUNT_NONE) with false.
    change (NFS_MOUNT_UMNT =? NFS_MOUNT_UMNT) with true. cbn iota.
    destruct (negb (rc_mount_umnt e' =? 0)); reflexivity. }
  assert (Hfst : nfs' = closed).
  { subst nfs'. rewrite H, Hstep. cbn [fst].
    destruct (negb (window_of e mount_intf)); reflexivity. }
  assert (Hout : out = seeks
                       ++ [xfer_deliver_raw xfer (data rr) (data_len rr)]
                       ++ intf_shutdown nfs_intf 0
                          :: snd (nfs_mount_step e closed)).
  { subst out. rewrite H. reflexivity. }
  rewrite Hfst.
  split; [reflexivity|]. split; [reflexivity|].
  split; [|split; [|split; [|split]]].
  - exists (seeks ++ [xfer_deliver_raw xfer (data rr) (data_len rr)]),
           (snd (nfs_mount_step e closed)).
    split; [rewrite Hout, <- app_assoc; reflexivity|].
    rewrite Hstep. split; intros Hw; rewrite Hw; cbn [negb snd].
    + destruct (negb (rc_mount_umnt e =? 0)); cbn [app]; eauto.
    + reflexivity.
  - intros Hin. subst out.
    apply (nfs_deliver_quiet X e nfs io_buf). exact Hin.
  - intros e' Hw. cbn [nfs_handle]. rewrite Hstep, Hw. cbn [negb snd].
    destruct (negb (rc_mount_umnt e' =? 0)); cbn [app]; eauto.
  - intros e' reply_buf Ha'. cbn [nfs_handle]. unfold nfs_mount_deliver.
    rewrite Ha'. reflexivity.
  - intros e' n ev. apply handle_reports_zero.
Qed.

(** C6 at the sample request: the tiny file's last READ reply. *)
Lemma umnt_then_done_sample :
  exists pre post,
    snd (nfs_deliver SpecCodec.spec_decoders Scenario.all_open
           Scenario.reading Scenario.read_reply_eof)
    = pre ++ intf_shutdown nfs_intf 0 :: post
    /\ (window_of Scenario.all_open mount_intf = true ->
        exists post',
          post = mount_umnt mount_intf
                   (string_at Scenario.reading
                      (mountpoint Scenario.reading)) :: post')
    /\ (window_of Scenario.all_open mount_intf = false -> post = []).
Proof.
  destruct (umnt_then_done SpecCodec.spec_decoders Scenario.all_open
              Scenario.reading Scenario.read_reply_eof
              {| filesize := 5 ; count := 5 ; eof := 1 ; data_len := 5 ;
                 data := Scenario.hello |}
              ltac:(vm_compute; reflexivity) ltac:(vm_compute; reflexivity)
              ltac:(vm_compute; reflexivity) ltac:(vm_compute; reflexivity)
              ltac:(vm_compute; discriminate) eq_refl)
    as [_ [_ [H _]]].
  exact H.
Defined.

(** C6 as stated fails.  In the first run the mount window is closed when
    the last READ reply arrives and the server then closes the mount
    connection with status 0: success is reported downstream although no
    UMNT was issued and none answered.  In the second run UMNT is issued,
    and the same close reports success before any UMNT reply. *)
Lemma success_without_umnt_reply :
  snd (nfs_run SpecCodec.spec_decoders Scenario.nfs0
         Scenario.closed_before_umnt)
  = [ portmap_getport pm_intf ONCRPC_MOUNT MOUNT_VERS PORTMAP_PROTO_TCP ;
      xfer_open_named_socket mount_intf 635 Scenario.host 42 ;
      portmap_getport pm_intf ONCRPC_NFS NFS_VERS PORTMAP_PROTO_TCP ;
      mount_mnt mount_intf Scenario.srv_export ;
      xfer_open_named_socket nfs_intf 2049 Scenario.host 42 ;
      intf_shutdown pm_intf 0 ;
      nfs_lookup nfs_intf (Scenario.fh 1) Scenario.hello_txt ;
      nfs_read nfs_intf (Scenario.fh 2) 0 NFS_RSIZE ;
      xfer_seek xfer 5 ; xfer_seek xfer 0 ;
      xfer_deliver_raw xfer Scenario.hello 5 ;
      intf_shutdown nfs_intf 0 ;
      intf_shutdown xfer 0 ; intf_shutdown pm_intf 0 ;
      intf_shutdown mount_intf 0 ; intf_shutdown nfs_intf 0 ]
  /\ In (intf_shutdown xfer 0)
       (snd (nfs_run SpecCodec.spec_decoders Scenario.nfs0
               Scenario.closed_before_umnt))
  /\ existsb is_umnt
       (snd (nfs_run SpecCodec.spec_decoders Scenario.nfs0
               Scenario.closed_before_umnt)) = false
  /\ skipn 11
       (snd (nfs_run SpecCodec.spec_decoders Scenario.nfs0
               Scenario.closed_before_umnt_reply))
     = [ intf_shutdown nfs_intf 0 ;
         mount_umnt mount_intf Scenario.srv_export ;
         intf_shutdown xfer 0 ; intf_shutdown pm_intf 0 ;
         intf_shutdown mount_intf 0 ; intf_shutdown nfs_intf 0 ].
Proof.
  assert (Hrun : forall l,
             snd (nfs_run SpecCodec.spec_decoders Scenario.nfs0
                    Scenario.closed_before_umnt) = l ->
             In (intf_shutdown xfer 0) l ->
             In (intf_shutdown xfer 0)
               (snd (nfs_run SpecCodec.spec_decoders Scenario.nfs0
                       Scenario.closed_before_umnt)))
    by (intros l <-; exact (fun H => H)).
  split; [vm_compute; reflexivity|].
  split; [|split; vm_compute; reflexivity].
  eapply Hrun; [vm_compute; reflexivity|].
  do 12 right. left. reflexivity.
Qed.

(** ** The driver: mount point and file name *)

Section NameFacts.

Variables dir file : list byte.

Lemma nfs_done_names (nfs : nfs_request) (rc : Z) :
  Forall (names_ok dir file) (nfs_done nfs rc).
Proof. unfold nfs_done. repeat constructor. Qed.

Lemma nfs_connect_names (e : env) (i : intf_id) (p : Z)
  (h : option cstring) :
  Forall (names_ok dir file) (snd (nfs_connect e i p h)).
Proof.
  unfold nfs_connect. repeat break_goal; cbn [snd]; repeat constructor.
Qed.

Ltac names_calls Hinv :=
  repeat first
    [ apply Forall_nil
    | apply Forall_app; split
    | apply Forall_cons
    | apply nfs_done_names
    | assumption
    | exact I
    | exact (proj1 Hinv)
    | exact (proj2 Hinv) ].

Ltac names_goal Hinv :=
  cbn [fst snd]; split; [exact Hinv|names_calls Hinv].

Lemma nfs_pm_step_names (e : env) (nfs : nfs_request) :
  names_inv dir file nfs ->
  names_inv dir file (fst (nfs_pm_step e nfs))
  /\ Forall (names_ok dir file) (snd (nfs_pm_step e nfs)).
Proof.
  intros Hinv. unfold nfs_pm_step. repeat break_goal; names_goal Hinv.
Qed.

Lemma nfs_mount_step_names (e : env) (nfs : nfs_request) :
  names_inv dir file nfs ->
  names_inv dir file (fst (nfs_mount_step e nfs))
  /\ Forall (names_ok dir file) (snd (nfs_mount_step e nfs)).
Proof.
  intros Hinv. unfold nfs_mount_step. repeat break_goal; names_goal Hinv.
Qed.

Lemma nfs_step_names (e : env) (nfs : nfs_request) :
  names_inv dir file nfs ->
  names_inv dir file (fst (nfs_step e nfs))
  /\ Forall (names_ok dir file) (snd (nfs_step e nfs)).
Proof.
  intros Hinv. unfold nfs_step. repeat break_goal; names_goal Hinv.
Qed.

(** Brings in what is known of the steps and connections a handler
    makes, then takes the handler apart. *)
Ltac names_handler Hinv :=
  repeat match goal with
  | |- context [match nfs_step ?e ?n with _ => _ end] =>
      let H := fresh "Hstep" in
      pose proof (nfs_step_names e n Hinv) as H;
      destruct (nfs_step e n); cbn [fst snd] in H; destruct H
  | |- context [match nfs_pm_step ?e ?n with _ => _ end] =>
      let H := fresh "Hstep" in
      pose proof (nfs_pm_step_names e n Hinv) as H;
      destruct (nfs_pm_step e n); cbn [fst snd] in H; destruct H
  | |- context [match nfs_mount_step ?e ?n with _ => _ end] =>
      let H := fresh "Hstep" in
      pose proof (nfs_mount_step_names e n Hinv) as H;
      destruct (nfs_mount_step e n); cbn [fst snd] in H; destruct H
  | |- context [match nfs_connect ?e ?i ?p ?h with _ => _ end] =>
      let H := fresh "Hconn" in
      pose proof (nfs_connect_names e i p h) as H;
      destruct (nfs_connect e i p h); cbn [snd] in H
  | |- context [match ?x with _ => _ end] => destruct x eqn:?
  end.

Variable X : decoders.

Lemma nfs_pm_deliver_names (e : env) (nfs : nfs_request)
  (io_buf : io_buffer) :
  names_inv dir file nfs ->
  names_inv dir file (fst (nfs_pm_deliver X e nfs io_buf))
  /\ Forall (names_ok dir file) (snd (nfs_pm_deliver X e nfs io_buf)).
Proof.
  intros Hinv. unfold nfs_pm_deliver. names_handler Hinv;
    cbn [fst snd]; (split; [assumption || exact Hinv|names_calls Hinv]).
Qed.

Lemma nfs_mount_deliver_names (e : env) (nfs : nfs_request)
  (io_buf : io_buffer) :
  names_inv dir file nfs ->
  names_inv dir file (fst (nfs_mount_deliver X e nfs io_buf))
  /\ Forall (names_ok dir file) (snd (nfs_mount_deliver X e nfs io_buf)).
Proof.
  intros Hinv. unfold nfs_mount_deliver. names_handler Hinv;
    try (apply nfs_step_names; exact Hinv);
    cbn [fst snd]; (split; [assumption || exact Hinv|names_calls Hinv]).
Qed.

Lemma nfs_deliver_names (e : env) (nfs : nfs_request)
  (io_buf : io_buffer) :
  names_inv dir file nfs ->
  names_inv dir file (fst (nfs_deliver X e nfs io_buf))
  /\ Forall (names_ok dir file) (snd (nfs_deliver X e nfs io_buf)).
Proof.
  intros Hinv. unfold nfs_deliver. names_handler Hinv;
    try (apply nfs_step_names; exact Hinv);
    cbn [fst snd]; (split; [assumption || exact Hinv|names_calls Hinv]).
Qed.

Lemma nfs_handle_names (e : env) (nfs : nfs_request) (ev : event) :
  names_inv dir file nfs ->
  names_inv dir file (fst (nfs_handle X e nfs ev))
  /\ Forall (names_ok dir file) (snd (nfs_handle X e nfs ev)).
Proof.
  intros Hinv. destruct ev as [i|i io_buf|i rc]; cbn [nfs_handle].
  - destruct i; [names_goal Hinv|now apply nfs_pm_step_names
                |now apply nfs_mount_step_names|now apply nfs_step_names].
  - destruct i; [names_goal Hinv|now apply nfs_pm_deliver_names
                |now apply nfs_mount_deliver_names
                |now apply nfs_deliver_names].
  - names_goal Hinv.
Qed.

Lemma nfs_run_names (evs : list (env * event)) (nfs : nfs_request) :
  names_inv dir file nfs ->
  names_inv dir file (fst (nfs_run X nfs evs))
  /\ Forall (names_ok dir file) (snd (nfs_run X nfs evs)).
Proof.
  revert nfs; induction evs as [|[e ev] evs IH]; intros nfs Hinv.
  - cbn [nfs_run fst snd]. split; [exact Hinv|constructor].
  - cbn [nfs_run].
    destruct (nfs_handle_names e nfs ev Hinv) as [H1 H2].
    destruct (nfs_handle X e nfs ev) as [nfs1 out1]. cbn [fst snd] in *.
    destruct (IH nfs1 H1) as [H3 H4].
    destruct (nfs_run X nfs1 evs) as [nfs2 out2]. cbn [fst snd] in *.
    split; [exact H3|]. apply Forall_app. now split.
Qed.

Lemma nfs_open_names (heap : open_allocator) (e : env)
  (hs : option cstring) (u : uri) (path : cstring) (nfs : nfs_request)
  (out : list call) :
  uri_path u = Some path ->
  path_split (chars path) dir file ->
  nfs_open heap e hs u = (0, Some nfs, out) ->
  names_inv dir file nfs /\ Forall (names_ok dir file) out.
Proof.
  intros Hpath Hsplit. unfold nfs_open. rewrite Hpath.
  pose proof (split_strdup path dir file Hsplit) as Hs. cbv zeta in Hs.
  pose proof (nfs_connect_names e pm_intf (uri_port u PORTMAP_PORT)
                (uri_host u)) as Hconn.
  destruct (dirname (strdup path)) as [buf mp] eqn:Hdir.
  cbn [fst snd] in Hs.
  destruct (nfs_connect e pm_intf (uri_port u PORTMAP_PORT) (uri_host u))
    as [rc out1].
  cbn [snd] in Hconn.
  repeat break_goal; intros Heq; inversion Heq; subst.
  split.
  - unfold names_inv, string_at. cbn [path_buf mountpoint filename].
    destruct Hs as [Hf Hd]. now split.
  - apply Forall_app. split; [assumption|repeat constructor].
Qed.

(** The callback-chain driver. *)

Lemma chain_done_names (nfs : Chain.nfs_request) (rc : Z) :
  chain_names_inv dir file nfs ->
  chain_names_inv dir file (fst (Chain.nfs_done nfs rc))
  /\ Forall (chain_names_ok dir file) (snd (Chain.nfs_done nfs rc)).
Proof.
  intros Hinv. unfold Chain.nfs_done. cbn [fst snd].
  split; [exact Hinv|repeat constructor].
Qed.

Ltac chain_handler Hinv :=
  repeat match goal with
  | |- context [match Chain.nfs_done ?n ?rc with _ => _ end] =>
      let H := fresh "Hdone" in
      pose proof (chain_done_names n rc Hinv) as H;
      destruct (Chain.nfs_done n rc); cbn [fst snd] in H; destruct H
  | |- context [match ?x with _ => _ end] => destruct x eqn:?
  end;
  cbn [fst snd];
  (split;
   [ assumption || exact Hinv
   | repeat first
       [ apply Forall_nil
       | apply Forall_app; split
       | apply Forall_cons
       | assumption
       | exact I
       | exact (proj1 Hinv)
       | exact (proj2 Hinv) ] ]).

Lemma chain_callbacks_names (e : Chain.env) (nfs : Chain.nfs_request)
  (reply : oncrpc_reply) :
  chain_names_inv dir file nfs ->
  (chain_names_inv dir file
     (snd (fst (Chain.getport_mount_cb X e nfs reply)))
   /\ Forall (chain_names_ok dir file)
        (snd (Chain.getport_mount_cb X e nfs reply)))
  /\ (chain_names_inv dir file (snd (fst (Chain.mnt_cb X e nfs reply)))
      /\ Forall (chain_names_ok dir file)
           (snd (Chain.mnt_cb X e nfs reply)))
  /\ (chain_names_inv dir file (snd (fst (Chain.lookup_cb X e nfs reply)))
      /\ Forall (chain_names_ok dir file)
           (snd (Chain.lookup_cb X e nfs reply)))
  /\ (chain_names_inv dir file (snd (fst (Chain.read_cb X e nfs reply)))
      /\ Forall (chain_names_ok dir file)
           (snd (Chain.read_cb X e nfs reply)))
  /\ (chain_names_inv dir file (snd (fst (Chain.umnt_cb nfs reply)))
      /\ Forall (chain_names_ok dir file)
           (snd (Chain.umnt_cb nfs reply)))
  /\ (chain_names_inv dir file
        (snd (fst (Chain.getport_nfs_cb X e nfs reply)))
      /\ Forall (chain_names_ok dir file)
           (snd (Chain.getport_nfs_cb X e nfs reply))).
Proof.
  intros Hinv. split; [|split; [|split; [|split; [|split]]]].
  all: unfold Chain.getport_mount_cb, Chain.mnt_cb, Chain.lookup_cb,
         Chain.read_cb, Chain.umnt_cb, Chain.getport_nfs_cb.
  all: cbv beta zeta; chain_handler Hinv.
Qed.

Lemma chain_open_names (heap : open_allocator)
  (s0 : session_id -> oncrpc_session) (hs : option cstring)
  (u : uri) (path : cstring) (nfs : Chain.nfs_request)
  (out : list Chain.call) :
  uri_path u = Some path ->
  path_split (chars path) dir file ->
  Chain.nfs_open heap s0 hs u = (0, Some nfs, out) ->
  chain_names_inv dir file nfs /\ Forall (chain_names_ok dir file) out.
Proof.
  intros Hpath Hsplit. unfold Chain.nfs_open. rewrite Hpath.
  pose proof (split_strdup path dir file Hsplit) as Hs. cbv zeta in Hs.
  destruct (dirname (strdup path)) as [buf mp] eqn:Hdir.
  cbn [fst snd] in Hs.
  repeat break_goal; intros Heq; inversion Heq; subst.
  split.
  - unfold chain_names_inv, Chain.string_at.
    cbn [Chain.path_buf Chain.mountpoint Chain.filename].
    destruct Hs as [Hf Hd]. now split.
  - repeat constructor.
Qed.

End NameFacts.

(** C9, as the code has it.  Every URI path that [nfs_open] accepts
    splits at its last ['/']: the string passed to MNT and UMNT is what
    precedes that ['/'], the ['/'] itself left out (["/"] when nothing
    precedes it, and ["."] for a path without any ['/']), and the name
    passed to LOOKUP is what follows it (the whole path without any ['/']).
    This holds of every call of every run of the state-machine driver and
    of every callback of the callback-chain driver. *)
Theorem mount_and_lookup_names :
  forall (u : uri) (path : cstring),
    uri_path u = Some path ->
    exists dir file,
      path_split (chars path) dir file
      /\ (forall heap e hs nfs out X evs,
            nfs_open heap e hs u = (0, Some nfs, out) ->
            names_inv dir file nfs
            /\ Forall (names_ok dir file) (snd (nfs_run X nfs evs)))
      /\ (forall heap s0 hs nfs out,
            Chain.nfs_open heap s0 hs u = (0, Some nfs, out) ->
            chain_names_inv dir file nfs)
      /\ (forall X ce n reply,
            chain_names_inv dir file n ->
            (chain_names_inv dir file
               (snd (fst (Chain.getport_mount_cb X ce n reply)))
             /\ Forall (chain_names_ok dir file)
                  (snd (Chain.getport_mount_cb X ce n reply)))
            /\ (chain_names_inv dir file
                  (snd (fst (Chain.mnt_cb X ce n reply)))
                /\ Forall (chain_names_ok dir file)
                     (snd (Chain.mnt_cb X ce n reply)))
            /\ (chain_names_inv dir file
                  (snd (fst (Chain.lookup_cb X ce n reply)))
                /\ Forall (chain_names_ok dir file)
                     (snd (Chain.lookup_cb X ce n reply)))
            /\ (chain_names_inv dir file
                  (snd (fst (Chain.read_cb X ce n reply)))
                /\ Forall (chain_names_ok dir file)
                     (snd (Chain.read_cb X ce n reply)))
            /\ (chain_names_inv dir file (snd (fst (Chain.umnt_cb n reply)))
                /\ Forall (chain_names_ok dir file)
                     (snd (Chain.umnt_cb n reply)))
            /\ (chain_names_inv dir file
                  (snd (fst (Chain.getport_nfs_cb X ce n reply)))
                /\ Forall (chain_names_ok dir file)
                     (snd (Chain.getport_nfs_cb X ce n reply)))).
Proof.
  intros u path Hpath.
  destruct (path_split_total (chars path)) as [dir [file Hsplit]].
  exists dir, file. split; [exact Hsplit|]. split; [|split].
  - intros heap e hs nfs out X evs Hopen.
    destruct (nfs_open_names dir file heap e hs u path nfs out Hpath Hsplit
                Hopen) as [Hinv _].
    split; [exact Hinv|]. now apply nfs_run_names.
  - intros heap s0 hs nfs out Hopen.
    apply (chain_open_names dir file heap s0 hs u path nfs out Hpath Hsplit
             Hopen).
  - intros X ce n reply Hinv. now apply chain_callbacks_names.
Qed.

(** C9 at [nfs://10.0.0.1/srv/export/hello.txt]. *)
Lemma mount_and_lookup_names_sample :
  exists dir file,
    path_split (chars Scenario.path) dir file
    /\ names_inv dir file Scenario.nfs0
    /\ Forall (names_ok dir file)
         (snd (nfs_run SpecCodec.spec_decoders Scenario.nfs0
                 Scenario.happy_path)).
Proof.
  destruct (mount_and_lookup_names Scenario.the_uri Scenario.path eq_refl)
    as [dir [file [Hsplit [Hsm _]]]].
  exists dir, file. split; [exact Hsplit|].
  apply (Hsm Scenario.heap_ok Scenario.all_open None Scenario.nfs0
           (snd Scenario.opened)).
  vm_compute. reflexivity.
Defined.

(** C9 as stated fails: for [/srv/export/hello.txt] the portion up to and
    including the last ['/'] is ["/srv/export/"], while MNT and UMNT are
    passed ["/srv/export"]. *)
Lemma mnt_directory_excludes_last_slash :
  chars Scenario.path = Scenario.srv_export_slash ++ Scenario.hello_txt
  /\ ~ In SLASH Scenario.hello_txt
  /\ string_at Scenario.nfs0 (mountpoint Scenario.nfs0)
     = Scenario.srv_export
  /\ Chain.string_at Scenario.chain_reading
       (Chain.mountpoint Scenario.chain_reading)
     = Scenario.srv_export
  /\ Scenario.srv_export <> Scenario.srv_export_slash
  /\ In (mount_mnt mount_intf Scenario.srv_export)
       (snd (nfs_run SpecCodec.spec_decoders Scenario.nfs0
               Scenario.happy_path))
  /\ In (mount_umnt mount_intf Scenario.srv_export)
       (snd (nfs_run SpecCodec.spec_decoders Scenario.nfs0
               Scenario.happy_path))
  /\ existsb (fun c => match c with
                       | mount_mnt _ m | mount_umnt _ m =>
                           if list_eq_dec Z.eq_dec m
                                Scenario.srv_export_slash
                           then true else false
                       | _ => false
                       end)
       (snd (nfs_run SpecCodec.spec_decoders Scenario.nfs0
               Scenario.happy_path)) = false.
Proof.
  split; [reflexivity|].
  split; [intros H; cbn [In Scenario.hello_txt] in H; intuition discriminate|].
  split; [vm_compute; reflexivity|].
  split; [vm_compute; reflexivity|].
  split.
  { intros H. apply (f_equal (@length byte)) in H. discriminate H. }
  rewrite happy_path_calls.
  split; [do 3 right; left; reflexivity|].
  split; [do 12 right; left; reflexivity|].
  vm_compute. reflexivity.
Qed.

(* ------------------------------------------------------------------ *)
(** ** Further properties of the session layer *)

(** *** Replies *)

Lemma deliver_scan_rest (id : Z) (l : list oncrpc_pending_reply)
  (cb : oncrpc_callback_t) :
  snd (deliver_scan id l cb) = filter (fun p => negb (keyed id p)) l.
Proof.
  revert cb; induction l as [|p l IH]; intros cb; [reflexivity|].
  cbn [deliver_scan filter]. unfold keyed at 1.
  destruct (id =? reply_rpc_id p); cbn [negb].
  - apply IH.
  - specialize (IH cb). destruct (deliver_scan id l cb) as [cb' rest].
    cbn [snd] in *. now rewrite IH.
Qed.

Lemma deliver_scan_callback (id : Z) (l : list oncrpc_pending_reply)
  (cb : oncrpc_callback_t) (f : nat) :
  fst (deliver_scan id l cb) = Some f ->
  cb = Some f
  \/ exists p, In p l /\ reply_rpc_id p = id /\ callback p = Some f.
Proof.
  revert cb; induction l as [|p l IH]; intros cb; cbn [deliver_scan].
  - cbn [fst]. now left.
  - destruct (Z.eqb_spec id (reply_rpc_id p)) as [He|He]; cbn [negb].
    + intros H. apply IH in H as [H|(q & Hq & Hid & Hcb)].
      * right. exists p. split; [now left|]. now split.
      * right. exists q. split; [now right|]. now split.
    + specialize (IH cb). destruct (deliver_scan id l cb) as [cb' rest].
      cbn [fst] in *. intros H. apply IH in H as [H|(q & Hq & Hid & Hcb)].
      * now left.
      * right. exists q. split; [now right|]. now split.
Qed.

Lemma deliver_scan_no_match (id : Z) (l : list oncrpc_pending_reply)
  (cb : oncrpc_callback_t) :
  (forall p, In p l -> reply_rpc_id p <> id) ->
  deliver_scan id l cb = (cb, l).
Proof.
  induction l as [|p l IH]; intros Hno; [reflexivity|].
  cbn [deliver_scan].
  destruct (Z.eqb_spec id (reply_rpc_id p)) as [He|He]; cbn [negb].
  - exfalso. apply (Hno p); [now left|congruence].
  - rewrite IH; [reflexivity|]. intros q Hq. apply Hno. now right.
Qed.

Lemma set_pending_reply_same (s : oncrpc_session) :
  set_pending_reply s (pending_reply s) = s.
Proof. now destruct s. Qed.

Lemma set_pending_call_same (s : oncrpc_session) :
  set_pending_call s (pending_call s) = s.
Proof. now destruct s. Qed.

(** What [oncrpc_deliver] does with a record of direction REPLY. *)
Lemma deliver_reply_frame (s : oncrpc_session)
  (mark xid word4 word5 : Z) (body : list byte) :
  oncrpc_deliver s (reply_frame mark xid word4 word5 body)
  = let reply := {| reply_xid := u32 xid ; reply_state := u32 word4 ;
                    accept_state := u32 word5 ; reply_data := body |} in
    let '(cb, rest) := deliver_scan (u32 xid) (pending_reply s) None in
    match cb with
    | None => Some (Return 0, set_pending_reply s rest)
    | Some f => Some (Invoke f reply, set_pending_reply s rest)
    end.
Proof.
  unfold oncrpc_deliver, reply_frame.
  rewrite !get_int_htonl by apply u32_range.
  change (u32 ONCRPC_REPLY) with ONCRPC_REPLY.
  rewrite Z.eqb_refl. cbn [negb]. reflexivity.
Qed.

(** A session without pending replies invokes no callback. *)
Lemma deliver_nothing_pending (s : oncrpc_session) (io_buf : io_buffer)
  (o : deliver_outcome) (s' : oncrpc_session) :
  pending_reply s = [] ->
  oncrpc_deliver s io_buf = Some (o, s') ->
  s' = s /\ forall f r, o <> Invoke f r.
Proof.
  intros Hp. unfold oncrpc_deliver. rewrite Hp. cbn [deliver_scan].
  repeat break_goal; try discriminate; intros H; inversion H; subst;
    (split; [|intros f r; discriminate]);
    try reflexivity.
  all: rewrite <- Hp; apply set_pending_reply_same.
Qed.

(** X1.  A record built by [oncrpc_call_iob] (direction CALL) that reaches
    [oncrpc_deliver], on the session that built it or on any other, is
    refused with [-ENOTSUP]: the session is left as it was, whatever is
    pending on it, and no callback is invoked. *)
Theorem deliver_refuses_call_frames :
  forall (caller session : oncrpc_session) (proc_name : Z)
         (io_buf : io_buffer),
    oncrpc_deliver session (call_frame caller proc_name io_buf)
    = Some (Return (- ENOTSUP), session).
Proof.
  intros caller session proc_name io_buf.
  rewrite call_frame_payload. unfold oncrpc_deliver, call_payload.
  assert (Hm : forall x, 0 <= SET_LAST_FRAME x < 2 ^ 32)
    by (intros x; unfold SET_LAST_FRAME; apply u32_range).
  rewrite get_int_htonl by apply Hm.
  rewrite !get_int_htonl by apply u32_range.
  reflexivity.
Qed.

(** X2.  A reply whose xid is the key of no pending reply is dropped:
    [oncrpc_deliver] returns 0, invokes no callback and leaves the session
    as it was. *)
Theorem deliver_drops_unmatched_reply :
  forall (session : oncrpc_session) (mark xid rstate astate : Z)
         (body : list byte),
    (forall p, In p (pending_reply session) -> reply_rpc_id p <> u32 xid) ->
    oncrpc_deliver session (reply_frame mark xid rstate astate body)
    = Some (Return 0, session).
Proof.
  intros session mark xid rstate astate body Hno.
  rewrite deliver_reply_frame. cbv zeta.
  rewrite deliver_scan_no_match by exact Hno.
  now rewrite set_pending_reply_same.
Qed.

Lemma deliver_drops_unmatched_reply_sample :
  (forall p, In p (pending_reply Sample.session_AB) ->
             reply_rpc_id p <> u32 7)
  /\ oncrpc_deliver Sample.session_AB (reply_frame 16 7 0 0 [])
     = Some (Return 0, Sample.session_AB).
Proof.
  assert (H : forall p, In p (pending_reply Sample.session_AB) ->
                        reply_rpc_id p <> u32 7).
  { intros p Hin. vm_compute in Hin.
    destruct Hin as [<-|[<-|[]]]; vm_compute; discriminate. }
  split; [exact H|].
  exact (deliver_drops_unmatched_reply Sample.session_AB 16 7 0 0 [] H).
Defined.

(** X3.  On a record of direction REPLY, [oncrpc_deliver] unlinks every
    pending reply keyed by the record's xid and keeps the others in their
    order; the other members of the session are not written.  It invokes at
    most one callback, one that was registered under that xid, and
    otherwise returns 0.  The reply it hands to the callback holds the xid,
    the fourth and fifth words of the record as [reply_state] and
    [accept_state], and the bytes after the fifth word as data.  For an
    accepted reply laid out as in the spec (reply state 0, verifier,
    accept status, results) the member [accept_state] therefore holds the
    flavor of the verifier, and the data start at the length of the
    verifier, the accept status of the record still in them. *)
Theorem deliver_unlinks_every_match :
  forall (session : oncrpc_session) (mark xid : Z),
    (forall (word4 word5 : Z) (body : list byte),
     exists o,
       oncrpc_deliver session (reply_frame mark xid word4 word5 body)
       = Some (o, set_pending_reply session
                    (filter (fun p => negb (keyed (u32 xid) p))
                       (pending_reply session)))
       /\ (forall f r, o = Invoke f r ->
             r = {| reply_xid := u32 xid ; reply_state := u32 word4 ;
                    accept_state := u32 word5 ; reply_data := body |}
             /\ exists p, In p (pending_reply session)
                          /\ reply_rpc_id p = u32 xid
                          /\ callback p = Some f)
       /\ (forall rc, o = Return rc -> rc = 0))
    /\ (forall (verf_flavor : Z) (verf_body : list byte) (accept_stat : Z)
               (results : list byte) f r session',
          oncrpc_deliver session
            (accepted_record mark xid verf_flavor verf_body accept_stat
               results)
          = Some (Invoke f r, session') ->
          reply_state r = 0
          /\ accept_state r = u32 verf_flavor
          /\ reply_data r
             = htonl (u32 (Z.of_nat (length verf_body))) ++ verf_body
               ++ htonl (u32 accept_stat) ++ results).
Proof.
  intros session mark xid.
  assert (HA : forall (word4 word5 : Z) (body : list byte),
    exists o,
      oncrpc_deliver session (reply_frame mark xid word4 word5 body)
      = Some (o, set_pending_reply session
                   (filter (fun p => negb (keyed (u32 xid) p))
                      (pending_reply session)))
      /\ (forall f r, o = Invoke f r ->
            r = {| reply_xid := u32 xid ; reply_state := u32 word4 ;
                   accept_state := u32 word5 ; reply_data := body |}
            /\ exists p, In p (pending_reply session)
                         /\ reply_rpc_id p = u32 xid
                         /\ callback p = Some f)
      /\ (forall rc, o = Return rc -> rc = 0)).
  { intros word4 word5 body.
    rewrite deliver_reply_frame. cbv zeta.
    pose proof (deliver_scan_rest (u32 xid) (pending_reply session) None)
      as Hrest.
    pose proof (deliver_scan_callback (u32 xid) (pending_reply session)
                  None) as Hcb.
    destruct (deliver_scan (u32 xid) (pending_reply session) None)
      as [cb rest].
    cbn [fst snd] in *. subst rest.
    destruct cb as [f|].
    - eexists. split; [reflexivity|]. split.
      + intros f' r H. inversion H; subst. split; [reflexivity|].
        destruct (Hcb f' eq_refl) as [H0|H0]; [discriminate|exact H0].
      + intros rc H. discriminate.
    - eexists. split; [reflexivity|]. split.
      + intros f r H. discriminate.
      + intros rc H. now inversion H. }
  split; [exact HA|].
  intros vf vb astat results f r s' Hd.
  destruct (HA 0 vf (htonl (u32 (Z.of_nat (length vb))) ++ vb
                     ++ htonl (u32 astat) ++ results))
    as (o & Ho & Hinv & _).
  change (reply_frame mark xid 0 vf
            (htonl (u32 (Z.of_nat (length vb))) ++ vb
             ++ htonl (u32 astat) ++ results))
    with (accepted_record mark xid vf vb astat results) in Ho.
  rewrite Hd in Ho. inversion Ho; subst o.
  destruct (Hinv f r eq_refl) as [-> _]. now repeat split.
Qed.

(** X3 on a reply that reports PROG_MISMATCH (accept status 2) under an
    AUTH_NONE verifier: the callback is handed accept state 0, the flavor
    of the verifier, and finds the status in the data. *)
Lemma deliver_unlinks_every_match_sample :
  exists r,
    handed_over (accepted_record 20 7 ONCRPC_AUTH_NONE [] 2 []) = Some r
    /\ reply_state r = 0
    /\ accept_state r = 0
    /\ reply_data r = [0; 0; 0; 0; 0; 0; 0; 2].
Proof.
  destruct (oncrpc_deliver
              (set_pending_reply Sample.session7
                 [ {| callback := Some 0%nat ; reply_rpc_id := 7 |} ])
              (accepted_record 20 7 ONCRPC_AUTH_NONE [] 2 []))
    as [[[rc|f r] s']|] eqn:Hd;
    try (vm_compute in Hd; discriminate Hd).
  exists r. split.
  - unfold handed_over.
    change (frame_xid (accepted_record 20 7 ONCRPC_AUTH_NONE [] 2 []))
      with (Some 7).
    cbv beta iota. rewrite Hd. reflexivity.
  - destruct (deliver_unlinks_every_match
                (set_pending_reply Sample.session7
                   [ {| callback := Some 0%nat ; reply_rpc_id := 7 |} ])
                20 7) as [_ HB].
    destruct (HB ONCRPC_AUTH_NONE [] 2 [] f r s' Hd) as (H1 & H2 & H3).
    split; [exact H1|]. split; [exact H2|]. exact H3.
Defined.

(** *** Calls *)

(** X4.  When one of its allocations fails, [oncrpc_call_iob] returns
    [-ENOBUFS] without offering anything to the transport and without
    linking a pending call or a pending reply.  The session's xid counter
    is left alone when the call buffer or the pending reply cannot be
    allocated, but has already advanced when it is the pending call (window
    closed) that cannot: that xid is then never sent. *)
Theorem call_iob_out_of_memory :
  forall (heap : allocator) (intf : transport) (session : oncrpc_session)
         (proc_name : Z) (io_buf : io_buffer) (cb : oncrpc_callback_t),
    alloc_iob_ok heap && malloc_pending_reply_ok heap
    && (xfer_window intf || malloc_pending_call_ok heap) = false ->
    exists session',
      oncrpc_call_iob heap intf (Some session) proc_name io_buf cb
      = (- ENOBUFS, Some session', intf)
      /\ pending_call session' = pending_call session
      /\ pending_reply session' = pending_reply session
      /\ rpc_id session'
         = if alloc_iob_ok heap && malloc_pending_reply_ok heap
           then u32 (rpc_id session + 1) else rpc_id session.
Proof.
  intros heap intf session proc_name io_buf cb H.
  unfold oncrpc_call_iob.
  destruct (alloc_iob_ok heap); cbn [negb andb] in *.
  - destruct (malloc_pending_reply_ok heap); cbn [negb andb] in *.
    + apply orb_false_iff in H as [Hw Hc]. rewrite Hw, Hc. cbn [negb].
      eexists. split; [reflexivity|]. now destruct session.
    + eexists. split; [reflexivity|]. now repeat split.
  - eexists. split; [reflexivity|]. now repeat split.
Qed.

Lemma call_iob_out_of_memory_sample :
  exists session',
    oncrpc_call_iob
      {| alloc_iob_ok := true ; malloc_pending_reply_ok := true ;
         malloc_pending_call_ok := false |}
      Sample.window_closed (Some Sample.session7) 6 [0; 0; 0; 1]
      (Some Sample.cb_A)
    = (- ENOBUFS, Some session', Sample.window_closed)
    /\ pending_call session' = []
    /\ pending_reply session' = []
    /\ rpc_id session' = 8.
Proof.
  exact (call_iob_out_of_memory
           {| alloc_iob_ok := true ; malloc_pending_reply_ok := true ;
              malloc_pending_call_ok := false |}
           Sample.window_closed Sample.session7 6 [0; 0; 0; 1]
           (Some Sample.cb_A) eq_refl).
Defined.

(** X5.  Once its first two allocations have succeeded, [oncrpc_call_iob]
    advances the session's xid counter by exactly one modulo 2^32, whether
    the record is then transmitted, queued, refused by the transport or
    dropped for lack of memory; the record carries the value the counter
    had before, and the credential, verifier, program and version of the
    session are not written. *)
Theorem call_iob_consumes_one_xid :
  forall (heap : allocator) (intf : transport) (session : oncrpc_session)
         (proc_name : Z) (io_buf : io_buffer) (cb : oncrpc_callback_t),
    alloc_iob_ok heap = true ->
    malloc_pending_reply_ok heap = true ->
    exists rc session' intf',
      oncrpc_call_iob heap intf (Some session) proc_name io_buf cb
      = (rc, Some session', intf')
      /\ rpc_id session' = u32 (rpc_id session + 1)
      /\ frame_xid (call_frame session proc_name io_buf)
         = Some (u32 (rpc_id session))
      /\ credential session' = credential session
      /\ verifier session' = verifier session
      /\ prog_name session' = prog_name session
      /\ prog_vers session' = prog_vers session.
Proof.
  intros heap intf session proc_name io_buf cb Hb Hr.
  unfold oncrpc_call_iob. rewrite Hb, Hr. cbn [negb].
  destruct (xfer_window intf); cbn [negb].
  - destruct (xfer_deliver_iob intf (call_frame session proc_name io_buf))
      as [rc intf'].
    destruct (rc =? 0); do 3 eexists; (split; [reflexivity|]);
      rewrite call_frame_xid; now repeat split.
  - destruct (malloc_pending_call_ok heap); cbn [negb];
      do 3 eexists; (split; [reflexivity|]);
      rewrite call_frame_xid; now repeat split.
Qed.

Lemma call_iob_consumes_one_xid_wraps :
  exists rc session' intf',
    oncrpc_call_iob Sample.heap_ok Sample.window_open
      (Some (set_rpc_id Sample.session7 (2 ^ 32 - 1))) 6 [] None
    = (rc, Some session', intf')
    /\ rpc_id session' = 0
    /\ frame_xid (call_frame (set_rpc_id Sample.session7 (2 ^ 32 - 1)) 6 [])
       = Some (2 ^ 32 - 1).
Proof.
  destruct (call_iob_consumes_one_xid Sample.heap_ok Sample.window_open
              (set_rpc_id Sample.session7 (2 ^ 32 - 1)) 6 [] None
              eq_refl eq_refl)
    as (rc & s' & intf' & Hcall & Hid & Hx & _).
  exists rc, s', intf'. split; [exact Hcall|]. split; [exact Hid|exact Hx].
Defined.

(** X6.  With the window open, a record the transport refuses (a non-zero
    status from [xfer_deliver_iob]) is offered once and not queued for a
    later window change; [oncrpc_call_iob] returns the transport's status
    and nevertheless links a pending reply with the caller's callback, under
    the advanced xid counter. *)
Theorem refused_call_is_registered :
  forall (heap : allocator) (intf : transport) (session : oncrpc_session)
         (proc_name : Z) (io_buf : io_buffer) (cb : oncrpc_callback_t),
    alloc_iob_ok heap = true ->
    malloc_pending_reply_ok heap = true ->
    xfer_window intf = true ->
    hd 0 (script intf) <> 0 ->
    exists session' intf',
      oncrpc_call_iob heap intf (Some session) proc_name io_buf cb
      = (hd 0 (script intf), Some session', intf')
      /\ offered intf'
         = offered intf
           ++ [(call_frame session proc_name io_buf, hd 0 (script intf))]
      /\ transmitted intf' = transmitted intf
      /\ pending_call session' = pending_call session
      /\ pending_reply session'
         = {| callback := cb ;
              reply_rpc_id := u32 (rpc_id session + 1) |}
           :: pending_reply session.
Proof.
  intros heap intf session proc_name io_buf cb Hb Hr Hw Hrc.
  unfold oncrpc_call_iob. rewrite Hb, Hr, Hw. cbn [negb].
  unfold xfer_deliver_iob.
  destruct (Z.eqb_spec (hd 0 (script intf)) 0) as [He|_]; [contradiction|].
  do 2 eexists. split; [reflexivity|].
  cbn [offered pending_call pending_reply set_pending_reply set_rpc_id
       list_add rpc_id].
  split; [reflexivity|]. split; [|now split].
  unfold transmitted. cbn [offered].
  rewrite filter_app, map_app. cbn [filter snd].
  destruct (Z.eqb_spec (hd 0 (script intf)) 0) as [He|_]; [contradiction|].
  cbn [map]. now rewrite app_nil_r.
Qed.

Lemma refused_call_is_registered_sample :
  exists session' intf',
    oncrpc_call_iob Sample.heap_ok
      {| window := true ; script := [- EAGAIN] ; offered := [] |}
      (Some Sample.session7) 6 [0; 0; 0; 1] (Some Sample.cb_A)
    = (- EAGAIN, Some session', intf')
    /\ transmitted intf' = []
    /\ pending_call session' = []
    /\ pending_reply session'
       = [ {| callback := Some Sample.cb_A ; reply_rpc_id := 8 |} ].
Proof.
  destruct (refused_call_is_registered Sample.heap_ok
              {| window := true ; script := [- EAGAIN] ; offered := [] |}
              Sample.session7 6 [0; 0; 0; 1] (Some Sample.cb_A)
              eq_refl eq_refl eq_refl ltac:(discriminate))
    as (s' & intf' & Hcall & _ & Ht & Hc & Hp).
  exists s', intf'. split; [exact Hcall|]. split; [exact Ht|].
  split; [exact Hc|exact Hp].
Defined.

(** *** The queue *)

Lemma filter_partition {A} (f : A -> bool) (l : list A) :
  Permutation l (filter f l ++ filter (fun x => negb (f x)) l).
Proof.
  induction l as [|x l IH]; [constructor|].
  cbn [filter]. destruct (f x); cbn [negb app].
  - now constructor.
  - now apply Permutation_cons_app.
Qed.

(** X7.  [oncrpc_window_changed] neither loses nor duplicates a queued
    call: the calls queued before it are, up to order, the calls it had the
    transport accept together with the calls still queued after it.  It
    writes no other member of the session, and no pending reply is linked
    or unlinked. *)
Theorem window_changed_conserves_calls :
  forall (session : oncrpc_session) (intf : transport),
    exists sent,
      transmitted (snd (oncrpc_window_changed session intf))
      = transmitted intf ++ sent
      /\ Permutation (pending_call session)
           (sent ++ pending_call (fst (oncrpc_window_changed session intf)))
      /\ pending_reply (fst (oncrpc_window_changed session intf))
         = pending_reply session
      /\ rpc_id (fst (oncrpc_window_changed session intf))
         = rpc_id session.
Proof.
  intros session intf. unfold oncrpc_window_changed.
  destruct (xfer_window intf); cbn [negb].
  - rewrite window_drain_verdicts. cbn [fst snd].
    exists (map fst (filter accepted
                       (verdicts (pending_call session) (script intf)))).
    split; [apply filter_accepted_app|]. split; [|now split].
    cbn [pending_call set_pending_call].
    rewrite <- map_app.
    rewrite <- (verdicts_buffers (pending_call session) (script intf)) at 1.
    apply Permutation_map. apply filter_partition.
  - exists []. cbn [fst snd app]. rewrite app_nil_r.
    split; [reflexivity|]. now split.
Qed.

(** *** Opening and closing *)

(** X8.  [oncrpc_close_session] hands its status to [intf_shutdown] and
    leaves a session on which nothing is pending, whatever was: closing it
    again changes nothing, a window change offers nothing to the transport,
    and no record delivered afterwards invokes a callback. *)
Theorem closed_session_is_inert :
  forall (session : oncrpc_session) (rc : Z),
    exists session',
      oncrpc_close_session (Some session) rc = Some (session', rc)
      /\ idle session'
      /\ rpc_id session' = rpc_id session
      /\ (forall rc', oncrpc_close_session (Some session') rc'
                      = Some (session', rc'))
      /\ (forall intf, oncrpc_window_changed session' intf
                       = (session', intf))
      /\ (forall io_buf o session'',
            oncrpc_deliver session' io_buf = Some (o, session'') ->
            session'' = session' /\ forall f r, o <> Invoke f r).
Proof.
  intros session rc. eexists. split; [reflexivity|].
  split; [now split|]. split; [reflexivity|]. split; [reflexivity|]. split.
  - intros intf. unfold oncrpc_window_changed.
    destruct (xfer_window intf); reflexivity.
  - intros io_buf o s''. now apply deliver_nothing_pending.
Qed.

(** X9.  [oncrpc_init_session] stores the credential, the verifier, the
    program and the version, and re-initialises both lists, dropping what
    was linked to them; it does not assign the xid counter.  The first
    record built afterwards therefore carries the xid the struct held
    before, followed by direction CALL, RPC version 2, the program, the
    version, the procedure, the credential, the verifier and the
    arguments; and no record delivered before a new call invokes a
    callback. *)
Theorem init_session_resets_lists_not_xid :
  forall (session : oncrpc_session) (cred verf : oncrpc_cred)
         (prog vers : Z),
    exists session',
      oncrpc_init_session (Some session) cred verf prog vers
      = Some session'
      /\ idle session'
      /\ rpc_id session' = rpc_id session
      /\ (forall proc_name io_buf, exists mark,
            call_frame session' proc_name io_buf
            = htonl mark ++ htonl (u32 (rpc_id session))
              ++ htonl ONCRPC_CALL ++ htonl ONCRPC_VERS
              ++ htonl (u32 prog) ++ htonl (u32 vers)
              ++ htonl (u32 proc_name)
              ++ xdr_cred cred ++ xdr_cred verf ++ io_buf)
      /\ (forall io_buf o session'',
            oncrpc_deliver session' io_buf = Some (o, session'') ->
            session'' = session' /\ forall f r, o <> Invoke f r).
Proof.
  intros session cred verf prog vers. eexists. split; [reflexivity|].
  split; [now split|]. split; [reflexivity|]. split.
  - intros proc_name io_buf. eexists. rewrite call_frame_payload.
    unfold call_payload. cbn [rpc_id prog_name prog_vers credential verifier].
    reflexivity.
  - intros io_buf o s''. now apply deliver_nothing_pending.
Qed.

(* ------------------------------------------------------------------ *)
(** ** Further properties of the XDR helpers *)

Lemma xdr_pad_aligns (L : Z) : (4 | L + xdr_pad L).
Proof.
  apply Z.mod_divide; [lia|]. unfold xdr_pad.
  rewrite Z.add_mod by lia. rewrite Z.mod_mod by lia.
  pose proof (Z.mod_pos_bound L 4 ltac:(lia)) as Hb.
  assert (H : L mod 4 = 0 \/ L mod 4 = 1 \/ L mod 4 = 2 \/ L mod 4 = 3)
    by lia.
  destruct H as [E|[E|[E|E]]]; rewrite E; reflexivity.
Qed.

Lemma xdr_pad_range (L : Z) : 0 <= xdr_pad L < 4.
Proof. unfold xdr_pad. apply Z.mod_pos_bound. lia. Qed.

Lemma xdr_string_aligned (s : list byte) :
  (4 | Z.of_nat (length (xdr_string s))).
Proof.
  unfold xdr_string. cbv zeta.
  rewrite !length_app, repeat_length, htonl_length.
  pose proof (xdr_pad_range (Z.of_nat (length s))) as Hr.
  rewrite !Nat2Z.inj_add, Z2Nat.id by lia.
  apply Z.divide_add_r; [now exists 1|apply xdr_pad_aligns].
Qed.

Lemma xdr_intarray_aligned (size : nat) (array : list Z) :
  (4 | Z.of_nat (length (xdr_intarray size array))).
Proof.
  unfold xdr_intarray.
  rewrite length_app, htonl_length.
  rewrite (flat_map_words_length (fun i => u32 (nth i array 0))).
  rewrite length_seq. exists (Z.of_nat size + 1). lia.
Qed.

Lemma aligned_app (a b : list byte) :
  (4 | Z.of_nat (length a)) -> (4 | Z.of_nat (length b)) ->
  (4 | Z.of_nat (length (a ++ b))).
Proof.
  intros Ha Hb. rewrite length_app, Nat2Z.inj_add.
  now apply Z.divide_add_r.
Qed.

Lemma htonl_aligned (v : Z) : (4 | Z.of_nat (length (htonl v))).
Proof. rewrite htonl_length. now exists 1. Qed.

Lemma xdr_cred_aligned (c : oncrpc_cred) :
  (4 | Z.of_nat (length (xdr_cred c))).
Proof.
  unfold xdr_cred.
  do 2 (apply aligned_app; [apply htonl_aligned|]).
  destruct (cred_flavor c =? ONCRPC_AUTH_NONE);
    [apply Z.divide_0_r|].
  destruct (cred_flavor c =? ONCRPC_AUTH_SYS); [|apply Z.divide_0_r].
  apply aligned_app; [apply htonl_aligned|].
  apply aligned_app; [apply xdr_string_aligned|].
  do 2 (apply aligned_app; [apply htonl_aligned|]).
  apply xdr_intarray_aligned.
Qed.

(** X10.  The size [oncrpc_iob_add_cred] returns is the number of bytes it
    appended to the buffer, for every credential; that number is a multiple
    of four; it is 0, with the buffer untouched, for a NULL credential, and
    8 (flavor and length only, no body) for every flavor other than
    AUTH_SYS. *)
Theorem add_cred_counts_its_bytes :
  forall (cred : option oncrpc_cred) (io_buf : io_buffer),
    exists added,
      oncrpc_iob_add_cred cred io_buf
      = (Z.of_nat (length added), io_buf ++ added)
      /\ (4 | Z.of_nat (length added))
      /\ match cred with
         | None => added = []
         | Some c =>
             firstn 8 added
             = htonl (u32 (cred_flavor c)) ++ htonl (u32 (cred_length c))
             /\ (cred_flavor c <> ONCRPC_AUTH_SYS -> length added = 8%nat)
         end.
Proof.
  intros [c|] io_buf.
  - exists (xdr_cred c). split; [apply add_cred_appends|].
    split; [apply xdr_cred_aligned|]. split.
    + unfold xdr_cred. rewrite app_assoc.
      rewrite firstn_app, firstn_all2
        by (rewrite length_app, !htonl_length; cbn; lia).
      rewrite length_app, !htonl_length. cbn [Nat.add Nat.sub firstn].
      now rewrite app_nil_r.
    + intros Hf. unfold xdr_cred.
      destruct (cred_flavor c =? ONCRPC_AUTH_NONE); [reflexivity|].
      destruct (Z.eqb_spec (cred_flavor c) ONCRPC_AUTH_SYS);
        [contradiction|reflexivity].
  - exists []. cbn [oncrpc_iob_add_cred]. unfold iob_ret.
    rewrite app_nil_r. split; [reflexivity|].
    split; [apply Z.divide_0_r|reflexivity].
Qed.

(** X11.  [oncrpc_iob_get_cred] reads back the header that
    [oncrpc_iob_add_cred] wrote: whatever follows the credential in the
    buffer, it returns 8, sets the flavor and the length to the ones written
    (modulo 2^32), leaves the other members of the destination alone, and
    leaves the body of the credential, which it does not skip, at the front
    of the buffer. *)
Theorem get_cred_reads_back_header :
  forall (c dest : oncrpc_cred) (rest : io_buffer),
    exists body dest',
      snd (oncrpc_iob_add_cred (Some c) [])
      = htonl (u32 (cred_flavor c)) ++ htonl (u32 (cred_length c)) ++ body
      /\ oncrpc_iob_get_cred
           (snd (oncrpc_iob_add_cred (Some c) []) ++ rest) dest
         = Some (8, dest', body ++ rest)
      /\ cred_flavor dest' = u32 (cred_flavor c)
      /\ cred_length dest' = u32 (cred_length c)
      /\ (stamp dest', hostname dest', uid dest', gid dest',
          aux_gid_len dest', aux_gid dest')
         = (stamp dest, hostname dest, uid dest, gid dest,
            aux_gid_len dest, aux_gid dest)
      /\ (cred_flavor c = ONCRPC_AUTH_NONE -> body = []).
Proof.
  intros c dest rest.
  rewrite (add_cred_appends c []). cbn [snd app].
  unfold xdr_cred.
  match goal with
  | |- context [htonl ?a ++ htonl ?b ++ ?t] => set (body := t)
  end.
  exists body. eexists. split; [reflexivity|]. split.
  - unfold oncrpc_iob_get_cred. rewrite <- !app_assoc.
    rewrite !get_int_htonl by apply u32_range. reflexivity.
  - cbn [cred_flavor cred_length stamp hostname uid gid aux_gid_len
         aux_gid].
    split; [reflexivity|]. split; [reflexivity|]. split; [reflexivity|].
    intros Hf. subst body. now rewrite Hf.
Qed.

Lemma clear_set_last_frame (n : Z) :
  0 <= n <= 2 ^ 31 - 1 ->
  GET_FRAME_SIZE (Z.lor 0x80000000 n) = n
  /\ Z.testbit (Z.lor 0x80000000 n) 31 = true.
Proof.
  intros Hn.
  assert (H31 : Z.testbit n 31 = false).
  { apply Z.testbit_false; [lia|]. rewrite Z.div_small by lia. reflexivity. }
  split.
  - unfold GET_FRAME_SIZE. change (Z.shiftl 1 31) with (2 ^ 31).
    change 0x80000000 with (2 ^ 31).
    apply Z.bits_inj'. intros m Hm.
    rewrite Z.land_spec, Z.lor_spec, Z.lnot_spec by lia.
    rewrite Z.pow2_bits_eqb by lia.
    destruct (Z.eqb_spec 31 m) as [<-|Hne]; cbn [orb negb andb].
    + now rewrite H31.
    + now rewrite andb_true_r.
  - rewrite Z.lor_spec. reflexivity.
Qed.

(** X12.  The record mark of a record built by [oncrpc_call_iob] reads back
    through [GET_FRAME_SIZE], the macro [oncrpc_deliver] applies to the
    first word of a record, as the number of bytes that follow the mark,
    and has the last-fragment bit set, as long as fewer than 2^31 bytes
    follow. *)
Theorem frame_size_round_trip :
  forall (session : oncrpc_session) (proc_name : Z) (io_buf : io_buffer),
    iob_len (call_frame session proc_name io_buf) - 4 <= 2 ^ 31 - 1 ->
    exists mark payload,
      oncrpc_iob_get_int (call_frame session proc_name io_buf)
      = Some (mark, payload)
      /\ GET_FRAME_SIZE mark = iob_len payload
      /\ Z.testbit mark 31 = true.
Proof.
  intros session proc_name io_buf.
  rewrite call_frame_payload.
  set (P := call_payload session proc_name io_buf).
  unfold iob_len at 1. rewrite length_app, htonl_length.
  intros Hlen.
  assert (Hn : 0 <= iob_len P <= 2 ^ 31 - 1) by (unfold iob_len; lia).
  exists (SET_LAST_FRAME (u32 (iob_len P))), P.
  split.
  - apply get_int_htonl. unfold SET_LAST_FRAME. apply u32_range.
  - rewrite set_last_frame_small by exact Hn.
    now apply clear_set_last_frame.
Qed.

Lemma frame_size_round_trip_sample :
  exists mark payload,
    oncrpc_iob_get_int Sample.frame_A = Some (mark, payload)
    /\ GET_FRAME_SIZE mark = iob_len payload
    /\ Z.testbit mark 31 = true.
Proof.
  apply (frame_size_round_trip Sample.session7 6 [0; 0; 0; 1]).
  vm_compute. discriminate.
Defined.

Lemma nth_seq_firstn (l : list Z) (n : nat) :
  (n <= length l)%nat ->
  map (fun i => nth i l 0) (seq 0 n) = firstn n l.
Proof.
  revert n; induction l as [|a l IH]; intros n Hn.
  - cbn [length] in Hn. assert (n = 0%nat) by lia. now subst.
  - destruct n as [|n]; [reflexivity|].
    cbn [seq map firstn nth]. f_equal.
    rewrite <- seq_shift, map_map. cbn [nth].
    apply IH. cbn [length] in Hn. lia.
Qed.

Lemma words_length (l : list Z) :
  length (flat_map (fun v => htonl (u32 v)) l) = (4 * length l)%nat.
Proof.
  induction l as [|x l IH]; [reflexivity|].
  cbn [flat_map length]. rewrite length_app, IH, htonl_length. lia.
Qed.

(** X13.  For an array that has at least [size] elements,
    [oncrpc_iob_add_intarray] appends the count [size] as one big-endian
    word, then the first [size] elements in order, one big-endian word
    each, and returns the number of bytes appended, [4 * (size + 1)]. *)
Theorem add_intarray_layout :
  forall (size : nat) (array : list Z) (io_buf : io_buffer),
    (size <= length array)%nat ->
    oncrpc_iob_add_intarray size array io_buf
    = ((Z.of_nat size + 1) * 4,
       io_buf ++ htonl (u32 (Z.of_nat size))
       ++ flat_map (fun v => htonl (u32 v)) (firstn size array))
    /\ iob_len (snd (oncrpc_iob_add_intarray size array io_buf))
       = iob_len io_buf + (Z.of_nat size + 1) * 4.
Proof.
  intros size array io_buf Hsize.
  assert (Hw : flat_map (fun i => htonl (u32 (nth i array 0))) (seq 0 size)
               = flat_map (fun v => htonl (u32 v)) (firstn size array)).
  { rewrite <- (nth_seq_firstn array size Hsize).
    rewrite !flat_map_concat_map, map_map. reflexivity. }
  pose proof (add_intarray_appends size array io_buf) as H.
  unfold xdr_intarray in H. rewrite Hw in H.
  assert (Hl : Z.of_nat
                 (length (htonl (u32 (Z.of_nat size))
                          ++ flat_map (fun v => htonl (u32 v))
                               (firstn size array)))
               = (Z.of_nat size + 1) * 4).
  { rewrite length_app, htonl_length.
    rewrite words_length, length_firstn. lia. }
  rewrite Hl in H. split; [exact H|].
  rewrite H. cbn [snd]. unfold iob_len. rewrite length_app.
  rewrite Nat2Z.inj_add. unfold byte in *. rewrite Hl. reflexivity.
Qed.

Lemma add_intarray_layout_sample :
  oncrpc_iob_add_intarray 2 [10; 20; 30] []
  = (12, [0; 0; 0; 2; 0; 0; 0; 10; 0; 0; 0; 20]).
Proof.
  destruct (add_intarray_layout 2 [10; 20; 30] [] ltac:(cbn; lia))
    as [H _].
  rewrite H. vm_compute. reflexivity.
Defined.

(* ------------------------------------------------------------------ *)
(** ** Further properties of the state-machine driver *)

Ltac eqb_hyps :=
  repeat match goal with
  | H : negb _ = true |- _ => apply negb_true_iff in H
  | H : negb _ = false |- _ => apply negb_false_iff in H
  | H : (_ =? _) = true |- _ => apply Z.eqb_eq in H
  | H : (_ =? _) = false |- _ => apply Z.eqb_neq in H
  end.

(** X14.  [nfs_connect] opens no socket and returns [-EINVAL] when the
    host name is NULL or when the port, taken as the 16-bit value it is
    passed as, is 0 (so for 65536 as for 0).  Otherwise it opens exactly
    one socket, to that 16-bit port, from a local port between 1 and 1023,
    and returns what [xfer_open_named_socket] returns. *)
Theorem nfs_connect_privileged_port :
  forall (e : env) (intf : intf_id) (port : Z) (host : option cstring),
    0 <= rand e ->
    (exists h lp,
        host = Some h /\ 1 <= port mod 2 ^ 16 <= 65535
        /\ nfs_connect e intf port host
           = (rc_open_named_socket e,
              [ xfer_open_named_socket intf (port mod 2 ^ 16) h lp ])
        /\ 1 <= lp <= 1023)
    \/ ((host = None \/ port mod 2 ^ 16 = 0)
        /\ nfs_connect e intf port host = (- EINVAL, [])).
Proof.
  intros e intf port host Hrand. unfold nfs_connect.
  destruct host as [h|]; [|right; split; [now left|reflexivity]].
  destruct (Z.eqb_spec (port mod 2 ^ 16) 0) as [Hp|Hp].
  - right. split; [now right|reflexivity].
  - left. exists h, (1 + Z.rem (rand e) 1023).
    pose proof (Z.mod_pos_bound port (2 ^ 16) ltac:(lia)) as Hb.
    pose proof (Z.rem_bound_pos (rand e) 1023 Hrand ltac:(lia)) as Hr.
    split; [reflexivity|]. split; [lia|]. split; [reflexivity|lia].
Qed.

Lemma nfs_connect_privileged_port_sample :
  (exists h lp,
      Some Scenario.host = Some h /\ 1 <= (65536 + 635) mod 2 ^ 16 <= 65535
      /\ nfs_connect Scenario.all_open mount_intf (65536 + 635)
           (Some Scenario.host)
         = (rc_open_named_socket Scenario.all_open,
            [ xfer_open_named_socket mount_intf ((65536 + 635) mod 2 ^ 16)
                h lp ])
      /\ 1 <= lp <= 1023)
  \/ ((Some Scenario.host = None \/ (65536 + 635) mod 2 ^ 16 = 0)
      /\ nfs_connect Scenario.all_open mount_intf (65536 + 635)
           (Some Scenario.host) = (- EINVAL, [])).
Proof.
  apply nfs_connect_privileged_port. vm_compute. discriminate.
Defined.

(** The request [nfs_open] creates starts in the three NONE states. *)
Lemma nfs_open_initial_states (heap : open_allocator)
  (e : env) (hostname_setting : option cstring) (u : uri) (rc : Z)
  (nfs : nfs_request) (out : list call) :
  nfs_open heap e hostname_setting u = (rc, Some nfs, out) ->
  pm_state nfs = 0 /\ mount_state nfs = 0 /\ nfs_state nfs = 0.
Proof.
  unfold nfs_open. intros Hopen.
  repeat break_in Hopen; inversion Hopen; subst. now repeat split.
Qed.

(** X15.  [nfs_open] attaches the request to the parent interface exactly
    when it returns 0.  It then has opened one socket, from the portmap
    interface to the URI's port (111 when the URI has none), and the request
    starts with its three states at their NONE value and the file offset at
    0.  When it returns an error no request is kept and nothing is
    attached; a URI without path or without host gives [-EINVAL] before
    anything is allocated or opened. *)
Theorem nfs_open_attaches_only_on_success :
  forall (heap : open_allocator) (e : env)
         (hostname_setting : option cstring) (u : uri),
    exists rc nfs out,
      nfs_open heap e hostname_setting u = (rc, nfs, out)
      /\ (rc = 0 ->
          exists n h lp,
            nfs = Some n /\ uri_host u = Some h
            /\ out = [ xfer_open_named_socket pm_intf
                         (uri_port u PORTMAP_PORT mod 2 ^ 16) h lp ;
                       intf_plug_plug xfer ]
            /\ pm_state n = NFS_PORTMAP_NONE
            /\ mount_state n = NFS_MOUNT_NONE
            /\ nfs_state n = NFS_NONE
            /\ file_offset n = 0
            /\ nfs_uri n = u)
      /\ (rc <> 0 -> nfs = None /\ ~ In (intf_plug_plug xfer) out)
      /\ (uri_path u = None \/ uri_host u = None ->
          rc = - EINVAL /\ out = []).
Proof.
  intros heap e hs u.
  destruct (nfs_open heap e hs u) as [[rc nfs] out] eqn:Hopen.
  exists rc, nfs, out. split; [reflexivity|].
  unfold nfs_open, nfs_connect in Hopen.
  destruct (uri_path u) as [path|] eqn:Hpath;
    [destruct (uri_host u) as [host|] eqn:Hhost|].
  2,3: inversion Hopen; subst;
    (split; [discriminate|]);
    (split; [intros _; split; [reflexivity|intros []]|]);
    intros _; now split.
  destruct (uri_port u PORTMAP_PORT mod 2 ^ 16 =? 0) eqn:Hport.
  all: repeat break_in Hopen; eqb_hyps; inversion Hopen; subst; clear Hopen.
  all: try match goal with
           | H : - EINVAL = 0 |- _ => exfalso; vm_compute in H; discriminate H
           end.
  all: split;
    [ intros H0; try (exfalso; vm_compute in H0; discriminate H0);
      try contradiction;
      do 3 eexists; cbn [app];
      repeat match goal with |- _ /\ _ => split end; reflexivity
    | split;
      [ intros H0;
        first
          [ exfalso; apply H0; reflexivity
          | split; [reflexivity|];
            intros Hin; cbn [In] in Hin;
            repeat match type of Hin with
                   | _ \/ _ => destruct Hin as [Hin|Hin]; [discriminate Hin|]
                   end;
            exact Hin ]
      | intros [H1|H1]; congruence ] ].
Qed.

(** X16.  A call helper that returns [-EAGAIN] to [nfs_pm_step],
    [nfs_mount_step] (MNT) or [nfs_step] leaves the request exactly as it
    was and shuts nothing down: the state is not advanced, so the same call
    is made again on the next window change. *)
Theorem step_retries_on_eagain :
  forall (X : decoders) (e : env) (nfs : nfs_request) (intf : intf_id),
    rc_portmap_getport e = - EAGAIN ->
    rc_mount_mnt e = - EAGAIN ->
    rc_nfs_lookup e = - EAGAIN ->
    rc_nfs_read e = - EAGAIN ->
    mount_state nfs <> NFS_MOUNT_UMNT ->
    fst (nfs_handle X e nfs (window_changed intf)) = nfs
    /\ filter is_shutdown (snd (nfs_handle X e nfs (window_changed intf)))
       = []
    /\ nfs_handle X e (fst (nfs_handle X e nfs (window_changed intf)))
         (window_changed intf)
       = nfs_handle X e nfs (window_changed intf).
Proof.
  intros X e nfs intf Hg Hm Hl Hr Hu.
  assert (H : fst (nfs_handle X e nfs (window_changed intf)) = nfs
              /\ filter is_shutdown
                   (snd (nfs_handle X e nfs (window_changed intf))) = []).
  { destruct intf; cbn [nfs_handle];
      unfold nfs_pm_step, nfs_mount_step, nfs_step;
      rewrite ?Hg, ?Hm, ?Hl, ?Hr, ?Z.eqb_refl;
      try (destruct (Z.eqb_spec (mount_state nfs) NFS_MOUNT_UMNT);
           [contradiction|]);
      repeat break_goal; now split. }
  destruct H as [H1 H2]. split; [exact H1|]. split; [exact H2|].
  now rewrite H1.
Qed.

Lemma step_retries_on_eagain_sample :
  fst (nfs_handle SpecCodec.spec_decoders busy Scenario.nfs0
         (window_changed pm_intf)) = Scenario.nfs0
  /\ filter is_shutdown
       (snd (nfs_handle SpecCodec.spec_decoders busy Scenario.nfs0
               (window_changed pm_intf))) = []
  /\ nfs_handle SpecCodec.spec_decoders busy
       (fst (nfs_handle SpecCodec.spec_decoders busy Scenario.nfs0
               (window_changed pm_intf)))
       (window_changed pm_intf)
     = nfs_handle SpecCodec.spec_decoders busy Scenario.nfs0
         (window_changed pm_intf).
Proof.
  apply step_retries_on_eagain; try reflexivity.
  vm_compute. discriminate.
Defined.

(** X17.  UMNT has no retry: in state [NFS_MOUNT_UMNT], whatever non-zero
    status [mount_umnt] returns, [-EAGAIN] included, [nfs_mount_step] ends
    the fetch by shutting the four interfaces down with that status. *)
Theorem umnt_is_not_retried :
  forall (e : env) (nfs : nfs_request),
    mount_state nfs = NFS_MOUNT_UMNT ->
    window_of e mount_intf = true ->
    rc_mount_umnt e <> 0 ->
    nfs_mount_step e nfs
    = (nfs,
       mount_umnt mount_intf (string_at nfs (mountpoint nfs))
       :: map (fun i => intf_shutdown i (rc_mount_umnt e)) interfaces).
Proof.
  intros e nfs Hs Hw Hrc. unfold nfs_mount_step.
  rewrite Hw, Hs. cbn [negb].
  change (NFS_MOUNT_UMNT =? NFS_MOUNT_NONE) with false.
  change (NFS_MOUNT_UMNT =? NFS_MOUNT_UMNT) with true. cbn iota.
  destruct (Z.eqb_spec (rc_mount_umnt e) 0); [contradiction|]. cbn [negb].
  unfold nfs_done. rewrite nfs_done_status_nonzero by exact Hrc.
  reflexivity.
Qed.

Lemma umnt_is_not_retried_sample :
  nfs_mount_step busy
    (set_mount_state (set_nfs_state Scenario.reading NFS_CLOSED)
       NFS_MOUNT_UMNT)
  = (set_mount_state (set_nfs_state Scenario.reading NFS_CLOSED)
       NFS_MOUNT_UMNT,
     mount_umnt mount_intf
       (string_at
          (set_mount_state (set_nfs_state Scenario.reading NFS_CLOSED)
             NFS_MOUNT_UMNT)
          (mountpoint
             (set_mount_state (set_nfs_state Scenario.reading NFS_CLOSED)
                NFS_MOUNT_UMNT)))
     :: map (fun i => intf_shutdown i (rc_mount_umnt busy)) interfaces).
Proof.
  apply umnt_is_not_retried; try reflexivity.
  vm_compute. discriminate.
Defined.

(** X18.  A record the driver cannot use ends the fetch with [-EPROTO]: when
    the decoded reply has a non-zero accept state, or when it arrives on an
    interface whose state machine awaits no reply, the handler leaves the
    request as it was and shuts the four interfaces down with [-EPROTO]. *)
Theorem unusable_reply_is_protocol_error :
  forall (X : decoders) (e : env) (nfs : nfs_request) (intf : intf_id)
         (sid : session_id) (io_buf : io_buffer),
    session_of intf = Some sid ->
    accept_state (oncrpc_get_reply X sid (local_reply e) io_buf) <> 0
    \/ awaits nfs intf = false ->
    nfs_handle X e nfs (deliver intf io_buf)
    = (nfs, map (fun i => intf_shutdown i (- EPROTO)) interfaces).
Proof.
  intros X e nfs intf sid io_buf Hsid H.
  assert (Hd : nfs_done nfs (- EPROTO)
               = map (fun i => intf_shutdown i (- EPROTO)) interfaces).
  { unfold nfs_done. rewrite nfs_done_status_nonzero by discriminate.
    reflexivity. }
  destruct intf; inversion Hsid; subst sid; cbn [nfs_handle];
    unfold nfs_pm_deliver, nfs_mount_deliver, nfs_deliver;
    match goal with
    | |- context [accept_state ?r =? 0] =>
        destruct (Z.eqb_spec (accept_state r) 0) as [Ha|Ha]
    end; cbn [negb]; try (rewrite Hd; reflexivity);
    (destruct H as [H|H]; [contradiction|]);
    cbn [awaits] in H; apply orb_false_iff in H as [H1 H2];
    rewrite H1, H2; rewrite Hd; reflexivity.
Qed.

Lemma unusable_reply_is_protocol_error_sample :
  nfs_handle SpecCodec.spec_decoders Scenario.all_open Scenario.nfs0
    (deliver nfs_intf Scenario.lookup_reply)
  = (Scenario.nfs0, map (fun i => intf_shutdown i (- EPROTO)) interfaces).
Proof.
  apply (unusable_reply_is_protocol_error SpecCodec.spec_decoders
           Scenario.all_open Scenario.nfs0 nfs_intf nfs_session
           Scenario.lookup_reply eq_refl).
  right. reflexivity.
Defined.

(** *** Data and offsets *)

Lemma nfs_done_no_data (nfs : nfs_request) (rc : Z) :
  filter is_data (nfs_done nfs rc) = [].
Proof. reflexivity. Qed.

Lemma nfs_pm_step_no_data (e : env) (nfs : nfs_request) :
  filter is_data (snd (nfs_pm_step e nfs)) = [].
Proof. unfold nfs_pm_step. repeat break_goal; reflexivity. Qed.

Lemma nfs_mount_step_no_data (e : env) (nfs : nfs_request) :
  filter is_data (snd (nfs_mount_step e nfs)) = [].
Proof. unfold nfs_mount_step. repeat break_goal; reflexivity. Qed.

Lemma nfs_step_no_data (e : env) (nfs : nfs_request) :
  filter is_data (snd (nfs_step e nfs)) = [].
Proof. unfold nfs_step. repeat break_goal; reflexivity. Qed.

Lemma nfs_connect_no_data (e : env) (i : intf_id) (p : Z)
  (h : option cstring) :
  filter is_data (snd (nfs_connect e i p h)) = [].
Proof.
  unfold nfs_connect. destruct h; [|reflexivity].
  destruct (p mod 2 ^ 16 =? 0); reflexivity.
Qed.

Lemma nfs_pm_deliver_no_data (X : decoders) (e : env) (nfs : nfs_request)
  (io_buf : io_buffer) :
  filter is_data (snd (nfs_pm_deliver X e nfs io_buf)) = [].
Proof.
  unfold nfs_pm_deliver.
  repeat match goal with
  | |- context [nfs_connect ?e ?i ?p ?h] =>
      pose proof (nfs_connect_no_data e i p h);
      destruct (nfs_connect e i p h)
  | |- context [nfs_pm_step ?e ?n] =>
      pose proof (nfs_pm_step_no_data e n); destruct (nfs_pm_step e n)
  | _ => break_goal
  end;
  cbn [snd] in *; rewrite ?filter_app;
  repeat match goal with
  | H : filter is_data _ = [] |- _ => rewrite H; clear H
  end; reflexivity.
Qed.

(** What [nfs_mount_deliver] and [nfs_deliver] do outside the READ
    branch. *)
Lemma nfs_mount_deliver_no_data (X : decoders) (e : env) (nfs : nfs_request)
  (io_buf : io_buffer) :
  filter is_data (snd (nfs_mount_deliver X e nfs io_buf)) = [].
Proof.
  unfold nfs_mount_deliver, nfs_step.
  repeat break_goal; reflexivity.
Qed.

Lemma filter_data_seeks (nfs : nfs_request) (rr : nfs_read_reply)
  (d : call) (rest : list call) :
  is_data d = true ->
  filter is_data rest = [] ->
  filter is_data
    ((if file_offset nfs =? 0
      then [ xfer_seek xfer (off_t (filesize rr)) ; xfer_seek xfer 0 ]
      else [])
     ++ [d] ++ rest) = [d].
Proof.
  intros Hd Hrest. rewrite !filter_app, Hrest.
  destruct (file_offset nfs =? 0); cbn [filter is_data app]; now rewrite Hd.
Qed.

(** X19.  The driver hands data to the downstream sink from [nfs_deliver]
    in state [NFS_READ_SENT], on a reply with accept state 0 that decodes
    as a READ reply, and from nowhere else.  Such a reply gives exactly one
    [xfer_deliver_raw], with the data and the length of the decoded reply,
    and moves the file offset by the reply's count modulo 2^64, whatever
    the downstream sink and the next call then answer.  Conversely, no
    window change, no close, no record on the portmap or mount interface,
    and no record on the NFS interface in another state, with another
    accept state or failing to decode, produces an [xfer_deliver_raw]. *)
Theorem data_only_from_read_reply :
  forall (X : decoders) (e : env) (nfs : nfs_request) (ev : event),
    (forall io_buf rr,
       ev = deliver nfs_intf io_buf ->
       nfs_state nfs = NFS_READ_SENT ->
       accept_state (oncrpc_get_reply X nfs_session (local_reply e) io_buf)
       = 0 ->
       nfs_get_read_reply X (local_read_reply e)
         (oncrpc_get_reply X nfs_session (local_reply e) io_buf)
       = (0, rr) ->
       filter is_data (snd (nfs_handle X e nfs ev))
       = [ xfer_deliver_raw xfer (data rr) (data_len rr) ]
       /\ file_offset (fst (nfs_handle X e nfs ev))
          = u64 (file_offset nfs + count rr))
    /\ (filter is_data (snd (nfs_handle X e nfs ev)) <> [] ->
        exists io_buf rr,
          ev = deliver nfs_intf io_buf
          /\ nfs_state nfs = NFS_READ_SENT
          /\ accept_state
               (oncrpc_get_reply X nfs_session (local_reply e) io_buf) = 0
          /\ nfs_get_read_reply X (local_read_reply e)
               (oncrpc_get_reply X nfs_session (local_reply e) io_buf)
             = (0, rr)).
Proof.
  intros X e nfs ev. split.
  - intros io_buf rr -> Hs Ha Hrr. cbn [nfs_handle].
    rewrite (nfs_deliver_read X e nfs io_buf rr Hs Ha Hrr). cbv zeta.
    destruct (negb (rc_xfer_deliver_raw e =? 0));
      [|destruct (eof rr =? 0)]; cbn [fst snd].
    + split; [|reflexivity].
      apply filter_data_seeks; [reflexivity|apply nfs_done_no_data].
    + split.
      * apply filter_data_seeks; [reflexivity|apply nfs_step_no_data].
      * unfold nfs_step. repeat break_goal; reflexivity.
    + split.
      * apply filter_data_seeks; [reflexivity|].
        cbn [filter is_data]. apply nfs_mount_step_no_data.
      * unfold nfs_mount_step. repeat break_goal; reflexivity.
  - intros Hdata.
    destruct ev as [i|i io_buf|i rc]; cbn [nfs_handle] in *.
    + exfalso. apply Hdata. destruct i; cbn [snd filter];
        [reflexivity|apply nfs_pm_step_no_data|apply nfs_mount_step_no_data
        |apply nfs_step_no_data].
    + destruct i.
      * exfalso. now apply Hdata.
      * exfalso. apply Hdata. apply nfs_pm_deliver_no_data.
      * exfalso. apply Hdata. apply nfs_mount_deliver_no_data.
      * exists io_buf.
        destruct (Z.eqb_spec
                    (accept_state
                       (oncrpc_get_reply X nfs_session (local_reply e)
                          io_buf)) 0) as [Ha|Ha].
        2:{ exfalso. apply Hdata. unfold nfs_deliver.
            destruct (Z.eqb_spec
                        (accept_state
                           (oncrpc_get_reply X nfs_session (local_reply e)
                              io_buf)) 0); [contradiction|reflexivity]. }
        destruct (Z.eqb_spec (nfs_state nfs) NFS_READ_SENT) as [Hs|Hs].
        2:{ exfalso. apply Hdata. unfold nfs_deliver, nfs_step.
            rewrite Ha. cbn [negb Z.eqb].
            destruct (Z.eqb_spec (nfs_state nfs) NFS_READ_SENT);
              [contradiction|].
            repeat break_goal; reflexivity. }
        destruct (nfs_get_read_reply X (local_read_reply e)
                    (oncrpc_get_reply X nfs_session (local_reply e) io_buf))
          as [rc rr] eqn:Hrr.
        destruct (Z.eqb_spec rc 0) as [->|Hrc].
        2:{ exfalso. apply Hdata. unfold nfs_deliver.
            rewrite Ha, Hs, Hrr. cbn [negb Z.eqb].
            change (NFS_READ_SENT =? NFS_LOOKUP_SENT) with false.
            change (NFS_READ_SENT =? NFS_READ_SENT) with true. cbn iota.
            destruct (Z.eqb_spec rc 0); [contradiction|reflexivity]. }
        exists rr. now repeat split.
    + exfalso. now apply Hdata.
Qed.

(** X19 at the sample request, on a READ reply of count 1300 that carries
    two bytes. *)
Lemma data_only_from_read_reply_sample :
  filter is_data
    (snd (nfs_handle SpecCodec.spec_decoders Scenario.all_open
            Scenario.reading (deliver nfs_intf Scenario.read_reply_short)))
  = [ xfer_deliver_raw xfer [104; 105] 2 ]
  /\ file_offset
       (fst (nfs_handle SpecCodec.spec_decoders Scenario.all_open
               Scenario.reading (deliver nfs_intf Scenario.read_reply_short)))
     = 1300.
Proof.
  destruct (data_only_from_read_reply SpecCodec.spec_decoders
              Scenario.all_open Scenario.reading
              (deliver nfs_intf Scenario.read_reply_short)) as [H _].
  exact (H Scenario.read_reply_short
           {| filesize := 3000 ; count := 1300 ; eof := 0 ; data_len := 2 ;
              data := [104; 105] |}
           eq_refl ltac:(vm_compute; reflexivity)
           ltac:(vm_compute; reflexivity) ltac:(vm_compute; reflexivity)).
Defined.

(** X20.  After a READ reply that is not the last one, the next READ asks
    for the offset moved by the reply's [count] (not by the length of the
    data handed downstream), with the same file handle and size
    [NFS_RSIZE]: at once when the NFS window is open, and otherwise from
    [nfs_step] on the window change that finds it open, the request
    waiting in state [NFS_READ] meanwhile. *)
Theorem next_read_follows_count :
  forall (X : decoders) (e : env) (nfs : nfs_request) (io_buf : io_buffer)
         (rr : nfs_read_reply),
    nfs_state nfs = NFS_READ_SENT ->
    accept_state (oncrpc_get_reply X nfs_session (local_reply e) io_buf)
    = 0 ->
    nfs_get_read_reply X (local_read_reply e)
      (oncrpc_get_reply X nfs_session (local_reply e) io_buf) = (0, rr) ->
    rc_xfer_deliver_raw e = 0 ->
    eof rr = 0 ->
    let next :=
      nfs_read nfs_intf (current_fh nfs)
        (u64 (file_offset nfs + count rr)) NFS_RSIZE in
    (window_of e nfs_intf = true ->
     filter is_read (snd (nfs_deliver X e nfs io_buf)) = [next]
     /\ (rc_nfs_read e = 0 ->
         nfs_state (fst (nfs_deliver X e nfs io_buf)) = NFS_READ_SENT))
    /\ (window_of e nfs_intf = false ->
        filter is_read (snd (nfs_deliver X e nfs io_buf)) = []
        /\ nfs_state (fst (nfs_deliver X e nfs io_buf)) = NFS_READ
        /\ forall e',
             window_of e' nfs_intf = true ->
             filter is_read
               (snd (nfs_step e' (fst (nfs_deliver X e nfs io_buf))))
             = [next]).
Proof.
  intros X e nfs io_buf rr Hs Ha Hrr Hd Heof next.
  rewrite (nfs_deliver_read X e nfs io_buf rr Hs Ha Hrr). cbv zeta.
  rewrite Hd, Heof. cbn [negb Z.eqb].
  assert (Hseek : forall rest,
            filter is_read
              ((if file_offset nfs =? 0
                then [ xfer_seek xfer (off_t (filesize rr)) ;
                       xfer_seek xfer 0 ]
                else [])
               ++ [ xfer_deliver_raw xfer (data rr) (data_len rr) ] ++ rest)
            = filter is_read rest).
  { intros rest. rewrite !filter_app.
    destruct (file_offset nfs =? 0); reflexivity. }
  cbn [fst snd]. rewrite Hseek.
  split; intros Hw.
  - unfold nfs_step. rewrite Hw. cbn [negb nfs_state set_nfs_state].
    change (NFS_READ =? NFS_LOOKUP) with false.
    change (NFS_READ =? NFS_READ) with true. cbn iota.
    cbn [current_fh file_offset set_nfs_state set_file_offset].
    split.
    + repeat break_goal; reflexivity.
    + intros Hr. rewrite Hr. cbn [Z.eqb negb fst nfs_state set_nfs_state].
      change (0 =? - EAGAIN) with false. cbn iota. reflexivity.
  - assert (Hst : forall n, nfs_step e n = (n, []))
      by (intros n; unfold nfs_step; now rewrite Hw).
    rewrite !Hst. cbn [fst snd filter nfs_state set_nfs_state].
    split; [reflexivity|]. split; [reflexivity|].
    intros e' Hw'. unfold nfs_step. rewrite Hw'.
    cbn [negb nfs_state set_nfs_state].
    change (NFS_READ =? NFS_LOOKUP) with false.
    change (NFS_READ =? NFS_READ) with true. cbn iota.
    cbn [current_fh file_offset set_nfs_state set_file_offset].
    repeat break_goal; reflexivity.
Qed.

(** X20 at the sample request, moved to offset 7, on a READ reply of
    count 1300 that carries two bytes: the next READ asks for offset 1307,
    not 9. *)
Lemma next_read_follows_count_sample :
  filter is_read
    (snd (nfs_deliver SpecCodec.spec_decoders Scenario.all_open
            (set_file_offset Scenario.reading 7) Scenario.read_reply_short))
  = [ nfs_read nfs_intf (Scenario.fh 2) 1307 NFS_RSIZE ]
  /\ filter is_data
       (snd (nfs_deliver SpecCodec.spec_decoders Scenario.all_open
               (set_file_offset Scenario.reading 7)
               Scenario.read_reply_short))
     = [ xfer_deliver_raw xfer [104; 105] 2 ]
  /\ filter is_read
       (snd (nfs_step Scenario.all_open
               (fst (nfs_deliver SpecCodec.spec_decoders
                       Scenario.nfs_not_connected
                       (set_file_offset Scenario.reading 7)
                       Scenario.read_reply_short))))
     = [ nfs_read nfs_intf (Scenario.fh 2) 1307 NFS_RSIZE ].
Proof.
  pose (rr := {| filesize := 3000 ; count := 1300 ; eof := 0 ;
                 data_len := 2 ; data := [104; 105] |}).
  destruct (next_read_follows_count SpecCodec.spec_decoders
              Scenario.all_open (set_file_offset Scenario.reading 7)
              Scenario.read_reply_short rr
              ltac:(vm_compute; reflexivity) ltac:(vm_compute; reflexivity)
              ltac:(vm_compute; reflexivity) eq_refl eq_refl) as [Hopen _].
  destruct (next_read_follows_count SpecCodec.spec_decoders
              Scenario.nfs_not_connected
              (set_file_offset Scenario.reading 7)
              Scenario.read_reply_short rr
              ltac:(vm_compute; reflexivity) ltac:(vm_compute; reflexivity)
              ltac:(vm_compute; reflexivity) eq_refl eq_refl)
    as [_ Hclosed].
  destruct (Hopen eq_refl) as [H1 _].
  destruct (Hclosed eq_refl) as (_ & _ & H3).
  split; [rewrite H1; vm_compute; reflexivity|].
  split; [vm_compute; reflexivity|].
  rewrite (H3 Scenario.all_open eq_refl). vm_compute. reflexivity.
Defined.

(** X24.  File handles flow from the replies to the next call: on an MNT
    reply that decodes, the handle it carries becomes the current handle
    and is the directory handle of the LOOKUP sent for the request's file
    name; on a LOOKUP reply that decodes, the handle it carries becomes the
    current handle and is the one READ is sent with, at the request's file
    offset and with size [NFS_RSIZE].  (NFS window open in both cases.) *)
Theorem handles_flow_from_replies :
  forall (X : decoders) (e : env) (nfs : nfs_request) (io_buf : io_buffer),
    window_of e nfs_intf = true ->
    (forall mr,
       mount_state nfs = NFS_MOUNT_MNT ->
       accept_state (oncrpc_get_reply X mount_session (local_reply e) io_buf)
       = 0 ->
       mount_get_mnt_reply X
         (oncrpc_get_reply X mount_session (local_reply e) io_buf)
       = (0, mr) ->
       current_fh (fst (nfs_mount_deliver X e nfs io_buf)) = mnt_fh mr
       /\ filter is_lookup (snd (nfs_mount_deliver X e nfs io_buf))
          = [ nfs_lookup nfs_intf (mnt_fh mr)
                (string_at nfs (filename nfs)) ]
       /\ filter is_read (snd (nfs_mount_deliver X e nfs io_buf)) = [])
    /\ (forall lr,
          nfs_state nfs = NFS_LOOKUP_SENT ->
          accept_state (oncrpc_get_reply X nfs_session (local_reply e) io_buf)
          = 0 ->
          nfs_get_lookup_reply X
            (oncrpc_get_reply X nfs_session (local_reply e) io_buf)
          = (0, lr) ->
          current_fh (fst (nfs_deliver X e nfs io_buf)) = lookup_fh lr
          /\ filter is_read (snd (nfs_deliver X e nfs io_buf))
             = [ nfs_read nfs_intf (lookup_fh lr) (file_offset nfs)
                   NFS_RSIZE ]
          /\ filter is_lookup (snd (nfs_deliver X e nfs io_buf)) = []).
Proof.
  intros X e nfs io_buf Hw. split.
  - intros mr Hs Ha Hm. unfold nfs_mount_deliver.
    rewrite Ha, Hs, Hm. cbn [negb Z.eqb].
    change (NFS_MOUNT_MNT =? NFS_MOUNT_MNT) with true. cbn iota.
    unfold nfs_step. rewrite Hw.
    cbn [negb nfs_state set_nfs_state set_current_fh current_fh].
    change (NFS_LOOKUP =? NFS_LOOKUP) with true. cbn iota.
    change (string_at (set_nfs_state (set_current_fh nfs (mnt_fh mr))
                         NFS_LOOKUP)
              (filename (set_nfs_state (set_current_fh nfs (mnt_fh mr))
                           NFS_LOOKUP)))
      with (string_at nfs (filename nfs)).
    repeat break_goal; now repeat split.
  - intros lr Hs Ha Hl. unfold nfs_deliver.
    rewrite Ha, Hs, Hl. cbn [negb Z.eqb].
    change (NFS_LOOKUP_SENT =? NFS_LOOKUP_SENT) with true. cbn iota.
    unfold nfs_step. rewrite Hw.
    cbn [negb nfs_state set_nfs_state set_current_fh current_fh file_offset].
    rewrite Hs.
    change (NFS_LOOKUP_SENT + 1 =? NFS_LOOKUP) with false.
    change (NFS_LOOKUP_SENT + 1 =? NFS_READ) with true. cbn iota.
    repeat break_goal; now repeat split.
Qed.

Lemma handles_flow_from_replies_sample :
  current_fh (fst (nfs_deliver SpecCodec.spec_decoders Scenario.all_open
                     (set_nfs_state Scenario.reading NFS_LOOKUP_SENT)
                     Scenario.lookup_reply)) = Scenario.fh 2
  /\ filter is_read
       (snd (nfs_deliver SpecCodec.spec_decoders Scenario.all_open
               (set_nfs_state Scenario.reading NFS_LOOKUP_SENT)
               Scenario.lookup_reply))
     = [ nfs_read nfs_intf (Scenario.fh 2) 0 NFS_RSIZE ].
Proof.
  destruct (handles_flow_from_replies SpecCodec.spec_decoders
              Scenario.all_open
              (set_nfs_state Scenario.reading NFS_LOOKUP_SENT)
              Scenario.lookup_reply eq_refl) as [_ H].
  destruct (H {| lookup_fh := Scenario.fh 2 |} eq_refl eq_refl eq_refl)
    as (H1 & H2 & _).
  split; [exact H1|exact H2].
Defined.

(** *** The three state members *)

Lemma state_ok_spec (nfs : nfs_request) :
  state_ok nfs = true
  <-> 0 <= pm_state nfs <= 3
      /\ ((nfs_state nfs = 0 /\ (mount_state nfs = 0 \/ mount_state nfs = 1))
          \/ (1 <= nfs_state nfs <= 4 /\ mount_state nfs = 1)
          \/ (nfs_state nfs = 5 /\ mount_state nfs = 2)).
Proof.
  unfold state_ok, MFS_PORTMAP_CLOSED, NFS_NONE, NFS_MOUNT_NONE,
    NFS_MOUNT_MNT, NFS_MOUNT_UMNT, NFS_LOOKUP, NFS_READ_SENT, NFS_CLOSED.
  rewrite !andb_true_iff, !orb_true_iff, !andb_true_iff, !orb_true_iff.
  rewrite !Z.leb_le, !Z.eqb_eq. tauto.
Qed.

Ltac state_leaf :=
  cbn [fst snd pm_state mount_state nfs_state set_pm_state set_mount_state
       set_nfs_state set_current_fh set_file_offset] in *;
  eqb_hyps;
  unfold NFS_PORTMAP_NONE, NFS_PORTMAP_MOUNTPORT, NFS_PORTMAP_NFSPORT,
    MFS_PORTMAP_CLOSED, NFS_MOUNT_NONE, NFS_MOUNT_MNT, NFS_MOUNT_UMNT,
    NFS_NONE, NFS_LOOKUP, NFS_LOOKUP_SENT, NFS_READ, NFS_READ_SENT,
    NFS_CLOSED in *;
  lia.

Lemma nfs_pm_step_state_ok (e : env) (nfs : nfs_request) :
  state_ok nfs = true -> state_ok (fst (nfs_pm_step e nfs)) = true.
Proof.
  rewrite !state_ok_spec. intros H. unfold nfs_pm_step.
  repeat break_goal; state_leaf.
Qed.

Lemma nfs_mount_step_state_ok (e : env) (nfs : nfs_request) :
  state_ok nfs = true -> state_ok (fst (nfs_mount_step e nfs)) = true.
Proof.
  rewrite !state_ok_spec. intros H. unfold nfs_mount_step.
  repeat break_goal; state_leaf.
Qed.

Lemma nfs_step_state_ok (e : env) (nfs : nfs_request) :
  state_ok nfs = true -> state_ok (fst (nfs_step e nfs)) = true.
Proof.
  rewrite !state_ok_spec. intros H. unfold nfs_step.
  repeat break_goal; state_leaf.
Qed.

Lemma nfs_handle_state_ok (X : decoders) (e : env) (nfs : nfs_request)
  (ev : event) :
  state_ok nfs = true -> state_ok (fst (nfs_handle X e nfs ev)) = true.
Proof.
  intros H.
  destruct ev as [i|i io_buf|i rc]; destruct i; cbn [nfs_handle fst];
    try exact H;
    try (now apply nfs_pm_step_state_ok);
    try (now apply nfs_mount_step_state_ok);
    try (now apply nfs_step_state_ok).
  all: unfold nfs_pm_deliver, nfs_mount_deliver, nfs_deliver.
  all: repeat match goal with
       | |- context [nfs_connect ?e ?i ?p ?h] =>
           destruct (nfs_connect e i p h)
       | |- context [nfs_pm_step ?e ?n] =>
           let Hs := fresh "Hstep" in
           pose proof (nfs_pm_step_state_ok e n) as Hs;
           destruct (nfs_pm_step e n); cbn [fst] in Hs
       | |- context [nfs_mount_step ?e ?n] =>
           let Hs := fresh "Hstep" in
           pose proof (nfs_mount_step_state_ok e n) as Hs;
           destruct (nfs_mount_step e n); cbn [fst] in Hs
       | |- context [nfs_step ?e ?n] =>
           let Hs := fresh "Hstep" in
           pose proof (nfs_step_state_ok e n) as Hs;
           destruct (nfs_step e n); cbn [fst] in Hs
       | _ => break_goal
       end.
  all: cbn [fst];
    try match goal with
        | Hs : _ -> state_ok ?n = true |- state_ok ?n = true =>
            apply Hs; clear Hs
        end;
    rewrite state_ok_spec in *; state_leaf.
Qed.

Lemma nfs_run_state_ok (X : decoders) (evs : list (env * event))
  (nfs : nfs_request) :
  state_ok nfs = true -> state_ok (fst (nfs_run X nfs evs)) = true.
Proof.
  revert nfs; induction evs as [|[e ev] evs IH]; intros nfs H;
    cbn [nfs_run]; [exact H|].
  pose proof (nfs_handle_state_ok X e nfs ev H) as H1.
  destruct (nfs_handle X e nfs ev) as [nfs1 out1]. cbn [fst] in H1.
  specialize (IH nfs1 H1).
  destruct (nfs_run X nfs1 evs) as [nfs2 out2]. exact IH.
Qed.

(** X21.  From the request [nfs_open] creates, whatever events arrive
    and whatever the outside answers, the three state members stay within
    their enumerations and in step with each other: the portmap state is
    between [NFS_PORTMAP_NONE] and [MFS_PORTMAP_CLOSED]; the NFS state is
    [NFS_NONE] only while the mount state is [NFS_MOUNT_NONE] or
    [NFS_MOUNT_MNT], is between [NFS_LOOKUP] and [NFS_READ_SENT] only while
    the mount state is [NFS_MOUNT_MNT], and is [NFS_CLOSED] exactly when the
    mount state is [NFS_MOUNT_UMNT].  In particular [NFS_MOUNT_CLOSED] is
    never entered. *)
Theorem states_stay_in_step :
  forall (X : decoders) (heap : open_allocator) (e : env)
         (hostname_setting : option cstring) (u : uri) (rc : Z)
         (nfs : nfs_request) (out : list call) (evs : list (env * event)),
    nfs_open heap e hostname_setting u = (rc, Some nfs, out) ->
    state_ok (fst (nfs_run X nfs evs)) = true
    /\ mount_state (fst (nfs_run X nfs evs)) <> NFS_MOUNT_CLOSED
    /\ (nfs_state (fst (nfs_run X nfs evs)) = NFS_CLOSED
        <-> mount_state (fst (nfs_run X nfs evs)) = NFS_MOUNT_UMNT).
Proof.
  intros X heap e hs u rc nfs out evs Hopen.
  assert (H0 : state_ok nfs = true).
  { destruct (nfs_open_initial_states heap e hs u rc nfs out
                Hopen) as (Hp & Hm & Hn).
    unfold state_ok. rewrite Hp, Hm, Hn. reflexivity. }
  pose proof (nfs_run_state_ok X evs nfs H0) as H.
  split; [exact H|]. apply state_ok_spec in H.
  unfold NFS_MOUNT_CLOSED, NFS_CLOSED, NFS_MOUNT_UMNT. lia.
Qed.

Lemma states_stay_in_step_sample :
  state_ok (fst (nfs_run SpecCodec.spec_decoders Scenario.nfs0
                   Scenario.happy_path)) = true
  /\ mount_state (fst (nfs_run SpecCodec.spec_decoders Scenario.nfs0
                         Scenario.happy_path)) <> NFS_MOUNT_CLOSED
  /\ (nfs_state (fst (nfs_run SpecCodec.spec_decoders Scenario.nfs0
                        Scenario.happy_path)) = NFS_CLOSED
      <-> mount_state (fst (nfs_run SpecCodec.spec_decoders Scenario.nfs0
                              Scenario.happy_path)) = NFS_MOUNT_UMNT).
Proof.
  apply (states_stay_in_step SpecCodec.spec_decoders Scenario.heap_ok
           Scenario.all_open None Scenario.the_uri 0 Scenario.nfs0
           (snd Scenario.opened)).
  vm_compute. reflexivity.
Defined.

(** X22.  The driver has no state for an UMNT or a second GETPORT that
    has been sent: while the mount state is [NFS_MOUNT_UMNT], every window
    change on the mount interface that finds the window open sends UMNT
    again, and while the portmap state is [NFS_PORTMAP_NFSPORT], every
    window change on the portmap interface sends the GETPORT for NFS
    again; the request is left as it was each time. *)
Theorem unanswered_calls_are_repeated :
  forall (X : decoders) (e : env) (nfs : nfs_request) (k : nat),
    window_of e mount_intf = true ->
    window_of e pm_intf = true ->
    rc_mount_umnt e = 0 ->
    rc_portmap_getport e = 0 ->
    (mount_state nfs = NFS_MOUNT_UMNT ->
     nfs_run X nfs (repeat (e, window_changed mount_intf) k)
     = (nfs,
        repeat (mount_umnt mount_intf (string_at nfs (mountpoint nfs))) k))
    /\ (pm_state nfs = NFS_PORTMAP_NFSPORT ->
        nfs_run X nfs (repeat (e, window_changed pm_intf) k)
        = (nfs,
           repeat (portmap_getport pm_intf ONCRPC_NFS NFS_VERS
                     PORTMAP_PROTO_TCP) k)).
Proof.
  intros X e nfs k Hwm Hwp Hu Hg. split; intros Hs.
  - assert (H1 : nfs_mount_step e nfs
                 = (nfs, [ mount_umnt mount_intf
                             (string_at nfs (mountpoint nfs)) ])).
    { unfold nfs_mount_step. rewrite Hwm, Hs, Hu. reflexivity. }
    induction k as [|k IH]; [reflexivity|].
    cbn [repeat nfs_run nfs_handle]. rewrite H1, IH. reflexivity.
  - assert (H1 : nfs_pm_step e nfs
                 = (nfs, [ portmap_getport pm_intf ONCRPC_NFS NFS_VERS
                             PORTMAP_PROTO_TCP ])).
    { unfold nfs_pm_step. rewrite Hwp, Hs, Hg. reflexivity. }
    induction k as [|k IH]; [reflexivity|].
    cbn [repeat nfs_run nfs_handle]. rewrite H1, IH. reflexivity.
Qed.

Lemma unanswered_calls_are_repeated_sample :
  nfs_run SpecCodec.spec_decoders
    (set_mount_state (set_nfs_state Scenario.reading NFS_CLOSED)
       NFS_MOUNT_UMNT)
    (repeat (Scenario.all_open, window_changed mount_intf) 3)
  = (set_mount_state (set_nfs_state Scenario.reading NFS_CLOSED)
       NFS_MOUNT_UMNT,
     repeat (mount_umnt mount_intf Scenario.srv_export) 3).
Proof.
  destruct (unanswered_calls_are_repeated SpecCodec.spec_decoders
              Scenario.all_open
              (set_mount_state (set_nfs_state Scenario.reading NFS_CLOSED)
                 NFS_MOUNT_UMNT) 3 eq_refl eq_refl eq_refl eq_refl)
    as [H _].
  rewrite (H eq_refl). vm_compute. reflexivity.
Defined.

(* ------------------------------------------------------------------ *)
(** ** Further properties of the callback-chain driver *)



